(** * zvm.js: a filesystem-level model of the Zig version manager

    The development embeds [zvm.js] shallowly: every handler of the script
    becomes a computation in a small state-and-exception monad over a model
    of the file system, the network and the archive tool.  The properties
    proved are those of the acquisition-and-activation pipeline: version
    resolution, package naming, mirror fallback, atomic install, activation
    and the alias store. *)

From Stdlib Require Import String Ascii List Arith Lia Bool.
From stdpp Require Import base option list gmap strings fin_maps pretty.

Local Open Scope string_scope.
Local Open Scope list_scope.

(** ** JavaScript strings *)

Module Js.

(** [s.startsWith(p)] *)
Fixpoint startsWith (s p : string) {struct p} : bool :=
  match p with
  | EmptyString => true
  | String a p' =>
      match s with
      | EmptyString => false
      | String b s' => if Ascii.eqb a b then startsWith s' p' else false
      end
  end.

(** [s.includes(t)]: [t] occurs in [s] as a contiguous substring. *)
Fixpoint includes (s t : string) {struct s} : bool :=
  startsWith s t ||
  match s with
  | EmptyString => false
  | String _ s' => includes s' t
  end.

(** [arr.includes(x)] on an array of strings (strict equality). *)
Definition arr_includes (arr : list string) (x : string) : bool :=
  existsb (String.eqb x) arr.

(** Truthiness of a string value: only the empty string is falsy. *)
Definition truthy (s : string) : bool :=
  match s with EmptyString => false | _ => true end.

(** Truthiness of a value that may be [null]/[undefined]. *)
Definition truthy_opt (o : option string) : bool :=
  match o with Some s => truthy s | None => false end.

(** A string is the sequence of the bytes of its UTF-8 encoding. *)
Definition utf8 (bytes : list nat) : string :=
  string_of_list_ascii (map ascii_of_nat bytes).

(** What [String.prototype.trim] removes: the code points of WhiteSpace
    and of LineTerminator. *)
Definition whiteSpace : list string :=
  [ utf8 [9]; utf8 [10]; utf8 [11]; utf8 [12]; utf8 [13]; utf8 [32];
    utf8 [194; 160];                                     (* U+00A0 *)
    utf8 [225; 154; 128];                                (* U+1680 *)
    utf8 [226; 128; 128]; utf8 [226; 128; 129]; utf8 [226; 128; 130];
    utf8 [226; 128; 131]; utf8 [226; 128; 132]; utf8 [226; 128; 133];
    utf8 [226; 128; 134]; utf8 [226; 128; 135]; utf8 [226; 128; 136];
    utf8 [226; 128; 137]; utf8 [226; 128; 138];          (* U+2000 to U+200A *)
    utf8 [226; 128; 168]; utf8 [226; 128; 169];          (* U+2028, U+2029 *)
    utf8 [226; 128; 175];                                (* U+202F *)
    utf8 [226; 129; 159];                                (* U+205F *)
    utf8 [227; 128; 128];                                (* U+3000 *)
    utf8 [239; 187; 191] ].                              (* U+FEFF *)

Fixpoint dropChars (n : nat) (s : string) : string :=
  match n, s with
  | S n', String _ s' => dropChars n' s'
  | _, _ => s
  end.

(** [s] without the first of [heads] that it starts with. *)
Fixpoint behead (heads : list string) (s : string) : option string :=
  match heads with
  | [] => None
  | h :: rest =>
      if startsWith s h then Some (dropChars (String.length h) s) else behead rest s
  end.

Fixpoint beheadAll (fuel : nat) (heads : list string) (s : string) : string :=
  match fuel with
  | 0 => s
  | S fuel' =>
      match behead heads s with
      | Some s' => beheadAll fuel' heads s'
      | None => s
      end
  end.

Definition reverse (s : string) : string :=
  string_of_list_ascii (rev (list_ascii_of_string s)).

Definition trimStart (s : string) : string :=
  beheadAll (String.length s) whiteSpace s.

Definition trimEnd (s : string) : string :=
  reverse (beheadAll (String.length s) (map reverse whiteSpace) (reverse s)).

Definition trim (s : string) : string := trimEnd (trimStart s).

(** [s.split(sep)] for a one-character separator. *)
Fixpoint split (sep : ascii) (s : string) : list string :=
  match s with
  | EmptyString => [EmptyString]
  | String a s' =>
      if Ascii.eqb a sep then EmptyString :: split sep s'
      else match split sep s' with
           | h :: t => String a h :: t
           | [] => [String a EmptyString]
           end
  end.

(** [s.replace(/\/$/, "")]: drop one trailing slash. *)
Fixpoint dropTrailingSlash (s : string) : string :=
  match s with
  | EmptyString => EmptyString
  | String a EmptyString => if Ascii.eqb a "/"%char then EmptyString else s
  | String a s' => String a (dropTrailingSlash s')
  end.

(** [arr.join(sep)] *)
Fixpoint join (sep : string) (arr : list string) : string :=
  match arr with
  | [] => EmptyString
  | [x] => x
  | x :: rest => x +:+ sep +:+ join sep rest
  end.

(** [s.endsWith("/")] *)
Fixpoint endsWithSlash (s : string) : bool :=
  match s with
  | EmptyString => false
  | String a EmptyString => Ascii.eqb a "/"%char
  | String _ s' => endsWithSlash s'
  end.

Fixpoint allChars (p : ascii -> bool) (s : string) : bool :=
  match s with
  | EmptyString => true
  | String a s' => p a && allChars p s'
  end.

(** The name of one directory entry: not empty, not [.] or [..], and
    without a separator of either platform. *)
Definition plain_name (s : string) : bool :=
  truthy s && negb (String.eqb s ".") && negb (String.eqb s "..")
  && allChars (fun a => negb (Ascii.eqb a "/"%char) && negb (Ascii.eqb a (ascii_of_nat 92))) s.

(** The own properties of [Object.prototype], which every object literal
    and every object read by [JSON.parse] inherits. *)
Definition inherited : list string :=
  [ "constructor"; "__defineGetter__"; "__defineSetter__"; "hasOwnProperty";
    "__lookupGetter__"; "__lookupSetter__"; "isPrototypeOf";
    "propertyIsEnumerable"; "toString"; "valueOf"; "__proto__";
    "toLocaleString" ].

(** What reading a property of the parsed alias file gives, when it is
    truthy: a string, the function or object inherited under a name, or
    any other value (a number, an array, an object), kept as the text
    that it is converted to. *)
Inductive value :=
| Str (s : string)
| Inherited (name : string)
| Other (text : string).

Definition truthy_value (v : value) : bool :=
  match v with
  | Str s => truthy s
  | Inherited _ => true
  | Other _ => true
  end.

(** A character that [sh] and [cmd.exe] hand on as it is, wherever it
    stands in a word. *)
Definition shell_literal (a : ascii) : bool :=
  let n := nat_of_ascii a in
  (Nat.leb 48 n && Nat.leb n 57) || (Nat.leb 65 n && Nat.leb n 90)
  || (Nat.leb 97 n && Nat.leb n 122)
  || Ascii.eqb a "/"%char || Ascii.eqb a "."%char || Ascii.eqb a "_"%char
  || Ascii.eqb a "-"%char || Ascii.eqb a "+"%char.

Definition shell_safe (s : string) : bool := allChars shell_literal s.

End Js.

(** ** JSON texts

    The texts that [JSON.parse] accepts, over the bytes of a text: one
    value between blanks.  Each function returns what is left of the text
    after the part that it accepts. *)

Module Json.

Definition is_blank (a : ascii) : bool :=
  let n := nat_of_ascii a in
  Nat.eqb n 32 || Nat.eqb n 9 || Nat.eqb n 10 || Nat.eqb n 13.

Definition is_digit (a : ascii) : bool :=
  let n := nat_of_ascii a in Nat.leb 48 n && Nat.leb n 57.

Definition is_hex (a : ascii) : bool :=
  let n := nat_of_ascii a in
  is_digit a || (Nat.leb 65 n && Nat.leb n 70) || (Nat.leb 97 n && Nat.leb n 102).

Fixpoint blanks (s : string) : string :=
  match s with
  | String a s' => if is_blank a then blanks s' else s
  | EmptyString => s
  end.

Fixpoint digits (s : string) : string :=
  match s with
  | String a s' => if is_digit a then digits s' else s
  | EmptyString => s
  end.

(** One digit at least. *)
Definition digits1 (s : string) : option string :=
  match s with
  | String a _ => if is_digit a then Some (digits s) else None
  | EmptyString => None
  end.

(** The characters of a string after its opening quote, up to the closing
    one: no control character, and after a backslash one of the escapes. *)
Fixpoint chars (s : string) : option string :=
  match s with
  | EmptyString => None
  | String a s' =>
      if Nat.eqb (nat_of_ascii a) 34 then Some s'
      else if Nat.eqb (nat_of_ascii a) 92 then
        match s' with
        | String b s'' =>
            if Nat.eqb (nat_of_ascii b) 34 || Nat.eqb (nat_of_ascii b) 92
               || Js.arr_includes ["/"; "b"; "f"; "n"; "r"; "t"] (String b EmptyString)
            then chars s''
            else if Ascii.eqb b "u"%char then
              match s'' with
              | String h1 (String h2 (String h3 (String h4 rest))) =>
                  if is_hex h1 && is_hex h2 && is_hex h3 && is_hex h4
                  then chars rest else None
              | _ => None
              end
            else None
        | EmptyString => None
        end
      else if Nat.ltb (nat_of_ascii a) 32 then None
      else chars s'
  end.

(** A number: an optional minus, then zero or a run of digits that does
    not start with zero, then optionally a dot with digits, then
    optionally an exponent. *)
Definition fraction (s : string) : option string :=
  match s with
  | String a s' => if Ascii.eqb a "."%char then digits1 s' else Some s
  | EmptyString => Some s
  end.

Definition exponent (s : string) : option string :=
  match s with
  | String a s' =>
      if Ascii.eqb a "e"%char || Ascii.eqb a "E"%char then
        match s' with
        | String b s'' =>
            if Ascii.eqb b "+"%char || Ascii.eqb b "-"%char then digits1 s''
            else digits1 s'
        | EmptyString => None
        end
      else Some s
  | EmptyString => Some s
  end.

Definition number (s : string) : option string :=
  let unsigned :=
    match s with
    | String a s' => if Ascii.eqb a "-"%char then s' else s
    | EmptyString => s
    end in
  match unsigned with
  | String a s' =>
      let whole :=
        if Ascii.eqb a "0"%char then Some s'
        else if is_digit a then Some (digits s')
        else None in
      match whole with
      | Some rest =>
          match fraction rest with
          | Some rest' => exponent rest'
          | None => None
          end
      | None => None
      end
  | EmptyString => None
  end.

Definition literal (word s : string) : option string :=
  if Js.startsWith s word then Some (Js.dropChars (String.length word) s) else None.

(** A value, the members of an object after its brace and the elements of
    an array after its bracket; [fuel] bounds the depth of the calls. *)
Fixpoint value (fuel : nat) (s : string) : option string :=
  match fuel with
  | 0 => None
  | S fuel' =>
      match s with
      | EmptyString => None
      | String a s' =>
          if Ascii.eqb a "{"%char then
            match blanks s' with
            | String c rest =>
                if Ascii.eqb c "}"%char then Some rest else members fuel' (blanks s')
            | EmptyString => None
            end
          else if Ascii.eqb a "["%char then
            match blanks s' with
            | String c rest =>
                if Ascii.eqb c "]"%char then Some rest else elements fuel' (blanks s')
            | EmptyString => None
            end
          else if Nat.eqb (nat_of_ascii a) 34 then chars s'
          else if Ascii.eqb a "t"%char then literal "true" s
          else if Ascii.eqb a "f"%char then literal "false" s
          else if Ascii.eqb a "n"%char then literal "null" s
          else number s
      end
  end
with members (fuel : nat) (s : string) : option string :=
  match fuel with
  | 0 => None
  | S fuel' =>
      match s with
      | EmptyString => None
      | String q s' =>
          if negb (Nat.eqb (nat_of_ascii q) 34) then None else
          match chars s' with
          | None => None
          | Some afterName =>
              match blanks afterName with
              | String c afterColon =>
                  if negb (Ascii.eqb c ":"%char) then None else
                  match value fuel' (blanks afterColon) with
                  | None => None
                  | Some afterValue =>
                      match blanks afterValue with
                      | String d rest =>
                          if Ascii.eqb d ","%char then members fuel' (blanks rest)
                          else if Ascii.eqb d "}"%char then Some rest
                          else None
                      | EmptyString => None
                      end
                  end
              | EmptyString => None
              end
          end
      end
  end
with elements (fuel : nat) (s : string) : option string :=
  match fuel with
  | 0 => None
  | S fuel' =>
      match value fuel' s with
      | None => None
      | Some afterValue =>
          match blanks afterValue with
          | String d rest =>
              if Ascii.eqb d ","%char then elements fuel' (blanks rest)
              else if Ascii.eqb d "]"%char then Some rest
              else None
          | EmptyString => None
          end
      end
  end.

(** [JSON.parse(s)] does not raise. *)
Definition valid (s : string) : bool :=
  match value (2 * String.length s + 2) (blanks s) with
  | Some rest => bool_decide (blanks rest = EmptyString)
  | None => false
  end.

(** The text of a valid document is that of [null]. *)
Definition is_null (s : string) : bool := Js.startsWith (blanks s) "n".

End Json.

(** ** Paths

    A path is the list of its segments below the file-system root, so that
    [path.join], [path.basename] and [path.dirname] are list operations. *)

Abbreviation path := (list string).

Module Path.

(** [path.join(base, name)] for the name of one entry; an empty name adds
    nothing. *)
Definition join (base : path) (name : string) : path :=
  if Js.truthy name then base ++ [name] else base.

(** The normalisation of [path.join]: empty segments and [.] are dropped
    and [..] takes the segment before it away (none at the root). *)
Definition resolve (base : path) (segments : list string) : path :=
  fold_left
    (fun acc segment =>
       if String.eqb segment EmptyString || String.eqb segment "." then acc
       else if String.eqb segment ".." then List.removelast acc
       else acc ++ [segment])
    segments base.

(** [path.join(base, name)] for any text [name], with [/] as the separator:
    the segments of the path, and whether the path ends in a slash, which
    is kept from [name]. *)
Definition joinName (base : path) (name : string) : path * bool :=
  let p := resolve base (Js.split "/"%char name) in
  (p, Js.endsWithSlash name && negb (bool_decide (p = []))).

(** [path.basename(p)] *)
Definition basename (p : path) : string := List.last p EmptyString.

(** [path.dirname(p)] *)
Definition dirname (p : path) : path := List.removelast p.

(** The template [`${p}.tmp`]: the suffix lands on the last segment. *)
Definition suffixed (p : path) (sfx : string) : path :=
  match p with
  | [] => [sfx]
  | _ => List.removelast p ++ [List.last p EmptyString +:+ sfx]
  end.

(** Printing, for log messages and link targets. *)
Definition show (p : path) : string := "/" +:+ Js.join "/" p.

(** The same for a path that may end in a slash. *)
Definition showSlash (p : path * bool) : string :=
  show p.1 +:+ (if p.2 then "/" else EmptyString).

End Path.

(** ** Exceptions and results *)

(** Node's file-system errors carry a [code]; every other exception
    ([Error], [TypeError], [SyntaxError]) has [e.code === undefined]. *)
Inductive exn :=
| SystemError (code : string)
| Error (message : string).

Definition has_code (c : string) (e : exn) : bool :=
  match e with
  | SystemError c' => String.eqb c' c
  | Error _ => false
  end.

Definition message (e : exn) : string :=
  match e with
  | SystemError c => c
  | Error m => m
  end.

Inductive res (A : Type) :=
| Val (a : A)
| Throw (e : exn).
Arguments Val {A} a.
Arguments Throw {A} e.

Definition failure {A} (r : res A) : option exn :=
  match r with Val _ => None | Throw e => Some e end.

(** ** Files, directories and links *)

(** What [tar] sees in an archive: the text printed by [tar -tf], the files
    that [tar -xf --strip-components=1] writes, and, for a damaged archive,
    the files written before [tar] gives up with a non-zero exit code. *)
Record tarball := {
  tar_listing : string;
  tar_payload : gmap string string;
  tar_damage : option (gmap string string)
}.

(** File contents, kept at the level at which the script reads them: a
    text; a JSON text of an object whose values are strings, however it
    is laid out, kept as that object; an archive; and what an interrupted
    download leaves.  [Text] stands for the texts that are no JSON text of
    such an object. *)
Inductive fcontent :=
| Text (s : string)
| AliasJson (m : gmap string string)
| Tarball (t : tarball)
| Partial.

(** A directory node carries the files unpacked below it (relative name to
    content); entries that the script addresses by path are separate keys
    of the file system. *)
Inductive node :=
| File (c : fcontent)
| Dir (inside : gmap string string)
| Link (target : path).

Abbreviation fsys := (gmap (list string) node).

(** ** What a run can observe and do *)

Inductive level := Plain | Info | Success | Failure | Warn.

Inductive call :=
| c_access (p : path)
| c_unlink (p : path)
| c_mkdir (p : path)
| c_rename (oldPath newPath : path)
| c_rm (p : path)
| c_symlink (target p : path) (linkType : string)
| c_readlink (p : path)
| c_readFile (p : path)
| c_writeFile (p : path)
| c_readdir (p : path)
| c_tar_tf (file : path)
| c_tar_xf (file dest : path)
| c_fetch (method url : string)
| c_sleep (ms : nat).

Inductive event :=
| Log (l : level) (msg : string)
| Call (c : call) (failed : option exn).

(** The state of a run: the file system, and the chronological list of
    events, each with the file system as it stands right after it. *)
Record state := {
  fs : fsys;
  trace : list (event * fsys)
}.

Definition start (f : fsys) : state := {| fs := f; trace := [] |}.

Definition events (st : state) : list event := map fst (trace st).

(** ** The monad of handlers *)

Definition M (A : Type) : Type := state -> res A * state.

Definition ret {A} (a : A) : M A := fun st => (Val a, st).

Definition bind {A B} (m : M A) (k : A -> M B) : M B :=
  fun st =>
    match m st with
    | (Val a, st') => k a st'
    | (Throw e, st') => (Throw e, st')
    end.

Definition throw {A} (e : exn) : M A := fun st => (Throw e, st).

Definition try_catch {A} (m : M A) (handler : exn -> M A) : M A :=
  fun st =>
    match m st with
    | (Val a, st') => (Val a, st')
    | (Throw e, st') => handler e st'
    end.

Notation "'let*' x ':=' m 'in' k" := (bind m (fun x => k))
  (at level 10, x name, m at level 100, k at level 200).
Notation "m ';;' k" := (bind m (fun _ => k))
  (at level 100, k at level 200, right associativity).

Definition record (e : event) (f : fsys) (st : state) : state :=
  {| fs := f; trace := trace st ++ [(e, f)] |}.

Definition log (l : level) (msg : string) : M unit :=
  fun st => (Val tt, record (Log l msg) (fs st) st).

(** A system call: its effect on the file system, recorded in the trace. *)
Definition sys {A} (c : call) (effect : fsys -> res A * fsys) : M A :=
  fun st =>
    let '(r, f) := effect (fs st) in
    (r, record (Call c (failure r)) f st).

(** ** The file-system calls of [fs/promises] *)

Module Fs.

Definition enoent {A} : res A := Throw (SystemError "ENOENT").

(** The directory that would hold [p] exists (the root always does). *)
Definition parent_ok (f : fsys) (p : path) : bool :=
  match Path.dirname p with
  | [] => true
  | d => match f !! d with Some (Dir _) => true | _ => false end
  end.

(** What a path leads to, through the links that stand at it; [fuel]
    bounds the number of links followed.  The root is always there. *)
Fixpoint reach (fuel : nat) (p : path) (f : fsys) : option node :=
  match p with
  | [] => Some (Dir ∅)
  | _ =>
      match f !! p with
      | Some (Link target) =>
          match fuel with
          | 0 => None
          | S fuel' => reach fuel' target f
          end
      | found => found
      end
  end.

(** [access(p)] *)
Definition access (p : path) (f : fsys) : res unit * fsys :=
  match reach (size f) p f with
  | Some _ => (Val tt, f)
  | None => (enoent, f)
  end.

(** [access] of a path written with a slash at its end, which has to lead
    to a directory. *)
Definition accessDir (p : path) (f : fsys) : res unit * fsys :=
  match reach (size f) p f with
  | Some (Dir _) => (Val tt, f)
  | Some _ => (Throw (SystemError "ENOTDIR"), f)
  | None => (enoent, f)
  end.

Definition unlink (p : path) (f : fsys) : res unit * fsys :=
  match f !! p with
  | Some (File _) | Some (Link _) => (Val tt, delete p f)
  | Some (Dir _) => (Throw (SystemError "EISDIR"), f)
  | None => (enoent, f)
  end.

(** [unlink] of a file that another process may hold: [held] is the error
    code that the call then fails with. *)
Definition unlinkHeld (held : option string) (p : path) (f : fsys)
  : res unit * fsys :=
  match held with
  | Some c => (Throw (SystemError c), f)
  | None => unlink p f
  end.

(** [mkdir(p, { recursive: true })]: walks down [p], creating what is
    missing; an existing directory is not an error. *)
Fixpoint mkdir_from (cur : path) (rest : list string) (f : fsys)
  : res unit * fsys :=
  match rest with
  | [] => (Val tt, f)
  | s :: rest' =>
      let q := cur ++ [s] in
      match f !! q with
      | None => mkdir_from q rest' (<[q := Dir ∅]> f)
      | Some (Dir _) => mkdir_from q rest' f
      | Some _ =>
          (Throw (SystemError (match rest' with [] => "EEXIST" | _ => "ENOTDIR" end)), f)
      end
  end.

Definition mkdir_p (p : path) (f : fsys) : res unit * fsys :=
  mkdir_from [] p f.

(** Some entry lies below [p]. *)
Definition has_children (p : path) (f : fsys) : bool :=
  existsb (fun k => bool_decide (p `prefix_of` k) && negb (bool_decide (k = p)))
          (map fst (map_to_list f)).

(** [rename(oldPath, newPath)]; [busy] is the error code of an outside
    interference (a scanner holding the directory) hitting this call.  A
    directory takes the place of an empty directory only, and nothing
    takes the place of the root. *)
Definition rename (busy : option string) (oldPath newPath : path) (f : fsys)
  : res unit * fsys :=
  match busy with
  | Some c => (Throw (SystemError c), f)
  | None =>
      match f !! oldPath with
      | None => (enoent, f)
      | Some n =>
          let moved := <[newPath := n]> (delete oldPath f) in
          match newPath with
          | [] => (Throw (SystemError "EBUSY"), f)
          | _ =>
          match f !! newPath with
          | None => if parent_ok f newPath then (Val tt, moved) else (enoent, f)
          | Some (Dir j) =>
              match n with
              | Dir _ =>
                  if decide (j = ∅) then
                    if has_children newPath f then (Throw (SystemError "ENOTEMPTY"), f)
                    else (Val tt, moved)
                  else (Throw (SystemError "ENOTEMPTY"), f)
              | _ => (Throw (SystemError "EISDIR"), f)
              end
          | Some _ =>
              match n with
              | Dir _ => (Throw (SystemError "ENOTDIR"), f)
              | _ => (Val tt, moved)
              end
          end
          end
      end
  end.

(** [rm(p, { recursive: true, force: true })] *)
Definition rm_rf (p : path) (f : fsys) : res unit * fsys :=
  (Val tt, delete p f).

Definition symlink (target p : path) (f : fsys) : res unit * fsys :=
  match f !! p with
  | Some _ => (Throw (SystemError "EEXIST"), f)
  | None =>
      if parent_ok f p then (Val tt, <[p := Link target]> f)
      else (enoent, f)
  end.

Definition readlink (p : path) (f : fsys) : res path * fsys :=
  match f !! p with
  | Some (Link t) => (Val t, f)
  | Some _ => (Throw (SystemError "EINVAL"), f)
  | None => (enoent, f)
  end.

(** [readFile(p)]; a link is read as dangling, since no link of the script
    points at a file. *)
Definition readFile (p : path) (f : fsys) : res fcontent * fsys :=
  match f !! p with
  | Some (File c) => (Val c, f)
  | Some (Dir _) => (Throw (SystemError "EISDIR"), f)
  | Some (Link _) => (enoent, f)
  | None => (enoent, f)
  end.

(** [writeFile(p, data)]; [data] is [Throw] when its source (a response
    body) breaks off, which leaves the start of the data in the file. *)
Definition writeFile (p : path) (data : res fcontent) (f : fsys)
  : res unit * fsys :=
  let written :=
    match data with
    | Val c => (Val tt, <[p := File c]> f)
    | Throw e => (Throw e, <[p := File Partial]> f)
    end in
  match f !! p with
  | Some (Dir _) => (Throw (SystemError "EISDIR"), f)
  | Some _ => written
  | None => if parent_ok f p then written else (enoent, f)
  end.

(** The name under which [k] is listed in [dir], if it is an entry of it. *)
Definition entry_of (dir k : path) : option string :=
  match k with
  | [] => None
  | _ => if decide (Path.dirname k = dir) then Some (Path.basename k) else None
  end.

Definition entries (dir : path) (f : fsys) : list string :=
  omap (entry_of dir) (map fst (map_to_list f)).

Definition readdir (p : path) (f : fsys) : res (list string) * fsys :=
  match f !! p with
  | Some (Dir _) => (Val (entries p f), f)
  | Some _ => (Throw (SystemError "ENOTDIR"), f)
  | None => (enoent, f)
  end.

End Fs.

(** ** Regular expressions

    A backtracking matcher with the preference order of JavaScript's:
    quantifiers are greedy and give back one repetition at a time, and a
    search tries the start positions from left to right. *)

Module Regex.

Inductive cls :=
| Digit                (* \d *)
| HexLower             (* [0-9a-f] *)
| Lit (c : ascii).

Definition is_digit (a : ascii) : bool :=
  let n := nat_of_ascii a in Nat.leb 48 n && Nat.leb n 57.

Definition test (c : cls) (a : ascii) : bool :=
  match c with
  | Digit => is_digit a
  | HexLower =>
      let n := nat_of_ascii a in
      is_digit a || (Nat.leb 97 n && Nat.leb n 102)
  | Lit b => Ascii.eqb a b
  end.

Inductive regex :=
| One (c : cls)
| Plus (c : cls)            (* c+ *)
| Seq (r1 r2 : regex)
| Opt (r : regex).          (* (r)? *)

Fixpoint word (w : string) (r : regex) : regex :=
  match w with
  | EmptyString => r
  | String a w' => Seq (One (Lit a)) (word w' r)
  end.

(** [c+] at the head of [s], then [k] on what is left: longest run first. *)
Fixpoint plus (c : cls) (s : string) (k : string -> option string)
  : option string :=
  match s with
  | String a s' =>
      if test c a then
        match plus c s' k with
        | Some r => Some r
        | None => k s'
        end
      else None
  | EmptyString => None
  end.

(** [run r s k]: match [r] at the head of [s] and continue with [k] on the
    rest; the result is what is left of [s] after the whole match. *)
Fixpoint run (r : regex) (s : string) (k : string -> option string)
  : option string :=
  match r with
  | One c =>
      match s with
      | String a s' => if test c a then k s' else None
      | EmptyString => None
      end
  | Plus c => plus c s k
  | Seq r1 r2 => run r1 s (fun s1 => run r2 s1 k)
  | Opt r1 =>
      match run r1 s k with
      | Some rest => Some rest
      | None => k s
      end
  end.

Fixpoint first_chars (n : nat) (s : string) : string :=
  match n, s with
  | S n', String a s' => String a (first_chars n' s')
  | _, _ => EmptyString
  end.

(** The match starting at the head of [s], if any. *)
Definition at_head (r : regex) (s : string) : option string :=
  match run r s Some with
  | Some rest => Some (first_chars (String.length s - String.length rest) s)
  | None => None
  end.

(** [s.match(r)] for a regex without the [g] flag: element [0] of the
    result, or [None] for [null]. *)
Fixpoint exec (r : regex) (s : string) : option string :=
  match at_head r s with
  | Some m => Some m
  | None =>
      match s with
      | String _ s' => exec r s'
      | EmptyString => None
      end
  end.

End Regex.

(** ** The environment of a run *)

Inductive reply :=
| Unreachable (e : exn)                       (* [fetch] rejects *)
| Response (ok : bool) (body : res fcontent). (* [Throw]: the body breaks off *)

(** What the script finds in an alias file that holds a JSON document
    other than [null] and than what the script writes itself (an array, a
    number, an object with a value that is no string, ...).  The document
    is given by its text; each field stands for the expression of the
    script named with it, applied to [o = JSON.parse(text)]. *)
Record documents := {
  (* [o[key]], when truthy *)
  doc_get : string -> string -> res (option Js.value);
  (* [delete o[key]; JSON.stringify(o, null, 2)] *)
  doc_without : string -> string -> res fcontent;
  (* [o[key] = value; JSON.stringify(o, null, 2)] *)
  doc_with : string -> string -> string -> res fcontent;
  (* the loop over [Object.entries(o)] of [handleRemove], for a directory:
     [removedAliases] and [JSON.stringify(cleanedAliases, null, 2)] *)
  doc_cleaned : string -> string -> res (list string * fcontent);
  (* the [reduce] over [Object.entries(o)] of [handleList]: the alias
     names found under the name of a directory *)
  doc_grouped : string -> res (string -> list string)
}.

Record env := {
  platform : string;                  (* os.platform() *)
  arch : string;                      (* os.arch() *)
  homedir : path;                     (* os.homedir() *)
  tmpdir : path;                      (* os.tmpdir() *)
  cwd : path;                         (* process.cwd() *)
  now : N;                            (* Date.now() *)
  ZVM_INITIALIZED : option string;    (* process.env.ZVM_INITIALIZED *)
  fetch_reply : string -> string -> reply;  (* by method and URL *)
  rename_busy : nat -> option string; (* interference with the i-th rename attempt *)
  archive_held : option string;       (* interference with deleting the download *)
  shell_word : string -> bool;        (* the shell hands this word on as one argument *)
  inherited_text : string -> string;  (* String(Object.prototype[name]) *)
  documents_read : documents          (* alias files of another shape *)
}.

(** The text of a file or response body read as a string. *)
Definition text_of (c : fcontent) : string :=
  match c with
  | Text s => s
  | _ => EmptyString
  end.

Definition lift {A} (r : res A) : M A := fun st => (r, st).

(** ** The [tar] subprocess, through [runCommand]

    [runCommand] spawns with [shell: true], so that the command and its
    arguments reach [tar] as the shell splits and expands them.  Which
    words the shell hands on as one argument, as they are written, is the
    [shell_word] of the environment ([word] below); with a path that is no
    such word [tar] fails without writing, as it does when a blank splits
    the path; what else a shell can make of such a path is not modelled. *)

Module Tar.

Definition failed {A} (args : string) : res A :=
  Throw (Error ("Command failed: tar " +:+ args)).

(** [runCommand('tar', ['-tf', file])]: the captured standard output. *)
Definition list (word : string -> bool) (file : path) (f : fsys)
  : res string * fsys :=
  if negb (word (Path.show file)) then (failed ("-tf " +:+ Path.show file), f)
  else
  match f !! file with
  | Some (File (Tarball t)) => (Val (tar_listing t), f)
  | _ => (failed ("-tf " +:+ Path.show file), f)
  end.

(** [runCommand('tar', ['-xf', file, '--strip-components=1', '-C', dest])] *)
Definition extract (word : string -> bool) (file dest : path) (f : fsys)
  : res unit * fsys :=
  let args := "-xf " +:+ Path.show file +:+ " --strip-components=1 -C "
              +:+ Path.show dest in
  if negb (word (Path.show file) && word (Path.show dest))
  then (failed args, f)
  else
  match f !! file, f !! dest with
  | Some (File (Tarball t)), Some (Dir inside) =>
      match tar_damage t with
      | None => (Val tt, <[dest := Dir (tar_payload t ∪ inside)]> f)
      | Some part => (failed args, <[dest := Dir (part ∪ inside)]> f)
      end
  | _, _ => (failed args, f)
  end.

End Tar.

(** ** The script *)

Section Zvm.

Context (E : env).

(** *** Configuration *)

Definition ZIG_CANONICAL_URL : string := "https://ziglang.org".
Definition MIRRORS_URL : string :=
  "https://ziglang.org/download/community-mirrors.txt".
Definition ZVM_DIR : path := Path.join (homedir E) ".zvm".
Definition INSTALL_BASE_DIR : path := Path.join ZVM_DIR "versions".
Definition SHIMS_DIR : path := Path.join ZVM_DIR "shims".
Definition ACTIVE_VERSION_LINK : path := Path.join SHIMS_DIR "active".
Definition ALIASES_FILE : path := Path.join ZVM_DIR "aliases.json".

Definition dq : string := String (ascii_of_nat 34) EmptyString.
Definition nl : string := String (ascii_of_nat 10) EmptyString.
Definition esc (code : string) : string :=
  String (ascii_of_nat 27) ("[" +:+ code +:+ "m").
Definition reset := esc "0".
Definition green := esc "32".
Definition yellow := esc "33".
Definition cyan := esc "36".
Definition gray := esc "90".

Definition logInfo := log Info.
Definition logSuccess := log Success.
Definition logError := log Failure.
Definition logWarn := log Warn.

Definition initialized : bool :=
  match ZVM_INITIALIZED E with
  | Some v => String.eqb v "true"
  | None => false
  end.

(** *** getPlatformInfo *)

Definition platformMap (k : string) : option string :=
  if String.eqb k "linux" then Some "linux"
  else if String.eqb k "darwin" then Some "macos"
  else if String.eqb k "win32" then Some "windows"
  else None.

Definition archMap (k : string) : option string :=
  if String.eqb k "x64" then Some "x86_64"
  else if String.eqb k "arm64" then Some "aarch64"
  else None.

Definition getPlatformInfo : res (string * string) :=
  match platformMap (platform E), archMap (arch E) with
  | Some os_target, Some arch_target => Val (os_target, arch_target)
  | _, _ =>
      Throw (Error ("Unsupported platform/architecture: "
                    +:+ platform E +:+ "/" +:+ arch E))
  end.

(** *** getAliases *)

(** What [getAliases] returns: an object with its own properties, or
    [null]. *)
(** What [JSON.parse] returns for the alias file: an object of strings,
    [null], or the value of any other document, kept as its text. *)
Inductive store :=
| Obj (own : gmap string string)
| Null
| Document (text : string).

Definition syntaxError : exn := Error "SyntaxError: Unexpected token in JSON".

Definition JSON_parse (c : fcontent) : res store :=
  match c with
  | AliasJson m => Val (Obj m)
  | Text s =>
      if Json.valid s then Val (if Json.is_null s then Null else Document s)
      else Throw syntaxError
  | Tarball _ | Partial => Throw syntaxError
  end.

Definition getAliases : M store :=
  try_catch
    (let* content := sys (c_readFile ALIASES_FILE) (Fs.readFile ALIASES_FILE) in
     lift (JSON_parse content))
    (fun e => if has_code "ENOENT" e then ret (Obj ∅) (* No aliases file yet *)
              else throw e).

(** [aliases[key]] on an object: its own property, or else what it
    inherits from [Object.prototype] under that name. *)
Definition property (own : gmap string string) (key : string) : option Js.value :=
  match own !! key with
  | Some v => Some (Js.Str v)
  | None => if Js.arr_includes Js.inherited key then Some (Js.Inherited key) else None
  end.

(** [aliases[key]], as used in a condition or before [||]: the property
    when it is truthy. *)
Definition alias_of (own : gmap string string) (key : string) : option Js.value :=
  match property own key with
  | Some v => if Js.truthy_value v then Some v else None
  | None => None
  end.

Definition nullProperty (key : string) : exn :=
  Error ("TypeError: Cannot read properties of null (reading '" +:+ key +:+ "')").

Definition nullEntries : exn :=
  Error "TypeError: Cannot convert undefined or null to object".

(** The same on what [getAliases] returned. *)
Definition lookupAlias (aliases : store) (key : string) : res (option Js.value) :=
  match aliases with
  | Obj own => Val (alias_of own key)
  | Null => Throw (nullProperty key)
  | Document text => doc_get (documents_read E) text key
  end.

(** The text of a value in a template or as the argument of [includes]. *)
Definition textOf (v : Js.value) : string :=
  match v with
  | Js.Str s => s
  | Js.Inherited name => inherited_text E name
  | Js.Other text => text
  end.

(** *** resolveVersion *)

(** [matchingDirs.includes(targetVersion)]: an element is a string, and
    equal to a string only. *)
Definition listed (matchingDirs : list string) (targetVersion : Js.value) : bool :=
  match targetVersion with
  | Js.Str s => Js.arr_includes matchingDirs s
  | Js.Inherited _ | Js.Other _ => false
  end.

(** The choice among the listed directories (lines 102 to 106). *)
Definition pickDir (dirs : list string) (targetVersion : Js.value)
  : option string :=
  let matchingDirs :=
    List.filter (fun dir => Js.includes dir (textOf targetVersion)) dirs in
  if Nat.eqb (length matchingDirs) 1 then head matchingDirs
  else if listed matchingDirs targetVersion then Some (textOf targetVersion)
  else match head matchingDirs with
       | Some d => if Js.truthy d then Some d else None
       | None => None
       end.

Definition resolveVersion (versionOrAlias : string) : M (option string) :=
  if negb (Js.truthy versionOrAlias) then ret None else
  let* aliases := getAliases in
  let* found := lift (lookupAlias aliases versionOrAlias) in
  let targetVersion := default (Js.Str versionOrAlias) found in
  try_catch
    (let* dirs := sys (c_readdir INSTALL_BASE_DIR) (Fs.readdir INSTALL_BASE_DIR) in
     ret (pickDir dirs targetVersion))
    (fun e => if has_code "ENOENT" e then ret None else throw e).

(** *** handleDeactivate *)

Definition initHint : M unit :=
  if negb initialized then
    logWarn (nl +:+ "Run 'zvm init' and follow its instructions to apply this change to your shell.")
  else ret tt.

Definition handleDeactivate : M unit :=
  try_catch
    (sys (c_unlink ACTIVE_VERSION_LINK) (Fs.unlink ACTIVE_VERSION_LINK);;
     logSuccess "Deactivated Zig. No version is currently active.";;
     initHint)
    (fun e =>
       if has_code "ENOENT" e then logInfo "No version is currently active."
       else (logError ("Error during deactivation: " +:+ message e);; throw e)).

(** *** handleRemove *)

(** The entries kept, those bound to another directory.  The script
    collects them by assignment into a fresh object, which an entry named
    [__proto__] (only a file edited by hand can hold one) does not
    survive; the filter does not single that name out. *)
Definition cleanedAliases (aliases : gmap string string) (dirToRemove : string)
  : gmap string string :=
  filter (fun kv => kv.2 ≠ dirToRemove) aliases.

(** The names bound to a directory, in the order of [Object.entries]. *)
Definition removedAliases (aliases : gmap string string) (dirToRemove : string)
  : list string :=
  map fst (List.filter (fun kv => String.eqb kv.2 dirToRemove) (map_to_list aliases)).

(** The loop over [Object.entries(aliases)] (lines 225 to 231): the names
    removed, and the text of what is kept. *)
Definition entriesCleaned (aliases : store) (dirToRemove : string)
  : res (list string * fcontent) :=
  match aliases with
  | Obj own =>
      Val (removedAliases own dirToRemove, AliasJson (cleanedAliases own dirToRemove))
  | Null => Throw nullEntries
  | Document text => doc_cleaned (documents_read E) text dirToRemove
  end.

(** The clean-up of aliases pointing to the removed version (lines 221
    to 236). *)
Definition cleanAliases (dirToRemove : string) : M unit :=
  let* aliases := getAliases in
  let* cleaned := lift (entriesCleaned aliases dirToRemove) in
  let removed := cleaned.1 in
  if Nat.ltb 0 (length removed) then
    sys (c_writeFile ALIASES_FILE) (Fs.writeFile ALIASES_FILE (Val cleaned.2));;
    logInfo ("Removed associated aliases: " +:+ Js.join ", " removed)
  else ret tt.

Definition handleRemove (versionToRemove : option string) : M unit :=
  if negb (Js.truthy_opt versionToRemove) then
    logError "Please specify which version to remove."
  else
  let versionToRemove := default EmptyString versionToRemove in
  try_catch
    (let* dirToRemove := resolveVersion versionToRemove in
     if negb (Js.truthy_opt dirToRemove) then
       logError ("Version " +:+ dq +:+ versionToRemove +:+ dq +:+ " not found.")
     else
     let dirToRemove := default EmptyString dirToRemove in
     (* Check if the version to be removed is currently active. *)
     let* isActive :=
       try_catch
         (let* linkTarget := sys (c_readlink ACTIVE_VERSION_LINK)
                                 (Fs.readlink ACTIVE_VERSION_LINK) in
          ret (String.eqb (Path.basename linkTarget) dirToRemove))
         (fun _ => ret false) (* not active, ignore *) in
     (if isActive : bool then
        logInfo ("Version " +:+ dirToRemove
                 +:+ " is currently active. Deactivating it first...");;
        handleDeactivate
      else ret tt);;
     (* Remove the version directory *)
     let fullPath := Path.join INSTALL_BASE_DIR dirToRemove in
     logInfo ("Removing " +:+ Path.show fullPath +:+ "...");;
     sys (c_rm fullPath) (Fs.rm_rf fullPath);;
     logSuccess ("Successfully removed " +:+ dirToRemove +:+ ".");;
     cleanAliases dirToRemove)
    (fun e => if has_code "ENOENT" e then logError "No versions installed."
              else throw e).

(** *** getZigPackageInfo *)

(** [/\d+\.\d+\.\d+(-dev\.\d+\+[0-9a-f]+)?/] *)
Definition versionPattern : Regex.regex :=
  let digits := Regex.Plus Regex.Digit in
  let dot := Regex.One (Regex.Lit ".") in
  Regex.Seq digits (Regex.Seq dot (Regex.Seq digits (Regex.Seq dot
    (Regex.Seq digits
       (Regex.Opt
          (Regex.word "-dev."
             (Regex.Seq digits
                (Regex.Seq (Regex.One (Regex.Lit "+")) (Regex.Plus Regex.HexLower))))))))).

Record package := {
  canonicalUrl : string;
  potentialFilenames : list string
}.

(** The value of [zigVersionNorm] (lines 257 to 261); indexing the [null]
    of a failed match raises a [TypeError]. *)
Definition normalizeVersion (zigVersion : string) : res string :=
  let isDevBuild := Js.includes zigVersion "-dev" in
  if negb isDevBuild then
    match Regex.exec versionPattern zigVersion with
    | Some m => Val m
    | None => Throw (Error "TypeError: Cannot read properties of null (reading '0')")
    end
  else Val zigVersion.

Definition getZigPackageInfo (zigVersion : string) : res package :=
  match getPlatformInfo with
  | Throw e => Throw e
  | Val (os_target, arch_target) =>
      let isWindows := String.eqb os_target "windows" in
      let extension := if isWindows then "zip" else "tar.xz" in
      let isDevBuild := Js.includes zigVersion "-dev" in
      match normalizeVersion zigVersion with
      | Throw e => Throw e
      | Val zigVersionNorm =>
          let potentialFilenames :=
            [ "zig-" +:+ os_target +:+ "-" +:+ arch_target +:+ "-"
                +:+ zigVersionNorm +:+ "." +:+ extension;
              "zig-" +:+ arch_target +:+ "-" +:+ os_target +:+ "-"
                +:+ zigVersionNorm +:+ "." +:+ extension ] in
          let canonicalBase :=
            if isDevBuild then ZIG_CANONICAL_URL +:+ "/builds"
            else ZIG_CANONICAL_URL +:+ "/download/" +:+ zigVersion in
          Val {| canonicalUrl := canonicalBase;
                 potentialFilenames := potentialFilenames |}
      end
  end.

(** *** attemptDownload *)

Definition fetch (method url : string) : M (bool * res fcontent) :=
  sys (c_fetch method url)
      (fun f => match fetch_reply E method url with
                | Unreachable e => (Throw e, f)
                | Response ok body => (Val (ok, body), f)
                end).

Definition tempFile : path :=
  Path.join (tmpdir E) ("zig-download-" +:+ pretty (now E)).

(** One turn of the inner loop: [Some] is the value returned from inside
    the loop, [None] stands for going on to the next candidate. *)
Definition tryUrl (url : string) : M (option path) :=
  try_catch
    (let* headResponse := fetch "HEAD" url in
     if negb headResponse.1 then ret None else
     logInfo ("  Attempting download from: " +:+ url);;
     let* getResponse := fetch "GET" url in
     if negb getResponse.1 then ret None else
     sys (c_writeFile tempFile) (Fs.writeFile tempFile getResponse.2);;
     logSuccess ("Download successful from: " +:+ url);;
     ret (Some tempFile))
    (fun e =>
       logWarn ("Failed to process URL " +:+ url +:+ ". Error: "
                +:+ message e +:+ ". Trying next...");;
       ret None).

Fixpoint forFilenames (baseUrl : string) (filenames : list string)
  : M (option path) :=
  match filenames with
  | [] => ret None
  | filename :: rest =>
      let url := baseUrl +:+ "/" +:+ filename in
      let* returned := tryUrl url in
      match returned with
      | Some file => ret (Some file)
      | None => forFilenames baseUrl rest
      end
  end.

Fixpoint forBaseUrls (baseUrls filenames : list string) : M (option path) :=
  match baseUrls with
  | [] => ret None
  | baseUrl :: rest =>
      let* returned := forFilenames baseUrl filenames in
      match returned with
      | Some file => ret (Some file)
      | None => forBaseUrls rest filenames
      end
  end.

Definition exhausted : exn :=
  Error "Failed to download Zig from all available mirrors and the canonical source.".

Definition attemptDownload (baseUrls filenames : list string) : M path :=
  let* returned := forBaseUrls baseUrls filenames in
  match returned with
  | Some downloadedFile => ret downloadedFile
  | None => throw exhausted
  end.

(** *** renameWithRetry *)

Definition retries : nat := 5.
Definition delay : nat := 300.

Definition sleep (ms : nat) : M unit :=
  sys (c_sleep ms) (fun f => (Val tt, f)).

(** The loop [for (let i = 0; i < retries; i++)] from a given [i]; [fuel]
    bounds the number of turns still to come.  A turn yields [true] when
    it returns from the function. *)
Fixpoint renameFrom (fuel i : nat) (oldPath newPath : path) : M unit :=
  match fuel with
  | 0 => ret tt
  | S fuel' =>
      if Nat.ltb i retries then
        let* returned :=
          try_catch
            (sys (c_rename oldPath newPath)
                 (Fs.rename (rename_busy E i) oldPath newPath);;
             ret true) (* Success *)
            (fun e =>
               if has_code "EPERM" e && Nat.ltb i (retries - 1) then
                 logWarn ("Rename failed, retrying in " +:+ pretty delay
                          +:+ "ms... (" +:+ pretty (i + 1) +:+ "/"
                          +:+ pretty retries +:+ ")");;
                 sleep delay;;
                 ret false
               else throw e) in
        if returned : bool then ret tt else renameFrom fuel' (i + 1) oldPath newPath
      else ret tt
  end.

Definition renameWithRetry (oldPath newPath : path) : M unit :=
  renameFrom retries 0 oldPath newPath.

(** *** handleAlias *)

(** [aliases[key] = value] with a string for the value: the name
    [__proto__], unless it is an own property already, reaches the setter
    that the object inherits, which ignores a string. *)
Definition assign (own : gmap string string) (key value : string)
  : gmap string string :=
  if String.eqb key "__proto__" && negb (bool_decide (is_Some (own !! key)))
  then own
  else <[key := value]> own.

(** [aliases[key] = value] and the text written afterwards. *)
Definition assignAlias (aliases : store) (key value : string) : res fcontent :=
  match aliases with
  | Obj own => Val (AliasJson (assign own key value))
  | Null =>
      Throw (Error ("TypeError: Cannot set properties of null (setting '"
                    +:+ key +:+ "')"))
  | Document text => doc_with (documents_read E) text key value
  end.

(** [delete aliases[key]], which takes an own property away and nothing
    else, and the text written afterwards. *)
Definition deleteAlias (aliases : store) (key : string) : res fcontent :=
  match aliases with
  | Obj own => Val (AliasJson (delete key own))
  | Null => Throw (nullProperty key)
  | Document text => doc_without (documents_read E) text key
  end.

Definition handleAlias (alias version : option string) : M unit :=
  if negb (Js.truthy_opt alias) then
    logError "Usage: zvm alias <name> <version> OR zvm alias --unset <name>"
  else
  let alias := default EmptyString alias in
  let* aliases := getAliases in
  if bool_decide (version = Some "--unset") then
    let* found := lift (lookupAlias aliases alias) in
    match found with
    | Some _ =>
        let* json := lift (deleteAlias aliases alias) in
        sys (c_writeFile ALIASES_FILE) (Fs.writeFile ALIASES_FILE (Val json));;
        logSuccess ("Unset alias " +:+ dq +:+ alias +:+ dq +:+ ".")
    | None => logError ("Alias " +:+ dq +:+ alias +:+ dq +:+ " not found.")
    end
  else
  if negb (Js.truthy_opt version) then
    logError "Please specify a version for the alias."
  else
  let version := default EmptyString version in
  let* dirToAlias := resolveVersion version in
  if negb (Js.truthy_opt dirToAlias) then
    logError ("Version " +:+ dq +:+ version +:+ dq +:+ " not found.")
  else
  let dirToAlias := default EmptyString dirToAlias in
  let* json := lift (assignAlias aliases alias dirToAlias) in
  sys (c_writeFile ALIASES_FILE) (Fs.writeFile ALIASES_FILE (Val json));;
  logSuccess (dq +:+ alias +:+ dq +:+ " is now an alias for " +:+ dirToAlias +:+ ".").

(** *** handleInstall *)

(** [tarOutput.split('\n')[0].trim().replace(/\/$/, "")] *)
Definition unpackedDirName (tarOutput : string) : string :=
  Js.dropTrailingSlash
    (Js.trim (default EmptyString (head (Js.split (ascii_of_nat 10) tarOutput)))).

(** [path.join(INSTALL_BASE_DIR, unpackedDirName)]: the segments of the
    path, and whether it is written with a slash at its end. *)
Definition finalInstallPath (tarOutput : string) : path :=
  (Path.joinName INSTALL_BASE_DIR (unpackedDirName tarOutput)).1.

Definition finalEndsInSlash (tarOutput : string) : bool :=
  (Path.joinName INSTALL_BASE_DIR (unpackedDirName tarOutput)).2.

Definition finalInstallText (tarOutput : string) : string :=
  Path.showSlash (Path.joinName INSTALL_BASE_DIR (unpackedDirName tarOutput)).

(** [`${finalInstallPath}.tmp`]: after a slash the suffix is a segment of
    its own, below the final path. *)
Definition tempInstallPath (tarOutput : string) : path :=
  if finalEndsInSlash tarOutput then finalInstallPath tarOutput ++ [".tmp"]
  else Path.suffixed (finalInstallPath tarOutput) ".tmp".

(** Step 3 of the handler (lines 374 to 394): [Some] holds the name of the
    directory installed, [None] is the early return of the handler. *)
Definition installArchive (downloadedFile : path) : M (option string) :=
  logInfo "[4/4] Installing...";;
  let* tarOutput := sys (c_tar_tf downloadedFile) (Tar.list (shell_word E) downloadedFile) in
  let finalInstallPath := finalInstallPath tarOutput in
  let tempInstallPath := tempInstallPath tarOutput in
  (* Check if it's already installed. *)
  let* returned :=
    try_catch
      (sys (c_access finalInstallPath)
           (if finalEndsInSlash tarOutput then Fs.accessDir finalInstallPath
            else Fs.access finalInstallPath);;
       logError ("Zig version already installed at " +:+ finalInstallText tarOutput);;
       sys (c_unlink downloadedFile) (Fs.unlinkHeld (archive_held E) downloadedFile);;
       ret true)
      (fun _ => ret false) (* Expected *) in
  if returned : bool then ret None else
  sys (c_mkdir tempInstallPath) (Fs.mkdir_p tempInstallPath);;
  sys (c_tar_xf downloadedFile tempInstallPath)
      (Tar.extract (shell_word E) downloadedFile tempInstallPath);;
  (* Use the new rename function with retries *)
  renameWithRetry tempInstallPath finalInstallPath;;
  sys (c_unlink downloadedFile) (Fs.unlinkHeld (archive_held E) downloadedFile);;
  ret (Some (unpackedDirName tarOutput)).

(** The base URLs handed to the downloader (lines 358 to 370). *)
Definition fetchMirrors : M (list string) :=
  try_catch
    (let* response := fetch "GET" MIRRORS_URL in
     if response.1 then
       let* text := lift (match response.2 with
                          | Val c => Val (text_of c)
                          | Throw e => Throw e
                          end) in
       let mirrors := List.filter (fun url => Js.startsWith url "https://")
                                  (Js.split (ascii_of_nat 10) text) in
       logInfo ("  Found " +:+ pretty (length mirrors) +:+ " community mirrors.");;
       ret mirrors
     else ret [])
    (fun _ =>
       logWarn "Could not fetch community mirrors. Will use the official URL as a fallback.";;
       ret []).

(** The check that the requested alias is free (lines 342 to 348). *)
Definition aliasTaken (alias : option string) : M bool :=
  if Js.truthy_opt alias then
    let* aliases := getAliases in
    let* found := lift (lookupAlias aliases (default EmptyString alias)) in
    match found with
    | Some dir =>
        logError ("Alias " +:+ dq +:+ default EmptyString alias +:+ dq
                  +:+ " is already in use for " +:+ textOf dir
                  +:+ ". Please choose another name or unset it first.");;
        ret true
    | None => ret false
    end
  else ret false.

Definition handleInstall (zigVersion alias : option string) : M unit :=
  if negb (Js.truthy_opt zigVersion) then
    logError "Please specify which version to install."
  else
  let zigVersion := default EmptyString zigVersion in
  let* taken := aliasTaken alias in
  if taken : bool then ret tt else
  logInfo ("[1/4] Target Zig version: " +:+ zigVersion);;
  (* 1. Determine package info by constructing URLs *)
  let* info := lift (getZigPackageInfo zigVersion) in
  logInfo ("[2/4] Determined potential packages: "
           +:+ Js.join ", " (potentialFilenames info));;
  (* 2. Fetch mirrors and attempt download *)
  logInfo "[3/4] Fetching mirrors and downloading Zig archive...";;
  let* mirrors := fetchMirrors in
  (* Priortize download from mirrors first *)
  let downloadBaseUrls := mirrors ++ [canonicalUrl info] in
  let* downloadedFile := attemptDownload downloadBaseUrls (potentialFilenames info) in
  (* 3. Extract the archive atomically *)
  let* installed := installArchive downloadedFile in
  match installed with
  | None => ret tt
  | Some unpackedDirName =>
      (if Js.truthy_opt alias then handleAlias alias (Some unpackedDirName)
       else ret tt);;
      logSuccess ("Zig version " +:+ zigVersion +:+ " is installed at: "
                  +:+ Path.showSlash (Path.joinName INSTALL_BASE_DIR unpackedDirName));;
      log Plain (nl +:+ "To use it, run:");;
      log Plain ("  zvm use " +:+ (if Js.truthy_opt alias then default EmptyString alias
                                     else zigVersion))
  end.

(** *** findLocalVersionFile *)

Fixpoint findFrom (fuel : nat) (currentDir : path) : M (option string) :=
  match fuel with
  | 0 => ret None
  | S fuel' =>
      let filePath := Path.join currentDir ".zig-version" in
      let* found :=
        try_catch
          (let* content := sys (c_readFile filePath) (Fs.readFile filePath) in
           ret (Some (Js.trim (text_of content))))
          (fun e => if negb (has_code "ENOENT" e) then throw e else ret None) in
      match found with
      | Some content => ret (Some content)
      | None =>
          let parentDir := Path.dirname currentDir in
          if decide (parentDir = currentDir) then ret None (* Reached root *)
          else findFrom fuel' parentDir
      end
  end.

Definition findLocalVersionFile : M (option string) :=
  findFrom (S (length (cwd E))) (cwd E).

(** *** handleUse *)

(** The switch of the link itself (lines 467 to 478). *)
Definition activate (dirToActivate : string) : M unit :=
  let sourceDir := Path.join INSTALL_BASE_DIR dirToActivate in
  try_catch
    (sys (c_unlink ACTIVE_VERSION_LINK) (Fs.unlink ACTIVE_VERSION_LINK))
    (fun e => if negb (has_code "ENOENT" e) then throw e else ret tt);;
  logInfo ("Activating " +:+ dirToActivate +:+ "...");;
  let linkType := if String.eqb (platform E) "win32" then "junction" else "dir" in
  sys (c_symlink sourceDir ACTIVE_VERSION_LINK linkType)
      (Fs.symlink sourceDir ACTIVE_VERSION_LINK);;
  logSuccess ("Now using " +:+ dirToActivate +:+ ".");;
  initHint.

Definition handleUse (versionToUse : option string) : M unit :=
  let* target :=
    if negb (Js.truthy_opt versionToUse) then
      let* found := findLocalVersionFile in
      if negb (Js.truthy_opt found) then
        logError "No version specified and no .zig-version file found in the current directory or parents.";;
        ret None
      else
        logInfo ("Found .zig-version file, attempting to use: "
                 +:+ default EmptyString found);;
        ret found
    else ret versionToUse in
  match target with
  | None => ret tt
  | Some target =>
      let* dirToActivate := resolveVersion target in
      if negb (Js.truthy_opt dirToActivate) then
        logError ("Version " +:+ dq +:+ target +:+ dq +:+ " is not installed.");;
        logInfo ("To install it, run: zvm install " +:+ target)
      else activate (default EmptyString dirToActivate)
  end.

(** *** handleList *)

Fixpoint forEach {A} (arr : list A) (body : A -> M unit) : M unit :=
  match arr with
  | [] => ret tt
  | x :: rest => body x;; forEach rest body
  end.

(** The line printed for one installed directory (lines 169 to 172), from
    the alias names found for it. *)
Definition lineOf (activeVersionDir : option string) (names : list string)
  (dir : string) : string :=
  let isActive := bool_decide (Some dir = activeVersionDir) in
  let aliasText :=
    match names with
    | [] => EmptyString
    | _ => gray +:+ " (alias: " +:+ Js.join ", " names +:+ ")"
    end in
  let prefix := if isActive then green +:+ "-> " else "   " in
  prefix +:+ cyan +:+ dir +:+ reset +:+ aliasText.

Definition listLine (activeVersionDir : option string)
  (aliases : gmap string string) (dir : string) : string :=
  lineOf activeVersionDir (removedAliases aliases dir) dir.

(** The [reduce] of lines 158 to 161 groups the alias names by their
    target in a fresh object [acc]; for a target that is a name which
    [acc] inherits, [acc[versionDir]] is truthy and cannot be spread. *)
Definition reverseAliases (own : gmap string string) : res (string -> list string) :=
  if existsb (fun kv => Js.arr_includes Js.inherited kv.2) (map_to_list own)
  then Throw (Error "TypeError: acc[versionDir] is not iterable")
  else Val (removedAliases own).

Definition entriesGrouped (aliases : store) : res (string -> list string) :=
  match aliases with
  | Obj own => reverseAliases own
  | Null => Throw nullEntries
  | Document text => doc_grouped (documents_read E) text
  end.

Definition handleList : M unit :=
  logInfo ("Installed Zig versions in " +:+ Path.show INSTALL_BASE_DIR +:+ ":");;
  try_catch
    (let* activeVersionDir :=
       try_catch
         (let* linkTarget := sys (c_readlink ACTIVE_VERSION_LINK)
                                 (Fs.readlink ACTIVE_VERSION_LINK) in
          ret (Some (Path.basename linkTarget)))
         (fun _ => ret None) (* no active version *) in
     let* aliases := getAliases in
     let* dirToAliasesMap := lift (entriesGrouped aliases) in
     let* dirs := sys (c_readdir INSTALL_BASE_DIR) (Fs.readdir INSTALL_BASE_DIR) in
     let zigDirs := List.filter (fun dir => Js.startsWith dir "zig-") dirs in
     if Nat.eqb (length zigDirs) 0 then log Plain "  (No versions installed yet)"
     else forEach zigDirs
            (fun dir => log Plain (lineOf activeVersionDir (dirToAliasesMap dir) dir)))
    (fun e => if has_code "ENOENT" e then log Plain "  (No versions installed yet)"
              else throw e).

End Zvm.

(** ** The remaining handlers and the command router *)

(** [s.substring(start)] *)
Definition substringFrom (start : nat) (s : string) : string :=
  String.substring start (String.length s - start) s.

(** [a || b] on values that are a string or [undefined]. *)
Definition orElse (a b : option string) : option string :=
  if Js.truthy_opt a then a else b.

(** The loop over the arguments after the command (lines 586 to 593): an
    argument that starts with two dashes names a flag and takes the
    argument after it, which is [undefined] at the end, for its value. *)
Fixpoint parseArgs (args : list string) (flags : gmap string (option string))
  (positionalArgs : list string) : gmap string (option string) * list string :=
  match args with
  | [] => (flags, positionalArgs)
  | arg :: rest =>
      if Js.startsWith arg "--" then
        match rest with
        | [] => (<[substringFrom 2 arg := None]> flags, positionalArgs)
        | value :: rest' =>
            parseArgs rest' (<[substringFrom 2 arg := Some value]> flags) positionalArgs
        end
      else parseArgs rest flags (positionalArgs ++ [arg])
  end.

(** [flags.name] *)
Definition flag (flags : gmap string (option string)) (name : string) : option string :=
  match flags !! name with
  | Some value => value
  | None => None
  end.

Section Commands.

Context (E : env).

(** What [runCommand] resolves or rejects with for the Zig executable at a
    path, run with the argument [version]: its standard output, or the
    error. *)
Context (zig_version : path -> res string).

(** [handleListRemote] prints the release index of ziglang.org; the router
    is modelled for any behaviour of it. *)
Context (handleListRemote : M unit).

(** *** handleCurrent *)

Definition handleCurrent : M unit :=
  try_catch
    (let* linkTarget := sys (c_readlink (ACTIVE_VERSION_LINK E))
                            (Fs.readlink (ACTIVE_VERSION_LINK E)) in
     let activeVersionDir := Path.basename linkTarget in
     let zigExePath := Path.join linkTarget "zig" in
     let* stdout := lift (zig_version zigExePath) in
     log Plain (green +:+ "Active version:" +:+ reset +:+ " " +:+ Js.trim stdout
                +:+ " (" +:+ activeVersionDir +:+ ")");;
     log Plain (gray +:+ "Path: " +:+ Path.show linkTarget +:+ reset))
    (fun e =>
       if has_code "ENOENT" e then logInfo "No version is currently active."
       else logError ("Could not determine current version: " +:+ message e)).

(** *** handleInit *)

Definition psScriptContent : string :=
  nl +:+ "# zvm shell setup" +:+ nl
  +:+ "$env:ZVM_DIR = " +:+ dq +:+ Path.show (ZVM_DIR E) +:+ dq +:+ nl
  +:+ "$env:PATH = " +:+ dq +:+ Path.show (Path.join (SHIMS_DIR E) "active") +:+ ";"
  +:+ dq +:+ " + $env:PATH" +:+ nl
  +:+ "$env:ZVM_INITIALIZED = " +:+ dq +:+ "true" +:+ dq +:+ nl.

Definition shScriptContent : string :=
  "#!/bin/sh" +:+ nl
  +:+ "# zvm shell setup" +:+ nl
  +:+ "export ZVM_DIR=" +:+ dq +:+ Path.show (ZVM_DIR E) +:+ dq +:+ nl
  +:+ "# The 'active' symlink points to the current version directory" +:+ nl
  +:+ "export PATH=" +:+ dq +:+ Path.show (Path.join (SHIMS_DIR E) "active") +:+ ":$PATH"
  +:+ dq +:+ nl
  +:+ "export ZVM_INITIALIZED=" +:+ dq +:+ "true" +:+ dq +:+ nl.

Definition handleInit : M unit :=
  logInfo "Configuring your shell for zvm...";;
  sys (c_mkdir (SHIMS_DIR E)) (Fs.mkdir_p (SHIMS_DIR E));;
  if String.eqb (platform E) "win32" then
    sys (c_writeFile (Path.join (ZVM_DIR E) "zvm.ps1"))
        (Fs.writeFile (Path.join (ZVM_DIR E) "zvm.ps1") (Val (Text psScriptContent)));;
    log Plain (nl +:+ "--- PowerShell Setup ---");;
    log Plain "1. Add the following line to your PowerShell profile (usually at $PROFILE):";;
    log Plain ("   . " +:+ dq +:+ Path.show (Path.join (ZVM_DIR E) "zvm.ps1") +:+ dq);;
    log Plain "2. Restart your shell."
  else (* Linux and macOS *)
    sys (c_writeFile (Path.join (ZVM_DIR E) "zvm.sh"))
        (Fs.writeFile (Path.join (ZVM_DIR E) "zvm.sh") (Val (Text shScriptContent)));;
    log Plain (nl +:+ "--- Setup for bash/zsh/etc. ---");;
    log Plain "1. Add the following line to your shell's startup file (e.g., ~/.bashrc, ~/.zshrc):";;
    log Plain ("   source " +:+ dq +:+ Path.show (Path.join (ZVM_DIR E) "zvm.sh") +:+ dq);;
    log Plain (nl +:+ "2. Restart your shell or run the command above in your current session to apply changes.").

(** *** main *)

Definition usageText : string :=
  nl +:+ yellow +:+ "Zig Version Manager (zvm)" +:+ reset
  +:+ nl +:+ "Usage: zvm <command> [arguments]"
  +:+ nl
  +:+ nl +:+ cyan +:+ "Setup:" +:+ reset
  +:+ nl +:+ "  init                           Display setup instructions for your shell."
  +:+ nl
  +:+ nl +:+ cyan +:+ "Commands:" +:+ reset
  +:+ nl +:+ "  install, i <v> [--alias <n>]   Install a specific version, optionally with an alias."
  +:+ nl +:+ "  uninstall, rm <v|a>            Remove a specific installed version."
  +:+ nl +:+ "  use, activate [v|a]            Set a version as active. If no version is given,"
  +:+ nl +:+ "                                 looks for a .zig-version file."
  +:+ nl +:+ "  deactivate, unuse              Deactivate the current version."
  +:+ nl +:+ "  current                        Display the currently active version."
  +:+ nl +:+ "  alias <name> <v|a>             Create an alias for a version."
  +:+ nl +:+ "  alias --unset <name>           Remove an alias."
  +:+ nl +:+ "  list, ls                       List all installed versions."
  +:+ nl +:+ "  list-remote, ls-remote         List all available versions for download.".

Definition usage : M unit := log Plain usageText.

(** [argv] is [process.argv.slice(2)]. *)
Definition main (argv : list string) : M unit :=
  let command := head argv in
  let '(flags, positionalArgs) := parseArgs (tail argv) ∅ [] in
  sys (c_mkdir (INSTALL_BASE_DIR E)) (Fs.mkdir_p (INSTALL_BASE_DIR E));;
  match command with
  | None => usage
  | Some command =>
      if String.eqb command "install" || String.eqb command "i" then
        handleInstall E (positionalArgs !! 0%nat) (flag flags "alias")
      else if String.eqb command "uninstall" || String.eqb command "remove"
              || String.eqb command "rm" then
        handleRemove E (positionalArgs !! 0%nat)
      else if String.eqb command "use" || String.eqb command "activate" then
        handleUse E (positionalArgs !! 0%nat)
      else if String.eqb command "deactivate" || String.eqb command "unuse" then
        handleDeactivate E
      else if String.eqb command "current" then
        handleCurrent
      else if String.eqb command "alias" then
        handleAlias E (orElse (flag flags "unset") (positionalArgs !! 0%nat))
                      (orElse (positionalArgs !! 1%nat)
                              (if Js.truthy_opt (flag flags "unset") then Some "--unset"
                               else None))
      else if String.eqb command "init" then
        handleInit
      else if String.eqb command "list" || String.eqb command "ls" then
        handleList E
      else if String.eqb command "list-remote" || String.eqb command "ls-remote" then
        handleListRemote
      else usage
  end.

(** The last statement of the script: the exit code of the process. *)
Definition script (argv : list string) : M nat :=
  try_catch
    (main argv;; ret 0)
    (fun err => logError ("An error occurred: " +:+ message err);; ret 1).

End Commands.

(** * Specification vocabulary and sample worlds *)

(** ** Resolution *)

(** The text that V8 prints for what [Object.prototype] holds under a
    name. *)
Definition v8_text (name : string) : string :=
  if String.eqb name "__proto__" then "[object Object]"
  else if String.eqb name "constructor" then "function Object() { [native code] }"
  else "function " +:+ name +:+ "() { [native code] }".

(** The sample worlds hold no alias file of another shape; what would be
    found in one is left empty. *)
Definition unread : documents := {|
  doc_get := fun _ _ => Val None;
  doc_without := fun text _ => Val (Text text);
  doc_with := fun text _ _ => Val (Text text);
  doc_cleaned := fun text _ => Val ([], Text text);
  doc_grouped := fun _ => Val (fun _ => [])
|}.

(** A Linux machine with no network and no interference. *)
Definition offline : env := {|
  platform := "linux";
  arch := "x64";
  homedir := ["home"; "dev"];
  tmpdir := ["tmp"];
  cwd := ["home"; "dev"; "project"];
  now := 1700000000000%N;
  ZVM_INITIALIZED := Some "true";
  fetch_reply := fun _ _ => Unreachable (Error "fetch failed");
  rename_busy := fun _ => None;
  archive_held := None;
  shell_word := Js.shell_safe;
  inherited_text := v8_text;
  documents_read := unread
|}.

(** The state directory right after [main] has created the root. *)
Definition fresh : fsys :=
  {[ ["home"; "dev"; ".zvm"] := Dir ∅;
     ["home"; "dev"; ".zvm"; "versions"] := Dir ∅ ]}.

(** Two installed versions, and an alias named like the first of them
    that points at the second. *)
Definition shadowed : fsys :=
  <[ ["home"; "dev"; ".zvm"; "versions"; "zig-linux-x86_64-0.13.0"] := Dir ∅ ]>
  (<[ ["home"; "dev"; ".zvm"; "versions"; "zig-linux-x86_64-0.14.1"] := Dir ∅ ]>
  (<[ ["home"; "dev"; ".zvm"; "aliases.json"] :=
        File (AliasJson {[ "zig-linux-x86_64-0.13.0" := "zig-linux-x86_64-0.14.1" ]}) ]>
   fresh)).

(** Two installed versions, one name a part of the other, no alias. *)
Definition nested_names : fsys :=
  <[ ["home"; "dev"; ".zvm"; "versions"; "zig-0.14"] := Dir ∅ ]>
  (<[ ["home"; "dev"; ".zvm"; "versions"; "zig-0.14.1"] := Dir ∅ ]> fresh).

(** An empty installation root next to an alias file that is not JSON. *)
Definition garbled : fsys :=
  <[ ["home"; "dev"; ".zvm"; "aliases.json"] := File (Text "{ stable: ") ]> fresh.

(** An empty installation root next to an alias file that holds [null]. *)
Definition nulled : fsys :=
  <[ ["home"; "dev"; ".zvm"; "aliases.json"] := File (Text "null") ]> fresh.


(** ** Listing *)


(** What [handleList] takes for the active directory. *)
Definition activeDir (E : env) (f : fsys) : option string :=
  match (Fs.readlink (ACTIVE_VERSION_LINK E) f).1 with
  | Val linkTarget => Some (Path.basename linkTarget)
  | Throw _ => None
  end.

Definition listHeader (E : env) : string :=
  "Installed Zig versions in " +:+ Path.show (INSTALL_BASE_DIR E) +:+ ":".

(** ** Rename with retry *)

(** The warning logged after the failed attempt number [i] (from 0). *)
Definition retryWarning (i : nat) : string :=
  "Rename failed, retrying in " +:+ pretty delay +:+ "ms... (" +:+ pretty (i + 1)
  +:+ "/" +:+ pretty retries +:+ ")".

(** What the trace shows for [n] attempts in a row, from attempt [i] on,
    that each failed and were retried. *)
Fixpoint retried (oldPath newPath : path) (i n : nat) : list event :=
  match n with
  | 0 => []
  | S n' =>
      [Call (c_rename oldPath newPath) (Some (SystemError "EPERM"));
       Log Warn (retryWarning i);
       Call (c_sleep delay) None] ++ retried oldPath newPath (S i) n'
  end.

Definition is_rename (e : event) : bool :=
  match e with Call (c_rename _ _) _ => true | _ => false end.
Definition is_warning (e : event) : bool :=
  match e with Log Warn _ => true | _ => false end.
Definition sleep_of (e : event) : option nat :=
  match e with Call (c_sleep ms) _ => Some ms | _ => None end.

(** A failure with the code that the retry loop waits out. *)
Definition permissionFailure (r : res unit) : bool :=
  match r with
  | Throw e => has_code "EPERM" e
  | Val _ => false
  end.

(** A scanner holds the staging directory during the first four attempts. *)
Definition scanned : env := {|
  platform := "win32";
  arch := "x64";
  homedir := ["Users"; "dev"];
  tmpdir := ["Temp"];
  cwd := ["Users"; "dev"];
  now := 1700000000000%N;
  ZVM_INITIALIZED := None;
  fetch_reply := fun _ _ => Unreachable (Error "fetch failed");
  rename_busy := fun i => if Nat.ltb i 4 then Some "EPERM" else None;
  archive_held := None;
  shell_word := Js.shell_safe;
  inherited_text := v8_text;
  documents_read := unread
|}.

Definition staged : fsys :=
  {[ ["Users"; "dev"; ".zvm"] := Dir ∅;
     ["Users"; "dev"; ".zvm"; "versions"] := Dir ∅;
     ["Users"; "dev"; ".zvm"; "versions"; "zig-windows-x86_64-0.14.1.tmp"]
       := Dir {[ "zig.exe" := "MZ" ]} ]}.

(** ** Download *)

(** The URLs of all (base URL, filename) pairs, in the nested order. *)
Definition candidates (baseUrls filenames : list string) : list string :=
  flat_map (fun baseUrl => map (fun filename => baseUrl +:+ "/" +:+ filename) filenames)
           baseUrls.

(** The temporary file can be written: it is not a directory, and it exists
    already or its directory does. *)
Definition writable (E : env) (f : fsys) : bool :=
  match f !! tempFile E with
  | Some (Dir _) => false
  | Some _ => true
  | None => Fs.parent_ok f (tempFile E)
  end.

(** Probe and retrieval both succeed at [url]: the content retrieved. *)
Definition served (E : env) (canWrite : bool) (url : string) : option fcontent :=
  match fetch_reply E "HEAD" url, fetch_reply E "GET" url with
  | Response true _, Response true (Val c) => if canWrite then Some c else None
  | _, _ => None
  end.

(** The URLs probed by the existence check, in the order of the trace. *)
Definition probe_of (e : event) : option string :=
  match e with
  | Call (c_fetch method url) _ => if String.eqb method "HEAD" then Some url else None
  | _ => None
  end.

Definition probes (evs : list event) : list string := omap probe_of evs.

(** The candidates visited up to the first hit, and that hit. *)
Fixpoint scan {A} (hit : string -> option A) (urls : list string)
  : list string * option A :=
  match urls with
  | [] => ([], None)
  | u :: rest =>
      match hit u with
      | Some a => ([u], Some a)
      | None => let '(visited, found) := scan hit rest in (u :: visited, found)
      end
  end.

(** The state reached by a loop over candidates, in terms of [scan]. *)
Definition scanned_to (E : env) (urls : list string) (st st' : state)
  (returned : option path) : Prop :=
  let result := scan (served E (writable E (fs st))) urls in
  returned = (match result.2 with Some _ => Some (tempFile E) | None => None end) /\
  probes (events st') = probes (events st) ++ result.1 /\
  match result.2 with
  | Some c => fs st' !! tempFile E = Some (File c)
  | None => writable E (fs st') = writable E (fs st)
  end.

(** Two mirrors; only the second one has the second file name. *)
Definition mirrored : env := {|
  platform := "linux";
  arch := "x64";
  homedir := ["home"; "dev"];
  tmpdir := ["tmp"];
  cwd := ["home"; "dev"];
  now := 1700000000000%N;
  ZVM_INITIALIZED := Some "true";
  fetch_reply := fun _ url =>
    if String.eqb url "https://m2.example/zig-x86_64-linux-0.14.1.tar.xz"
    then Response true (Val (Text "payload"))
    else Response false (Val (Text "Not Found"));
  rename_busy := fun _ => None;
  archive_held := None;
  shell_word := Js.shell_safe;
  inherited_text := v8_text;
  documents_read := unread
|}.

Definition with_tmp : fsys := {[ ["tmp"] := Dir ∅ ]}.

(** ** Install *)


(** The successful commit, as it shows in the trace. *)
Definition commit (E : env) (tarOutput : string) : event :=
  Call (c_rename (tempInstallPath E tarOutput) (finalInstallPath E tarOutput)) None.

(** A state of the file system passed through before the commit. *)
Definition uncommitted (E : env) (tarOutput : string) (entry : event * fsys) : Prop :=
  entry.2 !! finalInstallPath E tarOutput = None /\ entry.1 <> commit E tarOutput.

(** A state in which the final path holds everything the archive unpacks. *)
Definition installed (E : env) (t : tarball) (entry : event * fsys) : Prop :=
  exists inside,
    entry.2 !! finalInstallPath E (tar_listing t) = Some (Dir inside) /\
    tar_payload t ⊆ inside.

(** A release archive for Windows. *)
Definition zig_0_14_1 : tarball := {|
  tar_listing := "zig-windows-x86_64-0.14.1/" +:+ nl
                 +:+ "zig-windows-x86_64-0.14.1/zig.exe" +:+ nl;
  tar_payload := {[ "zig.exe" := "MZ" ]};
  tar_damage := None
|}.

(** The archive has just been downloaded. *)
Definition downloaded : fsys :=
  {[ ["Users"; "dev"; ".zvm"] := Dir ∅;
     ["Users"; "dev"; ".zvm"; "versions"] := Dir ∅;
     ["Temp"] := Dir ∅;
     ["Temp"; "zig-download-1700000000000"] := File (Tarball zig_0_14_1) ]}.


(** Another process holds the downloaded archive, which cannot be
    deleted; nothing holds the staging directory. *)
Definition held : env := {|
  platform := "win32";
  arch := "x64";
  homedir := ["Users"; "dev"];
  tmpdir := ["Temp"];
  cwd := ["Users"; "dev"];
  now := 1700000000000%N;
  ZVM_INITIALIZED := None;
  fetch_reply := fun _ _ => Unreachable (Error "fetch failed");
  rename_busy := fun _ => None;
  archive_held := Some "EBUSY";
  shell_word := Js.shell_safe;
  inherited_text := v8_text;
  documents_read := unread
|}.

(** An archive that lists its directory with two slashes at the end. *)
Definition slashed : tarball := {|
  tar_listing := "zig-windows-x86_64-0.14.1//" +:+ nl
                 +:+ "zig-windows-x86_64-0.14.1//zig.exe" +:+ nl;
  tar_payload := {[ "zig.exe" := "MZ" ]};
  tar_damage := None
|}.

Definition downloaded_slashed : fsys :=
  <[ ["Temp"; "zig-download-1700000000000"] := File (Tarball slashed) ]> downloaded.

(** ** Activation and removal *)

(** What [initHint] logs. *)
Definition hint (E : env) : list event :=
  if initialized E then []
  else [Log Warn (nl +:+ "Run 'zvm init' and follow its instructions to apply this change to your shell.")].

(** A version is installed, but [zvm init] has never been run. *)
Definition never_initialised : fsys :=
  <[ ["home"; "dev"; ".zvm"; "versions"; "zig-linux-x86_64-0.14.1"]
       := Dir {[ "zig" := "ELF" ]} ]> fresh.

(** The same after [zvm init]. *)
Definition initialised : fsys :=
  <[ ["home"; "dev"; ".zvm"; "shims"] := Dir ∅ ]> never_initialised.

(** The read of the alias file, as it shows in the trace. *)
Definition aliasRead (E : env) (f : fsys) : event :=
  Call (c_readFile (ALIASES_FILE E)) (failure (Fs.readFile (ALIASES_FILE E) f).1).


(** Version 0.14.1 is active and known as [stable]; 0.13.0 is known as [old]. *)
Definition active_and_aliased : fsys :=
  <[ ["home"; "dev"; ".zvm"; "shims"; "active"]
       := Link ["home"; "dev"; ".zvm"; "versions"; "zig-linux-x86_64-0.14.1"] ]>
  (<[ ["home"; "dev"; ".zvm"; "aliases.json"]
        := File (AliasJson {[ "stable" := "zig-linux-x86_64-0.14.1";
                              "old" := "zig-linux-x86_64-0.13.0" ]}) ]>
  (<[ ["home"; "dev"; ".zvm"; "versions"; "zig-linux-x86_64-0.13.0"]
        := Dir {[ "zig" := "ELF" ]} ]> initialised)).

(** ** Version numbers *)

(** Only decimal digits. *)
Fixpoint only_digits (s : string) : bool :=
  match s with
  | EmptyString => true
  | String c s' => Regex.is_digit c && only_digits s'
  end.

(** A non-empty string of decimal digits. *)
Definition all_digits (s : string) : bool := Js.truthy s && only_digits s.

(** A non-empty string of the characters [0-9a-f]. *)
Fixpoint only_hex (s : string) : bool :=
  match s with
  | EmptyString => true
  | String c s' => Regex.test Regex.HexLower c && only_hex s'
  end.

Definition all_hex (s : string) : bool := Js.truthy s && only_hex s.

(** MAJOR.MINOR.PATCH *)
Definition is_release (m : string) : Prop :=
  exists a b c,
    all_digits a = true /\ all_digits b = true /\ all_digits c = true /\
    m = a +:+ "." +:+ b +:+ "." +:+ c.

(** MAJOR.MINOR.PATCH with the optional suffix [-dev.N+hash]. *)
Definition is_version (m : string) : Prop :=
  is_release m \/
  exists r n h,
    is_release r /\ all_digits n = true /\ all_hex h = true /\
    m = r +:+ "-dev." +:+ n +:+ "+" +:+ h.

(** The longest run of digits at the head of a string, and what follows. *)
Fixpoint digit_run (s : string) : string * string :=
  match s with
  | String c s' =>
      if Regex.is_digit c then let '(a, r) := digit_run s' in (String c a, r)
      else (EmptyString, s)
  | EmptyString => (EmptyString, EmptyString)
  end.

(** The release number at the head of a string, runs of digits taken as
    long as possible, and what follows it. *)
Definition release_at (s : string) : option (string * string) :=
  let '(a, r1) := digit_run s in
  match r1 with
  | String dot1 r2 =>
      let '(b, r3) := digit_run r2 in
      match r3 with
      | String dot2 r4 =>
          let '(c, r5) := digit_run r4 in
          if Js.truthy a && Ascii.eqb dot1 "." && Js.truthy b && Ascii.eqb dot2 "."
             && Js.truthy c
          then Some (a +:+ "." +:+ b +:+ "." +:+ c, r5)
          else None
      | EmptyString => None
      end
  | EmptyString => None
  end.

(** The first release number met when scanning from the left. *)
Fixpoint locate (s : string) : option string :=
  match release_at s with
  | Some (m, _) => Some m
  | None =>
      match s with
      | String _ s' => locate s'
      | EmptyString => None
      end
  end.

(** The part of the pattern after the release number. *)
Definition devSuffix : Regex.regex :=
  Regex.word "-dev."
    (Regex.Seq (Regex.Plus Regex.Digit)
       (Regex.Seq (Regex.One (Regex.Lit "+")) (Regex.Plus Regex.HexLower))).

(** ** Version files *)

(** The [.zig-version] file of the ancestor of the working directory that
    is [j] segments deep. *)
Definition versionFileAt (E : env) (j : nat) : path :=
  Path.join (take j (cwd E)) ".zig-version".

(** The outcome of the search when the first read that does not fail with
    [ENOENT] gives [r]. *)
Definition foundBy (r : res fcontent) : res (option string) :=
  match r with
  | Val content => Val (Some (Js.trim (text_of content)))
  | Throw e => Throw e
  end.

Definition missing (r : res fcontent) : bool :=
  match r with
  | Throw e => has_code "ENOENT" e
  | Val _ => false
  end.

(** The project directory has no [.zig-version]; its parent pins 0.14.1
    and the directory above that pins 0.13.0. *)
Definition pinned : fsys :=
  <[ ["home"; "dev"; ".zig-version"] := File (Text ("0.14.1" +:+ nl)) ]>
  (<[ ["home"; ".zig-version"] := File (Text "0.13.0") ]> initialised).

Definition blocked_pin : fsys :=
  <[ ["home"; "dev"; "project"; ".zig-version"] := Dir ∅ ]> pinned.

(** ** Installation *)

(** The lines of the mirror list that are taken for mirrors. *)
Definition mirrorLines (text : string) : list string :=
  List.filter (fun url => Js.startsWith url "https://") (Js.split (ascii_of_nat 10) text).

(** A machine that Zig has no package for. *)
Definition unsupported : env := {|
  platform := "freebsd";
  arch := "x64";
  homedir := ["home"; "dev"];
  tmpdir := ["tmp"];
  cwd := ["home"; "dev"];
  now := 1700000000000%N;
  ZVM_INITIALIZED := Some "true";
  fetch_reply := fun _ _ => Response true (Val (Text "payload"));
  rename_busy := fun _ => None;
  archive_held := None;
  shell_word := Js.shell_safe;
  inherited_text := v8_text;
  documents_read := unread
|}.

(** An archive that breaks off after its first file. *)
Definition damaged : tarball := {|
  tar_listing := tar_listing zig_0_14_1;
  tar_payload := {[ "zig.exe" := "MZ"; "lib/std/std.zig" := "pub const" ]};
  tar_damage := Some {[ "zig.exe" := "MZ" ]}
|}.

Definition downloaded_damaged : fsys :=
  <[ ["Temp"; "zig-download-1700000000000"] := File (Tarball damaged) ]> downloaded.

(** ** The command line *)

(** The home directory is a file. *)
Definition homeless : fsys := {[ ["home"] := File (Text "") ]}.

(** The words that the router knows for a command. *)
Definition commands : list string :=
  ["install"; "i"; "uninstall"; "remove"; "rm"; "use"; "activate"; "deactivate";
   "unuse"; "current"; "alias"; "init"; "list"; "ls"; "list-remote"; "ls-remote"].

(** The setup script that [zvm init] writes on this platform. *)
Definition setupScript (E : env) : path :=
  Path.join (ZVM_DIR E) (if String.eqb (platform E) "win32" then "zvm.ps1" else "zvm.sh").

Definition setupContent (E : env) : string :=
  if String.eqb (platform E) "win32" then psScriptContent E else shScriptContent E.

(** ** A whole install *)

(** The mirrors that an install gets to know. *)
Definition mirrorsOf (E : env) : list string :=
  match fetch_reply E "GET" MIRRORS_URL with
  | Response true (Val c) => mirrorLines (text_of c)
  | _ => []
  end.

(** A release archive for Linux. *)
Definition zig_linux : tarball := {|
  tar_listing := "zig-linux-x86_64-0.14.1/" +:+ nl
                 +:+ "zig-linux-x86_64-0.14.1/zig" +:+ nl;
  tar_payload := {[ "zig" := "ELF" ]};
  tar_damage := None
|}.

(** No mirror list; the official site serves the archive under the first
    of the two file names. *)
Definition official_only : env := {|
  platform := "linux";
  arch := "x64";
  homedir := ["home"; "dev"];
  tmpdir := ["tmp"];
  cwd := ["home"; "dev"];
  now := 1700000000000%N;
  ZVM_INITIALIZED := Some "true";
  fetch_reply := fun _ url =>
    if String.eqb url "https://ziglang.org/download/0.14.1/zig-linux-x86_64-0.14.1.tar.xz"
    then Response true (Val (Tarball zig_linux))
    else Response false (Val (Text "Not Found"));
  rename_busy := fun _ => None;
  archive_held := None;
  shell_word := Js.shell_safe;
  inherited_text := v8_text;
  documents_read := unread
|}.

Definition ready : fsys := <[ ["tmp"] := Dir ∅ ]> fresh.

(** ** Arguments and packages *)

(** The argument names a flag. *)
Definition is_flag (arg : string) : bool := Js.startsWith arg "--".

(** * Properties *)

(** ** Strings *)

Lemma startsWith_refl s : Js.startsWith s s = true.
Proof. induction s as [|a s IH]; simpl; [done|]. by rewrite Ascii.eqb_refl. Qed.

Lemma includes_refl s : Js.includes s s = true.
Proof. destruct s; simpl; [done|]. by rewrite Ascii.eqb_refl, startsWith_refl. Qed.

Lemma arr_includes_spec arr x : Js.arr_includes arr x = true <-> x ∈ arr.
Proof.
  unfold Js.arr_includes. rewrite existsb_exists. split.
  - intros (y & Hy & Heq). apply String.eqb_eq in Heq. subst. by apply list_elem_of_In.
  - intros H. exists x. split; [by apply list_elem_of_In | apply String.eqb_refl].
Qed.

(** ** Running a handler *)

Lemma events_record e f st : events (record e f st) = events st ++ [e].
Proof. unfold events, record. simpl. by rewrite map_app. Qed.

Lemma JSON_parse_raises c e : JSON_parse c = Throw e -> e = syntaxError.
Proof.
  destruct c as [s| | |]; simpl; try congruence.
  destruct (Json.valid s); congruence.
Qed.

Lemma getAliases_fs E st : fs (getAliases E st).2 = fs st.
Proof.
  unfold getAliases, try_catch, bind, sys, lift, Fs.readFile.
  destruct (fs st !! ALIASES_FILE E) as [[c| |]|]; simpl; try done.
  destruct (JSON_parse c) as [m|e]; simpl; [done|].
  by destruct (has_code "ENOENT" e).
Qed.

Lemma readdir_fs p f : (Fs.readdir p f).2 = f.
Proof. unfold Fs.readdir. by destruct (f !! p) as [[]|]. Qed.

(** ** Version resolution *)

Lemma pickDir_exact E dirs d : d ∈ dirs -> pickDir E dirs (Js.Str d) = Some d.
Proof.
  intros Hd. unfold pickDir. cbn [textOf listed].
  set (matching := List.filter _ dirs).
  assert (Hm : d ∈ matching).
  { apply list_elem_of_In, filter_In.
    split; [by apply list_elem_of_In | apply includes_refl]. }
  destruct (Nat.eqb_spec (length matching) 1) as [Hlen|Hlen].
  - destruct matching as [|x [|y l]]; simpl in Hlen; try lia.
    apply list_elem_of_singleton in Hm. by subst.
  - apply arr_includes_spec in Hm. by rewrite Hm.
Qed.

Lemma pickDir_none E dirs t :
  (forall d, d ∈ dirs -> Js.includes d (textOf E t) = false) -> pickDir E dirs t = None.
Proof.
  intros H. unfold pickDir.
  assert (Hm : List.filter (fun dir => Js.includes dir (textOf E t)) dirs = []).
  { induction dirs as [|x l IH]; simpl; [done|].
    rewrite (H x) by set_solver. apply IH. intros; apply H; set_solver. }
  rewrite Hm. by destruct t.
Qed.

(** The value of [resolveVersion] once the alias store has been read. *)
Lemma resolveVersion_value E st tok m :
  (getAliases E st).1 = Val (Obj m) ->
  (resolveVersion E tok st).1 =
    if Js.truthy tok then
      match (Fs.readdir (INSTALL_BASE_DIR E) (fs st)).1 with
      | Val dirs => Val (pickDir E dirs (default (Js.Str tok) (alias_of m tok)))
      | Throw e => if has_code "ENOENT" e then Val None else Throw e
      end
    else Val None.
Proof.
  intros Hal. unfold resolveVersion.
  destruct (Js.truthy tok); simpl; [|done].
  unfold bind at 1. pose proof (getAliases_fs E st) as Hfs.
  destruct (getAliases E st) as [r st1]. simpl in *. subst r.
  unfold bind, lift, try_catch, sys, ret. cbn [lookupAlias]. rewrite Hfs.
  destruct (Fs.readdir (INSTALL_BASE_DIR E) (fs st)) as [[dirs|e] f']; simpl; [done|].
  by destruct (has_code "ENOENT" e).
Qed.

Lemma resolveVersion_fs E st tok : fs (resolveVersion E tok st).2 = fs st.
Proof.
  unfold resolveVersion. destruct (Js.truthy tok); simpl; [|done].
  unfold bind at 1. pose proof (getAliases_fs E st) as Hfs.
  destruct (getAliases E st) as [[aliases|e] st1]; simpl in *; [|done].
  unfold bind at 1, lift.
  destruct (lookupAlias E aliases tok) as [found|e]; [|done].
  unfold bind, try_catch, sys, ret.
  pose proof (readdir_fs (INSTALL_BASE_DIR E) (fs st1)) as Hrd.
  destruct (Fs.readdir (INSTALL_BASE_DIR E) (fs st1)) as [[dirs|e] f']; simpl in *;
    [congruence|].
  destruct (has_code "ENOENT" e); simpl; congruence.
Qed.

(** C7, as stated, fails: an installed directory whose name is also an
    alias for another directory resolves to that other directory. *)
Lemma resolve_exact_name_shadowed :
  (Fs.readdir (INSTALL_BASE_DIR offline) shadowed).1
    = Val ["zig-linux-x86_64-0.14.1"; "zig-linux-x86_64-0.13.0"] /\
  (resolveVersion offline "zig-linux-x86_64-0.13.0" (start shadowed)).1
    = Val (Some "zig-linux-x86_64-0.14.1") /\
  (resolveVersion offline "zig-linux-x86_64-0.13.0" (start shadowed)).1
    <> Val (Some "zig-linux-x86_64-0.13.0").
Proof. vm_compute. repeat split; congruence. Qed.

(** C7 (amended): with an alias file that is missing or holds an object of
    strings, every non-empty name [d] listed in the installation root for
    which the lookup [aliases[d]], own entry or inherited property, gives
    nothing, the empty string or [d] itself resolves to [d], whatever
    other listed names contain [d] as a substring. *)
Theorem resolve_exact_name E st d dirs m :
  (Fs.readdir (INSTALL_BASE_DIR E) (fs st)).1 = Val dirs ->
  d ∈ dirs ->
  d <> EmptyString ->
  (getAliases E st).1 = Val (Obj m) ->
  default (Js.Str d) (alias_of m d) = Js.Str d ->
  (resolveVersion E d st).1 = Val (Some d).
Proof.
  intros Hrd Hd Hne Hal Hself.
  rewrite (resolveVersion_value E st d m Hal), Hrd, Hself.
  destruct d; [done|]. simpl. by rewrite pickDir_exact.
Qed.

Lemma resolve_exact_name_witness :
  (resolveVersion offline "zig-0.14" (start nested_names)).1 = Val (Some "zig-0.14").
Proof.
  apply (resolve_exact_name offline (start nested_names) "zig-0.14"
           ["zig-0.14"; "zig-0.14.1"] ∅).
  - vm_compute. reflexivity.
  - apply list_elem_of_In. simpl. auto.
  - discriminate.
  - vm_compute. reflexivity.
  - reflexivity.
Defined.

(** C9, as stated, fails: with an empty installation root, an alias file
    that is not JSON makes resolution raise the parse error, and one that
    holds [null] makes it raise a type error. *)
Lemma resolve_raises_on_garbled_aliases :
  (Fs.readdir (INSTALL_BASE_DIR offline) garbled).1 = Val [] /\
  (resolveVersion offline "0.14.1" (start garbled)).1
    = Throw (Error "SyntaxError: Unexpected token in JSON") /\
  (Fs.readdir (INSTALL_BASE_DIR offline) nulled).1 = Val [] /\
  (getAliases offline (start nulled)).1 = Val Null /\
  (resolveVersion offline "0.14.1" (start nulled)).1
    = Throw (Error "TypeError: Cannot read properties of null (reading '0.14.1')").
Proof. vm_compute. repeat split; reflexivity. Qed.

(** C9 (amended): when the alias file is missing or holds an object of
    strings, resolution answers not-found, without raising, if the
    installation root is missing or lists no name containing the resolved
    target; an empty root is the case of an empty listing. *)
Theorem resolve_not_found E st tok m :
  (getAliases E st).1 = Val (Obj m) ->
  fs st !! INSTALL_BASE_DIR E = None \/
  (exists dirs, (Fs.readdir (INSTALL_BASE_DIR E) (fs st)).1 = Val dirs /\
     forall d, d ∈ dirs ->
       Js.includes d (textOf E (default (Js.Str tok) (alias_of m tok))) = false) ->
  (resolveVersion E tok st).1 = Val None.
Proof.
  intros Hal Hroot. rewrite (resolveVersion_value E st tok m Hal).
  destruct (Js.truthy tok); [|done].
  destruct Hroot as [Hmiss|(dirs & Hrd & Hno)].
  - unfold Fs.readdir. by rewrite Hmiss.
  - rewrite Hrd. by rewrite pickDir_none.
Qed.

Lemma resolve_not_found_witness :
  (resolveVersion offline "0.14.1" (start fresh)).1 = Val None.
Proof.
  apply (resolve_not_found offline (start fresh) "0.14.1" ∅).
  - vm_compute. reflexivity.
  - right. exists []. split; [vm_compute; reflexivity|].
    intros d Hd. by apply elem_of_nil in Hd.
Defined.

(** ** The alias store *)



Lemma append_empty s : s +:+ EmptyString = s.
Proof.
  induction s as [|a s IH]; [done|].
  change (String a (s +:+ EmptyString) = String a s). by rewrite IH.
Qed.


Lemma forEach_log {A} (l : list A) (lvl : level) (g : A -> string) st :
  (forEach l (fun x => log lvl (g x)) st).1 = Val tt /\
  fs (forEach l (fun x => log lvl (g x)) st).2 = fs st /\
  events (forEach l (fun x => log lvl (g x)) st).2
    = events st ++ map (fun x => Log lvl (g x)) l.
Proof.
  revert st. induction l as [|x l IH]; intros st; simpl.
  - by rewrite app_nil_r.
  - destruct (IH (record (Log lvl (g x)) (fs st) st)) as (Hv & Hf & He).
    change (bind (log lvl (g x)) (fun _ => forEach l (fun x => log lvl (g x))) st)
      with (forEach l (fun x => log lvl (g x)) (record (Log lvl (g x)) (fs st) st)).
    rewrite Hv, Hf, He, events_record, <- app_assoc. done.
Qed.




Lemma readlink_fs p f : (Fs.readlink p f).2 = f.
Proof. unfold Fs.readlink. by destruct (f !! p) as [[]|]. Qed.






(** ** The commit rename and its retries *)

Lemma permissionFailure_eq r :
  permissionFailure r = true <-> r = Throw (SystemError "EPERM").
Proof.
  split; [|by intros ->].
  destruct r as [|[c|]]; simpl; try done.
  intros H. apply String.eqb_eq in H. by subst.
Qed.

Lemma rename_failed_fs busy o n f e :
  (Fs.rename busy o n f).1 = Throw e -> (Fs.rename busy o n f).2 = f.
Proof.
  unfold Fs.rename. destruct busy; [done|].
  destruct (f !! o) as [x|]; [|done]. destruct n as [|s n]; [done|].
  destruct (f !! (s :: n)) as [[| j |]|]; destruct x; try done;
    try (destruct (Fs.parent_ok f (s :: n)); done);
    try (destruct (decide (j = ∅)); [destruct (Fs.has_children (s :: n) f)|]; done).
Qed.

Lemma renameFrom_run E o n st k : forall i fuel,
  i + k < retries -> k < fuel ->
  (forall j, j < k ->
     permissionFailure (Fs.rename (rename_busy E (i + j)) o n (fs st)).1 = true) ->
  (i + k = retries - 1 \/
   permissionFailure (Fs.rename (rename_busy E (i + k)) o n (fs st)).1 = false) ->
  exists st',
    renameFrom E fuel i o n st = ((Fs.rename (rename_busy E (i + k)) o n (fs st)).1, st') /\
    fs st' = (Fs.rename (rename_busy E (i + k)) o n (fs st)).2 /\
    trace st' = trace st ++ map (fun e => (e, fs st)) (retried o n i k)
                ++ [(Call (c_rename o n)
                       (failure (Fs.rename (rename_busy E (i + k)) o n (fs st)).1),
                     (Fs.rename (rename_busy E (i + k)) o n (fs st)).2)].
Proof.
  revert st. induction k as [|k IH]; intros st i fuel Hlt Hfuel Hperm Hlast.
  - destruct fuel as [|fuel]; [lia|]. simpl.
    replace (i + 0) with i in * by lia.
    destruct (Nat.ltb_spec i retries) as [_|?]; [|lia].
    unfold bind at 1, try_catch, bind at 1, sys.
    pose proof (rename_failed_fs (rename_busy E i) o n (fs st)) as Hfs.
    destruct (Fs.rename (rename_busy E i) o n (fs st)) as [[[]|e] f']; simpl in *.
    + eexists. split; [done|]. split; done.
    + specialize (Hfs e eq_refl). subst f'.
      assert (has_code "EPERM" e && Nat.ltb i 4 = false) as ->.
      { destruct Hlast as [->|Hne]; [apply andb_false_r|].
        simpl in Hne. by rewrite Hne. }
      eexists. split; [done|]. split; done.
  - destruct fuel as [|fuel]; [lia|]. simpl.
    destruct (Nat.ltb_spec i retries) as [_|?]; [|lia].
    unfold bind at 1, try_catch, bind at 1, sys.
    pose proof (Hperm 0 ltac:(lia)) as H0. replace (i + 0) with i in H0 by lia.
    apply permissionFailure_eq in H0.
    pose proof (rename_failed_fs (rename_busy E i) o n (fs st) _ H0) as Hfs.
    destruct (Fs.rename (rename_busy E i) o n (fs st)) as [r f']; simpl in *. subst r f'.
    destruct (Nat.ltb_spec i 4) as [_|?]; [|unfold retries in *; lia].
    simpl.
    set (st1 := record _ _ (record _ _ (record _ _ st))).
    destruct (IH st1 (i + 1) fuel) as (st' & Hrun & Hfs' & Hev).
    + lia.
    + lia.
    + intros j Hj. replace (i + 1 + j) with (i + S j) by lia. apply Hperm. lia.
    + replace (i + 1 + k) with (i + S k) by lia. exact Hlast.
    + replace (i + 1 + k) with (i + S k) in * by lia.
      exists st'. split; [exact Hrun|]. split; [exact Hfs'|].
      rewrite Hev. unfold st1. simpl. rewrite <- !app_assoc. simpl.
      replace (retried o n (i + 1) k) with (retried o n (S i) k) by (f_equal; lia).
      done.
Qed.

Lemma retried_counts o n k : forall i,
  length (List.filter is_rename (retried o n i k)) = k /\
  length (List.filter is_warning (retried o n i k)) = k /\
  omap sleep_of (retried o n i k) = replicate k delay.
Proof.
  induction k as [|k IH]; intros i; simpl; [done|].
  destruct (IH (S i)) as (H1 & H2 & H3).
  rewrite H1, H2. repeat split. f_equal. exact H3.
Qed.

Lemma decisive_attempt (blocked : nat -> bool) :
  exists n, n < retries /\ (forall i, i < n -> blocked i = true) /\
            (n = retries - 1 \/ blocked n = false).
Proof.
  unfold retries.
  destruct (blocked 0) eqn:H0; [|exists 0; repeat split; [lia|intros; lia|by right]].
  destruct (blocked 1) eqn:H1; [|exists 1; repeat split; [lia| |by right]].
  2:{ intros i Hi. by replace i with 0 by lia. }
  destruct (blocked 2) eqn:H2; [|exists 2; repeat split; [lia| |by right]].
  2:{ intros i Hi. destruct i as [|[|]]; try done; lia. }
  destruct (blocked 3) eqn:H3; [|exists 3; repeat split; [lia| |by right]].
  2:{ intros i Hi. destruct i as [|[|[|]]]; try done; lia. }
  exists 4. repeat split; [lia| |by left].
  intros i Hi. destruct i as [|[|[|[|]]]]; try done; lia.
Qed.

(** C3: the commit rename is tried at most five times, 300 ms apart; an
    attempt is repeated only after a failure with code EPERM; the first
    attempt that ends otherwise, or the fifth, decides the outcome.  Four
    such failures followed by a success give success with four warnings; six
    failures in a row are fatal (the fifth already is). *)
Theorem rename_retry_policy E oldPath newPath st :
  let attempt i := (Fs.rename (rename_busy E i) oldPath newPath (fs st)).1 in
  (forall n,
     n < retries ->
     (forall i, i < n -> permissionFailure (attempt i) = true) ->
     n = retries - 1 \/ permissionFailure (attempt n) = false ->
     exists st',
       renameWithRetry E oldPath newPath st = (attempt n, st') /\
       events st' = events st ++ retried oldPath newPath 0 n
                    ++ [Call (c_rename oldPath newPath) (failure (attempt n))]) /\
  (exists evs,
     events (renameWithRetry E oldPath newPath st).2 = events st ++ evs /\
     1 <= length (List.filter is_rename evs) <= 5 /\
     length (List.filter is_warning evs) = length (List.filter is_rename evs) - 1 /\
     omap sleep_of evs = replicate (length (List.filter is_rename evs) - 1) 300) /\
  ((forall i, i < 4 -> permissionFailure (attempt i) = true) ->
   attempt 4 = Val tt ->
   exists evs,
     (renameWithRetry E oldPath newPath st).1 = Val tt /\
     events (renameWithRetry E oldPath newPath st).2 = events st ++ evs /\
     length (List.filter is_warning evs) = 4) /\
  ((forall i, i < 6 -> permissionFailure (attempt i) = true) ->
   exists evs,
     (renameWithRetry E oldPath newPath st).1 = Throw (SystemError "EPERM") /\
     events (renameWithRetry E oldPath newPath st).2 = events st ++ evs /\
     length (List.filter is_rename evs) = 5).
Proof.
  intros attempt.
  assert (Hrun : forall n,
     n < retries ->
     (forall i, i < n -> permissionFailure (attempt i) = true) ->
     n = retries - 1 \/ permissionFailure (attempt n) = false ->
     exists st',
       renameWithRetry E oldPath newPath st = (attempt n, st') /\
       events st' = events st ++ retried oldPath newPath 0 n
                    ++ [Call (c_rename oldPath newPath) (failure (attempt n))]).
  { intros n Hn Hblocked Hlast.
    destruct (renameFrom_run E oldPath newPath st n 0 retries) as (st' & Hr & _ & Htr);
      [simpl; lia | lia | exact Hblocked | exact Hlast |].
    exists st'. split; [exact Hr|]. unfold events. rewrite Htr, !map_app, map_map.
    simpl. by rewrite map_id. }
  assert (Hcount : forall n r,
     length (List.filter is_rename
               (retried oldPath newPath 0 n ++ [Call (c_rename oldPath newPath) r])) = n + 1 /\
     length (List.filter is_warning
               (retried oldPath newPath 0 n ++ [Call (c_rename oldPath newPath) r])) = n /\
     omap sleep_of (retried oldPath newPath 0 n ++ [Call (c_rename oldPath newPath) r])
       = replicate n 300).
  { intros n r. destruct (retried_counts oldPath newPath n 0) as (H1 & H2 & H3).
    rewrite !List.filter_app, !length_app, omap_app, H1, H2, H3. simpl.
    rewrite app_nil_r. repeat split; lia. }
  split; [exact Hrun|]. split; [|split].
  - destruct (decisive_attempt (fun i => permissionFailure (attempt i)))
      as (n & Hn & Hblocked & Hlast).
    destruct (Hrun n Hn Hblocked Hlast) as (st' & Hr & Hev).
    exists (retried oldPath newPath 0 n
            ++ [Call (c_rename oldPath newPath) (failure (attempt n))]).
    destruct (Hcount n (failure (attempt n))) as (H1 & H2 & H3).
    rewrite Hr. simpl. rewrite Hev, H1, H2, H3.
    unfold retries in Hn. repeat split; try lia. by replace (n + 1 - 1) with n by lia.
  - intros Hblocked Hok.
    destruct (Hrun 4) as (st' & Hr & Hev); [unfold retries; lia | exact Hblocked | by left |].
    eexists. rewrite Hr. simpl. split; [exact Hok|]. split; [exact Hev|].
    by destruct (Hcount 4 (failure (attempt 4))) as (_ & -> & _).
  - intros Hblocked.
    destruct (Hrun 4) as (st' & Hr & Hev);
      [unfold retries; lia | intros i Hi; apply Hblocked; lia | by left |].
    eexists. rewrite Hr. simpl. split; [apply permissionFailure_eq, Hblocked; lia|].
    split; [exact Hev|].
    by destruct (Hcount 4 (failure (attempt 4))) as (-> & _ & _).
Qed.

Lemma rename_retry_policy_witness :
  exists evs,
    (renameWithRetry scanned
       ["Users"; "dev"; ".zvm"; "versions"; "zig-windows-x86_64-0.14.1.tmp"]
       ["Users"; "dev"; ".zvm"; "versions"; "zig-windows-x86_64-0.14.1"]
       (start staged)).1 = Val tt /\
    events (renameWithRetry scanned
       ["Users"; "dev"; ".zvm"; "versions"; "zig-windows-x86_64-0.14.1.tmp"]
       ["Users"; "dev"; ".zvm"; "versions"; "zig-windows-x86_64-0.14.1"]
       (start staged)).2 = events (start staged) ++ evs /\
    length (List.filter is_warning evs) = 4.
Proof.
  destruct (rename_retry_policy scanned
       ["Users"; "dev"; ".zvm"; "versions"; "zig-windows-x86_64-0.14.1.tmp"]
       ["Users"; "dev"; ".zvm"; "versions"; "zig-windows-x86_64-0.14.1"]
       (start staged)) as (_ & _ & H & _).
  apply H.
  - intros i Hi. destruct i as [|[|[|[|i]]]]; try (vm_compute; reflexivity). lia.
  - vm_compute. reflexivity.
Defined.

(** ** The mirror-aware downloader *)

Lemma probes_record e f st :
  probes (events (record e f st)) = probes (events st) ++ probes [e].
Proof. unfold probes. by rewrite events_record, omap_app. Qed.

Lemma scan_app {A} (hit : string -> option A) l1 l2 :
  scan hit (l1 ++ l2) =
    match (scan hit l1).2 with
    | Some a => scan hit l1
    | None => (l1 ++ (scan hit l2).1, (scan hit l2).2)
    end.
Proof.
  induction l1 as [|u l1 IH]; simpl.
  - by destruct (scan hit l2).
  - destruct (hit u); [done|]. rewrite IH.
    destruct (scan hit l1) as [v [a|]]; simpl; [done|].
    by destruct (scan hit l2).
Qed.

Lemma scan_all {A} (hit : string -> option A) urls :
  (scan hit urls).2 = None -> (scan hit urls).1 = urls.
Proof.
  induction urls as [|u l IH]; simpl; [done|].
  destruct (hit u); [done|]. destruct (scan hit l) as [v found]. simpl in *.
  intros ->. by rewrite IH.
Qed.



Ltac probes_done :=
  rewrite ?probes_record; simpl; rewrite <- ?app_assoc; simpl;
  rewrite ?app_nil_r; try done.

Lemma tryUrl_run E url st :
  exists st',
    tryUrl E url st =
      (Val (match served E (writable E (fs st)) url with
            | Some _ => Some (tempFile E)
            | None => None
            end), st') /\
    probes (events st') = probes (events st) ++ [url] /\
    match served E (writable E (fs st)) url with
    | Some c => fs st' !! tempFile E = Some (File c)
    | None => writable E (fs st') = writable E (fs st)
    end.
Proof.
  unfold tryUrl, served, try_catch, bind at 1, fetch at 1, sys at 1.
  destruct (fetch_reply E "HEAD" url) as [e|[] hb]; cbn [fst snd negb failure fs record].
  - unfold bind, logWarn, log, ret. eexists. split; [done|]. cbn [fs record].
    probes_done.
  - unfold bind at 1, logInfo, log at 1, bind at 1, fetch, sys at 1.
    cbn [fst snd negb failure fs record].
    destruct (fetch_reply E "GET" url) as [e|[] body]; cbn [fst snd negb failure fs record].
    + unfold bind, logWarn, log, ret. eexists. split; [done|]. cbn [fs record].
      probes_done.
    + unfold bind at 1, sys at 1, Fs.writeFile, writable. cbn [fs record].
      destruct body as [c|e];
        destruct (fs st !! tempFile E) as [[| |]|] eqn:Ht;
        try destruct (Fs.parent_ok (fs st) (tempFile E)) eqn:Hp;
        cbn [fst snd failure fs record];
        unfold bind, logWarn, logSuccess, log, ret; cbn [fs record];
        eexists; (split; [done|]); cbn [fs record];
        (split; [probes_done|]); rewrite ?lookup_insert_eq, ?Ht, ?Hp; done.
    + unfold ret. eexists. split; [done|]. cbn [fs record]. probes_done.
  - unfold ret. eexists. split; [done|]. cbn [fs record]. probes_done.
Qed.

Lemma forFilenames_run E baseUrl filenames : forall st,
  exists st' returned,
    forFilenames E baseUrl filenames st = (Val returned, st') /\
    scanned_to E (candidates [baseUrl] filenames) st st' returned.
Proof.
  unfold candidates. simpl. rewrite app_nil_r.
  induction filenames as [|filename rest IH]; intros st; simpl.
  - exists st, None. unfold scanned_to. simpl. by rewrite app_nil_r.
  - unfold bind at 1.
    destruct (tryUrl_run E (baseUrl +:+ "/" +:+ filename) st) as (st1 & Hrun & Hp & Hfs).
    rewrite Hrun. unfold scanned_to. simpl.
    destruct (served E (writable E (fs st)) (baseUrl +:+ "/" +:+ filename)) as [c|].
    + exists st1, (Some (tempFile E)). by simpl.
    + destruct (IH st1) as (st' & returned & Hrest & Hret & Hp' & Hfs').
      exists st', returned. split; [exact Hrest|].
      rewrite Hfs in Hret, Hp', Hfs'.
      destruct (scan _ _) as [visited found]. simpl in *.
      split; [exact Hret|]. split; [by rewrite Hp', Hp, <- app_assoc|].
      destruct found; [exact Hfs'|congruence].
Qed.

Lemma forBaseUrls_run E filenames baseUrls : forall st,
  exists st' returned,
    forBaseUrls E baseUrls filenames st = (Val returned, st') /\
    scanned_to E (candidates baseUrls filenames) st st' returned.
Proof.
  induction baseUrls as [|baseUrl rest IH]; intros st.
  - exists st, None. unfold scanned_to. simpl. by rewrite app_nil_r.
  - simpl forBaseUrls. unfold bind at 1.
    destruct (forFilenames_run E baseUrl filenames st)
      as (st1 & r1 & Hrun & Hret & Hp & Hfs).
    rewrite Hrun. unfold scanned_to.
    change (candidates (baseUrl :: rest) filenames)
      with (map (fun filename => baseUrl +:+ "/" +:+ filename) filenames
            ++ candidates rest filenames).
    unfold candidates in Hret, Hp, Hfs. simpl in Hret, Hp, Hfs.
    rewrite app_nil_r in Hret, Hp, Hfs. rewrite scan_app.
    pose proof (scan_all (served E (writable E (fs st)))
                  (map (fun filename => baseUrl +:+ "/" +:+ filename) filenames)) as Hall.
    destruct (scan (served E (writable E (fs st))) (map _ filenames)) as [v1 [c|]];
      simpl in *; subst r1.
    + exists st1, (Some (tempFile E)). by simpl.
    + destruct (IH st1) as (st' & returned & Hrest & Hret' & Hp' & Hfs').
      exists st', returned. split; [exact Hrest|].
      rewrite Hfs in Hret', Hp', Hfs'.
      destruct (scan _ (candidates rest filenames)) as [v2 found]. simpl in *.
      split; [exact Hret'|].
      rewrite <- (Hall eq_refl).
      split; [by rewrite Hp', Hp, <- app_assoc|].
      destruct found; [exact Hfs'|congruence].
Qed.



(** ** Paths and directories *)

Lemma length_append s t : String.length (s +:+ t) = String.length s + String.length t.
Proof.
  induction s as [|a s IH]; [done|].
  change (S (String.length (s +:+ t)) = S (String.length s + String.length t)).
  by rewrite IH.
Qed.

Lemma suffixed_ne p sfx : sfx <> EmptyString -> Path.suffixed p sfx <> p.
Proof.
  intros Hs. unfold Path.suffixed. destruct p as [|x l]; [done|].
  set (p := x :: l). intros Heq.
  assert (Hp : p = List.removelast p ++ [List.last p EmptyString])
    by (by apply app_removelast_last).
  rewrite Hp in Heq at 3. apply app_inv_head in Heq. injection Heq as Heq.
  apply (f_equal String.length) in Heq. rewrite length_append in Heq.
  destruct sfx; [done|]. simpl in Heq. lia.
Qed.

Lemma suffixed_length p sfx : p <> [] -> length (Path.suffixed p sfx) = length p.
Proof.
  intros Hp. unfold Path.suffixed. destruct p as [|x l] eqn:Ep; [done|].
  rewrite <- Ep in *. pose proof (app_removelast_last EmptyString Hp) as H.
  apply (f_equal (@length string)) in H. rewrite length_app in *. simpl in *. lia.
Qed.

Lemma INSTALL_BASE_DIR_nonempty E : INSTALL_BASE_DIR E <> [].
Proof. unfold INSTALL_BASE_DIR, ZVM_DIR, Path.join. simpl. by destruct (homedir E). Qed.

Lemma split_whole sep s :
  Js.allChars (fun a => negb (Ascii.eqb a sep)) s = true -> Js.split sep s = [s].
Proof.
  induction s as [|a s IH]; [done|]. simpl. intros H.
  apply andb_prop in H as [Ha Hs]. apply negb_true_iff in Ha. rewrite Ha.
  by rewrite IH.
Qed.

Lemma allChars_impl (p q : ascii -> bool) s :
  (forall a, p a = true -> q a = true) ->
  Js.allChars p s = true -> Js.allChars q s = true.
Proof.
  intros Hpq. induction s as [|a s IH]; [done|]. simpl. intros H.
  apply andb_prop in H as [Ha Hs]. by rewrite (Hpq _ Ha), IH.
Qed.

Lemma endsWithSlash_whole s :
  Js.allChars (fun a => negb (Ascii.eqb a "/"%char)) s = true ->
  Js.endsWithSlash s = false.
Proof.
  induction s as [|a s IH]; [done|]. simpl. intros H.
  apply andb_prop in H as [Ha Hs]. apply negb_true_iff in Ha.
  destruct s; [done|]. by apply IH.
Qed.

(** The name of one entry is joined as one segment, and the staging path is
    its sibling. *)
Lemma joinName_plain base name :
  Js.plain_name name = true -> Path.joinName base name = (base ++ [name], false).
Proof.
  unfold Js.plain_name. intros H.
  apply andb_prop in H as [H Hchars]. apply andb_prop in H as [H Hdd].
  apply andb_prop in H as [Htruthy Hd].
  assert (Hslash : Js.allChars (fun a => negb (Ascii.eqb a "/"%char)) name = true).
  { eapply allChars_impl; [|exact Hchars]. intros a Ha. by apply andb_prop in Ha as [-> _]. }
  unfold Path.joinName. rewrite split_whole by done.
  rewrite endsWithSlash_whole by done. unfold Path.resolve. simpl.
  apply negb_true_iff in Hd, Hdd. rewrite Hd, Hdd.
  destruct name; [done|]. done.
Qed.

Lemma plain_paths E t :
  Js.plain_name (unpackedDirName t) = true ->
  finalInstallPath E t = INSTALL_BASE_DIR E ++ [unpackedDirName t] /\
  finalEndsInSlash E t = false /\
  tempInstallPath E t = Path.suffixed (finalInstallPath E t) ".tmp" /\
  finalInstallText E t = Path.show (finalInstallPath E t).
Proof.
  intros H. unfold tempInstallPath, finalInstallPath, finalEndsInSlash, finalInstallText,
    Path.showSlash.
  rewrite joinName_plain by done. cbn [fst snd].
  repeat split. by rewrite append_empty.
Qed.

(** [mkdir -p] touches only the prefixes of its path, never replaces an
    entry, and leaves a directory at each prefix when it succeeds. *)
Lemma mkdir_from_spec rest : forall cur f r f',
  Fs.mkdir_from cur rest f = (r, f') ->
  (forall q, (forall k, 0 < k <= length rest -> q <> cur ++ take k rest) ->
             f' !! q = f !! q) /\
  (forall q x, f !! q = Some x -> f' !! q = Some x) /\
  (r = Val tt ->
   forall k, 0 < k <= length rest -> exists i, f' !! (cur ++ take k rest) = Some (Dir i)).
Proof.
  induction rest as [|s rest IH]; intros cur f r f' Hrun; simpl in Hrun.
  - inversion Hrun; subst. repeat split; try done. intros _ k Hk. simpl in Hk. lia.
  - assert (Hstep : forall k, 0 < k <= length rest ->
                      (cur ++ [s]) ++ take k rest = cur ++ take (S k) (s :: rest)).
    { intros k _. by rewrite <- app_assoc. }
    destruct (f !! (cur ++ [s])) as [[c|i|t]|] eqn:Hq.
    + inversion Hrun; subst. repeat split; done.
    + destruct (IH _ _ _ _ Hrun) as (Hframe & Hkeep & Hdirs).
      split; [|split].
      * intros q Hne. apply Hframe. intros k Hk. rewrite Hstep by done.
        apply Hne. simpl. lia.
      * exact Hkeep.
      * intros Hr k Hk. destruct k as [|[|k]]; [lia| |].
        -- exists i. simpl. rewrite take_0. by apply Hkeep.
        -- destruct (Hdirs Hr (S k)) as [j Hj]; [simpl in Hk; lia|].
           exists j. by rewrite <- Hstep by (simpl in Hk; lia).
    + inversion Hrun; subst. repeat split; done.
    + destruct (IH _ _ _ _ Hrun) as (Hframe & Hkeep & Hdirs).
      split; [|split].
      * intros q Hne. rewrite Hframe.
        -- apply lookup_insert_ne. intros Heq. apply (Hne 1); [simpl; lia|].
           simpl. by rewrite take_0.
        -- intros k Hk. rewrite Hstep by done. apply Hne. simpl. lia.
      * intros q x Hx. apply Hkeep. rewrite lookup_insert_ne; [done|].
        intros Heq. subst q. congruence.
      * intros Hr k Hk. destruct k as [|[|k]]; [lia| |].
        -- exists ∅. simpl. rewrite take_0. apply Hkeep. by rewrite lookup_insert_eq.
        -- destruct (Hdirs Hr (S k)) as [j Hj]; [simpl in Hk; lia|].
           exists j. by rewrite <- Hstep by (simpl in Hk; lia).
Qed.

(** ** The install step *)

Lemma access_missing p f :
  p <> [] -> f !! p = None -> Fs.access p f = (Throw (SystemError "ENOENT"), f).
Proof.
  intros Hp Hf. unfold Fs.access.
  assert (Fs.reach (size f) p f = None) as ->; [|done].
  destruct (size f), p; simpl; try done; by rewrite Hf.
Qed.



Lemma retried_not_commit o n k : forall i,
  Forall (fun e => e <> Call (c_rename o n) None) (retried o n i k).
Proof.
  induction k as [|k IH]; intros i; simpl; [constructor|].
  repeat (constructor; [done|]). apply IH.
Qed.

Lemma rename_done busy o n f :
  (Fs.rename busy o n f).1 = Val tt ->
  exists x, f !! o = Some x /\ (Fs.rename busy o n f).2 = <[n := x]> (delete o f).
Proof.
  unfold Fs.rename. destruct busy; [done|].
  destruct (f !! o) as [x|]; [|done]. intros H. exists x. split; [done|].
  destruct n as [|s n]; [done|].
  destruct (f !! (s :: n)) as [[| j |]|]; destruct x; try done;
    try (destruct (Fs.parent_ok f (s :: n)); done);
    try (destruct (decide (j = ∅)); [destruct (Fs.has_children (s :: n) f)|]; done).
Qed.

Lemma mkdir_p_final E t f r f' :
  Js.plain_name (unpackedDirName t) = true ->
  Fs.mkdir_p (tempInstallPath E t) f = (r, f') ->
  f' !! finalInstallPath E t = f !! finalInstallPath E t.
Proof.
  intros Hplain Hrun. destruct (plain_paths E t Hplain) as (Efinal & _ & Etemp & _).
  assert (Hne : finalInstallPath E t <> []).
  { rewrite Efinal. by destruct (INSTALL_BASE_DIR E). }
  destruct (mkdir_from_spec _ _ _ _ _ Hrun) as (Hframe & _ & _).
  apply Hframe. intros k Hk. simpl. rewrite Etemp in *.
  rewrite suffixed_length in Hk by done.
  destruct (decide (k = length (finalInstallPath E t))) as [->|Hlt].
  - rewrite <- (suffixed_length _ ".tmp") by done. rewrite firstn_all.
    intros Heq. by apply (suffixed_ne (finalInstallPath E t) ".tmp").
  - intros Heq. apply (f_equal (@length string)) in Heq.
    rewrite length_take, suffixed_length in Heq by done. lia.
Qed.

(** C1 (amended): for an archive whose listing names one plain directory,
    in every run of the install step that gets past the check for an
    existing installation, each state the file system passes through before
    the commit has nothing at the final path, whether the run goes on or
    stops there; the final path first exists in the state produced by the
    successful rename of the staging directory, and from then on holds
    every file the archive unpacks. *)
Theorem install_is_atomic E downloadedFile t st :
  Js.plain_name (unpackedDirName (tar_listing t)) = true ->
  fs st !! downloadedFile = Some (File (Tarball t)) ->
  fs st !! finalInstallPath E (tar_listing t) = None ->
  exists r st' before after,
    installArchive E downloadedFile st = (r, st') /\
    trace st' = trace st ++ before ++ after /\
    Forall (uncommitted E (tar_listing t)) before /\
    Forall (installed E t) after /\
    match after with
    | [] => exists e, r = Throw e
    | entry :: _ =>
        entry.1 = commit E (tar_listing t) /\
        tar_damage t = None /\
        match archive_held E with
        | None => r = Val (Some (unpackedDirName (tar_listing t)))
        | Some code => r = Throw (SystemError code)
        end
    end.
Proof.
  intros Hplain Hfile Hfinal.
  destruct (plain_paths E (tar_listing t) Hplain) as (Epath & Eslash & Etemp & _).
  assert (Hne : finalInstallPath E (tar_listing t) <> []).
  { rewrite Epath. by destruct (INSTALL_BASE_DIR E). }
  assert (Hun : forall e, e <> commit E (tar_listing t) -> forall f,
            f !! finalInstallPath E (tar_listing t) = None ->
            uncommitted E (tar_listing t) (e, f)).
  { intros e He f Hf. split; done. }
  assert (Hmkdir : forall f r f',
            Fs.mkdir_p (tempInstallPath E (tar_listing t)) f = (r, f') ->
            f' !! finalInstallPath E (tar_listing t)
            = f !! finalInstallPath E (tar_listing t)).
  { intros f r f'. by apply mkdir_p_final. }
  unfold installed, commit in *.
  unfold installArchive.
  remember (finalInstallPath E (tar_listing t)) as final eqn:Efinal.
  remember (tempInstallPath E (tar_listing t)) as staging eqn:Estaging.
  assert (Hds : downloadedFile <> final) by congruence.
  assert (Hsf : staging <> final) by (rewrite Etemp; apply suffixed_ne; done).
  assert (Hlen : 0 < length staging <= length staging).
  { split; [|lia]. rewrite Etemp, suffixed_length by done.
    destruct final; simpl; [done|lia]. }
  unfold logInfo, logError, bind, try_catch, log, sys, ret, Tar.list.
  cbn [fs record].
  destruct (shell_word E (Path.show downloadedFile)) eqn:Hword; cbn [negb failure].
  2:{ eexists _, _, [(_, fs st); (_, fs st)], []. split; [reflexivity|]. cbn [trace record].
      split; [by rewrite <- !app_assoc|].
      split; [|split; [constructor|by eexists]].
      repeat (constructor; [by apply Hun|]). constructor. }
  rewrite Hfile. cbn [fs record failure].
  rewrite Eslash, <- Efinal, <- Estaging. rewrite access_missing by done.
  cbn [fs record failure].
  set (p3 := [(Log Info "[4/4] Installing...", fs st);
              (Call (c_tar_tf downloadedFile) None, fs st);
              (Call (c_access final) (Some (SystemError "ENOENT")), fs st)]).
  assert (Hp3 : Forall (uncommitted E (tar_listing t)) p3).
  { repeat (constructor; [by apply Hun|]). constructor. }
  destruct (Fs.mkdir_p staging (fs st)) as [rm f1] eqn:Hmk.
  assert (Hf1 : f1 !! final = None).
  { rewrite <- Hfinal. by eapply Hmkdir. }
  destruct (mkdir_from_spec _ _ _ _ _ Hmk) as (_ & Hkeep & Hdirs).
  destruct rm as [[]|e]; cbn [failure].
  2:{ eexists _, _, (p3 ++ [(_, f1)]), []. split; [reflexivity|]. cbn [trace record].
      split; [by rewrite <- !app_assoc|].
      split; [|split; [constructor|by eexists]].
      apply Forall_app. split; [done|].
      constructor; [by apply Hun|constructor]. }
  destruct (Hdirs eq_refl (length staging) Hlen) as [i Hst].
  simpl in Hst. rewrite firstn_all in Hst.
  pose proof (Hkeep _ _ Hfile) as Hfile1.
  unfold Tar.extract. cbn [fs record]. rewrite Hword. cbn [andb].
  destruct (shell_word E (Path.show staging)) eqn:Hword'; cbn [negb failure Tar.failed].
  2:{ eexists _, _, (p3 ++ [(_, f1); (_, _)]), []. split; [reflexivity|].
      cbn [trace record]. split; [by rewrite <- !app_assoc|].
      split; [|split; [constructor|by eexists]].
      apply Forall_app. split; [done|].
      repeat (constructor; [by apply Hun|]). constructor. }
  rewrite Hfile1, Hst.
  destruct (tar_damage t) as [part|] eqn:Hdamage; cbn [failure Tar.failed].
  { eexists _, _, (p3 ++ [(_, f1); (_, _)]), []. split; [reflexivity|].
    cbn [trace record]. split; [by rewrite <- !app_assoc|].
    split; [|split; [constructor|by eexists]].
    apply Forall_app. split; [done|].
    repeat (constructor; [apply Hun; [done|]; rewrite ?lookup_insert_ne; done|]).
    constructor. }
  set (f2 := <[staging := Dir (tar_payload t ∪ i)]> f1).
  assert (Hf2 : f2 !! final = None) by (unfold f2; by rewrite lookup_insert_ne).
  set (p5 := p3 ++ [(Call (c_mkdir staging) None, f1);
                    (Call (c_tar_xf downloadedFile staging) None, f2)]).
  assert (Hp5 : Forall (uncommitted E (tar_listing t)) p5).
  { apply Forall_app. split; [done|].
    repeat (constructor; [by apply Hun|]). constructor. }
  match goal with |- context [renameWithRetry E staging final ?s] => set (st5 := s) end.
  assert (Htr5 : trace st5 = trace st ++ p5).
  { unfold st5, p5, p3. cbn [trace record]. by rewrite <- !app_assoc. }
  unfold renameWithRetry.
  destruct (decisive_attempt
              (fun k => permissionFailure (Fs.rename (rename_busy E k) staging final f2).1))
    as (n & Hn & Hblocked & Hlast).
  destruct (renameFrom_run E staging final st5 n 0 retries) as (st6 & Hrun & Hfs6 & Htr6);
    [simpl; lia | lia | exact Hblocked | exact Hlast |].
  change (0 + n) with n in Hrun, Hfs6, Htr6.
  change (fs st5) with f2 in Hrun, Hfs6, Htr6.
  rewrite Hrun, Htr5 in *. cbn [fst snd]. clearbody st5 p5 p3.
  assert (Hretried : Forall (uncommitted E (tar_listing t))
                       (map (fun e => (e, f2)) (retried staging final 0 n))).
  { apply Forall_fmap. eapply Forall_impl; [apply retried_not_commit|].
    intros ev Hev. by apply Hun. }
  pose proof (rename_failed_fs (rename_busy E n) staging final f2) as Hfail.
  pose proof (rename_done (rename_busy E n) staging final f2) as Hdone.
  destruct (Fs.rename (rename_busy E n) staging final f2) as [[[]|e] f3];
    cbn [fst snd failure] in *.
  2:{ rewrite (Hfail e eq_refl) in *.
      eexists _, _, (p5 ++ map (fun e => (e, f2)) (retried staging final 0 n) ++ [(_, f2)]), [].
      split; [reflexivity|]. rewrite Htr6.
      split; [by rewrite app_nil_r, <- !app_assoc|].
      split; [|split; [constructor|by eexists]].
      apply Forall_app. split; [done|]. apply Forall_app. split; [done|].
      constructor; [by apply Hun|constructor]. }
  destruct (Hdone eq_refl) as (x & Hx & Hf3).
  unfold f2 in Hx. rewrite lookup_insert_eq in Hx. injection Hx as <-.
  assert (Hf3d : f3 !! downloadedFile = Some (File (Tarball t))).
  { rewrite Hf3. rewrite lookup_insert_ne by congruence.
    assert (staging <> downloadedFile) by congruence.
    rewrite lookup_delete_ne by done. unfold f2. by rewrite lookup_insert_ne. }
  unfold Fs.unlinkHeld, Fs.unlink. rewrite Hfs6.
  destruct (archive_held E) as [code|]; [|rewrite Hf3d]; cbn [failure].
  - eexists _, _, (p5 ++ map (fun e => (e, f2)) (retried staging final 0 n)),
      [(_, f3); (_, f3)].
    split; [reflexivity|]. cbn [trace record]. rewrite Htr6.
    split; [by rewrite <- !app_assoc|].
    split; [|split].
    + apply Forall_app. split; done.
    + constructor; [|constructor; [|constructor]];
        exists (tar_payload t ∪ i); simpl; rewrite Hf3, lookup_insert_eq;
        (split; [done|apply map_union_subseteq_l]).
    + done.
  - eexists _, _, (p5 ++ map (fun e => (e, f2)) (retried staging final 0 n)),
      [(_, f3); (_, delete downloadedFile f3)].
    split; [reflexivity|]. cbn [trace record]. rewrite Htr6.
    split; [by rewrite <- !app_assoc|].
    split; [|split].
    + apply Forall_app. split; done.
    + constructor; [|constructor; [|constructor]].
      * exists (tar_payload t ∪ i). simpl. rewrite Hf3, lookup_insert_eq.
        split; [done|]. apply map_union_subseteq_l.
      * exists (tar_payload t ∪ i). simpl. rewrite lookup_delete_ne by congruence.
        rewrite Hf3, lookup_insert_eq. split; [done|]. apply map_union_subseteq_l.
    + done.
Qed.

Lemma install_is_atomic_witness :
  exists r st' before after,
    installArchive scanned (tempFile scanned) (start downloaded) = (r, st') /\
    trace st' = trace (start downloaded) ++ before ++ after /\
    Forall (uncommitted scanned (tar_listing zig_0_14_1)) before /\
    Forall (installed scanned zig_0_14_1) after /\
    match after with
    | [] => exists e, r = Throw e
    | entry :: _ =>
        entry.1 = commit scanned (tar_listing zig_0_14_1) /\
        tar_damage zig_0_14_1 = None /\
        r = Val (Some (unpackedDirName (tar_listing zig_0_14_1)))
    end.
Proof.
  apply (install_is_atomic scanned (tempFile scanned) zig_0_14_1 (start downloaded)).
  - vm_compute. reflexivity.
  - vm_compute. reflexivity.
  - vm_compute. reflexivity.
Defined.

(** C1, as stated, fails: when the listing names the directory with two
    slashes, the staging path lies below the final path, so that making
    the staging directory makes the final one, and no rename succeeds. *)
Lemma staging_below_final :
  let final := finalInstallPath scanned (tar_listing slashed) in
  let staging := tempInstallPath scanned (tar_listing slashed) in
  let run := installArchive scanned (tempFile scanned) (start downloaded_slashed) in
  staging = final ++ [".tmp"] /\
  downloaded_slashed !! final = None /\
  take 5 (map (fun entry => (entry.1, entry.2 !! final)) (trace run.2)) =
    [(Log Info "[4/4] Installing...", None);
     (Call (c_tar_tf (tempFile scanned)) None, None);
     (Call (c_access final) (Some (SystemError "ENOENT")), None);
     (Call (c_mkdir staging) None, Some (Dir ∅));
     (Call (c_tar_xf (tempFile scanned) staging) None, Some (Dir ∅))] /\
  Forall (fun e => e <> commit scanned (tar_listing slashed)) (events run.2) /\
  (exists e, run.1 = Throw e) /\
  fs run.2 !! final = Some (Dir ∅) /\
  fs run.2 !! staging = Some (Dir (tar_payload slashed)).
Proof.
  cbv zeta.
  split; [vm_compute; reflexivity|].
  split; [vm_compute; reflexivity|].
  split; [vm_compute; reflexivity|].
  split.
  { vm_compute. repeat (constructor; [discriminate|]). constructor. }
  split; [eexists; vm_compute; reflexivity|].
  split; vm_compute; reflexivity.
Qed.



(** ** Activation *)

Lemma initHint_run E st :
  exists st', initHint E st = (Val tt, st') /\ fs st' = fs st /\
              events st' = events st ++ hint E.
Proof.
  unfold initHint, hint. destruct (initialized E); simpl.
  - exists st. by rewrite app_nil_r.
  - eexists. split; [reflexivity|]. split; [done|]. by rewrite events_record.
Qed.

Lemma parent_ok_intro f p i : f !! Path.dirname p = Some (Dir i) -> Fs.parent_ok f p = true.
Proof. unfold Fs.parent_ok. destruct (Path.dirname p); [done|]. by intros ->. Qed.

Lemma ACTIVE_dirname E : Path.dirname (ACTIVE_VERSION_LINK E) = SHIMS_DIR E.
Proof. unfold ACTIVE_VERSION_LINK, Path.join, Path.dirname. simpl. apply removelast_last. Qed.

Lemma SHIMS_not_ACTIVE E : SHIMS_DIR E <> ACTIVE_VERSION_LINK E.
Proof.
  unfold ACTIVE_VERSION_LINK, Path.join. simpl. intros H.
  apply (f_equal (@length string)) in H. rewrite length_app in H. simpl in H. lia.
Qed.

Lemma activate_run E st d i :
  fs st !! SHIMS_DIR E = Some (Dir i) ->
  fs st !! ACTIVE_VERSION_LINK E = None \/
  (exists t, fs st !! ACTIVE_VERSION_LINK E = Some (Link t)) ->
  exists st',
    activate E d st = (Val tt, st') /\
    fs st' = <[ACTIVE_VERSION_LINK E := Link (Path.join (INSTALL_BASE_DIR E) d)]> (fs st) /\
    events st' = events st ++
      [Call (c_unlink (ACTIVE_VERSION_LINK E))
            (failure (Fs.unlink (ACTIVE_VERSION_LINK E) (fs st)).1);
       Log Info ("Activating " +:+ d +:+ "...");
       Call (c_symlink (Path.join (INSTALL_BASE_DIR E) d) (ACTIVE_VERSION_LINK E)
                       (if String.eqb (platform E) "win32" then "junction" else "dir"))
            None;
       Log Success ("Now using " +:+ d +:+ ".")] ++ hint E.
Proof.
  intros Hshims Hlink.
  assert (Hparent : forall f, f !! SHIMS_DIR E = Some (Dir i) ->
                      Fs.parent_ok f (ACTIVE_VERSION_LINK E) = true).
  { intros f Hf. apply (parent_ok_intro f _ i). by rewrite ACTIVE_dirname. }
  unfold activate, logInfo, logSuccess, bind, try_catch, log, sys, ret, throw,
    Fs.unlink, Fs.symlink, Fs.enoent.
  destruct Hlink as [Hnone|[t Ht]].
  - rewrite Hnone. cbn [failure fs record fst snd]. simpl (has_code _ _).
    cbn [negb fs record]. rewrite Hnone, (Hparent _ Hshims). cbn [failure fs record].
    match goal with |- context [initHint E ?s] =>
      destruct (initHint_run E s) as (st' & Hrun & Hfs & Hev) end.
    rewrite Hrun. exists st'. split; [done|]. rewrite Hfs, Hev. cbn [fs record].
    split; [done|]. by rewrite !events_record, <- !app_assoc.
  - rewrite Ht. cbn [failure fs record fst snd].
    rewrite lookup_delete_eq, Hparent.
    2:{ rewrite lookup_delete_ne; [done|]. intros H; symmetry in H.
        by apply SHIMS_not_ACTIVE in H. }
    cbn [failure fs record].
    match goal with |- context [initHint E ?s] =>
      destruct (initHint_run E s) as (st' & Hrun & Hfs & Hev) end.
    rewrite Hrun. exists st'. split; [done|]. rewrite Hfs, Hev. cbn [fs record].
    split; [by rewrite insert_delete_eq|]. by rewrite !events_record, <- !app_assoc.
Qed.

Lemma handleDeactivate_run E st :
  fs st !! ACTIVE_VERSION_LINK E = None \/
  (exists t, fs st !! ACTIVE_VERSION_LINK E = Some (Link t)) ->
  exists st',
    handleDeactivate E st = (Val tt, st') /\
    fs st' = delete (ACTIVE_VERSION_LINK E) (fs st) /\
    events st' = events st ++
      match fs st !! ACTIVE_VERSION_LINK E with
      | None =>
          [Call (c_unlink (ACTIVE_VERSION_LINK E)) (Some (SystemError "ENOENT"));
           Log Info "No version is currently active."]
      | Some _ =>
          [Call (c_unlink (ACTIVE_VERSION_LINK E)) None;
           Log Success "Deactivated Zig. No version is currently active."] ++ hint E
      end.
Proof.
  intros Hlink.
  unfold handleDeactivate, logInfo, logSuccess, logError, bind, try_catch, log, sys,
    ret, throw, Fs.unlink, Fs.enoent.
  destruct Hlink as [Hnone|[t Ht]].
  - rewrite Hnone. cbn [failure fs record fst snd]. simpl (has_code _ _).
    cbn [fs record]. eexists. split; [reflexivity|]. cbn [fs record].
    split; [by rewrite delete_id|]. by rewrite !events_record, <- !app_assoc.
  - rewrite Ht. cbn [failure fs record fst snd].
    match goal with |- context [initHint E ?s] =>
      destruct (initHint_run E s) as (st' & Hrun & Hfs & Hev) end.
    rewrite Hrun. exists st'. split; [done|]. rewrite Hfs, Hev. cbn [fs record].
    split; [done|]. by rewrite !events_record, <- !app_assoc.
Qed.

Lemma handleUse_resolved E st tok d :
  Js.truthy tok = true ->
  (resolveVersion E tok st).1 = Val (Some d) ->
  Js.truthy d = true ->
  handleUse E (Some tok) st = activate E d (resolveVersion E tok st).2.
Proof.
  intros Htok Hres Hd. unfold handleUse. simpl. rewrite Htok. simpl.
  unfold bind at 1, ret at 1. unfold bind at 1.
  destruct (resolveVersion E tok st) as [r st1]. simpl in *. subst r.
  simpl. by rewrite Hd.
Qed.

(** C6, as stated, fails: from the state without an active link, activating
    an installed version raises ENOENT when the directory meant to hold the
    link does not exist (only [zvm init] creates it); no link is made. *)
Lemma activate_before_init_fails :
  never_initialised !! ACTIVE_VERSION_LINK offline = None /\
  (resolveVersion offline "0.14.1" (start never_initialised)).1
    = Val (Some "zig-linux-x86_64-0.14.1") /\
  (handleUse offline (Some "0.14.1") (start never_initialised)).1
    = Throw (SystemError "ENOENT") /\
  fs (handleUse offline (Some "0.14.1") (start never_initialised)).2
    !! ACTIVE_VERSION_LINK offline = None.
Proof. vm_compute. repeat split; reflexivity. Qed.

(** C6 (amended): with the link absent or present, and provided the
    directory that holds the link exists, activating [d] removes the link if
    there is one (its absence is not an error), creates a fresh link to the
    directory of [d] and ends with that link in place; deactivating ends
    with no link, and reports the absence of a link as information. *)
Theorem activation_state_machine E st :
  fs st !! ACTIVE_VERSION_LINK E = None \/
  (exists t, fs st !! ACTIVE_VERSION_LINK E = Some (Link t)) ->
  (forall i,
     fs st !! SHIMS_DIR E = Some (Dir i) ->
     (forall d,
        exists st',
          activate E d st = (Val tt, st') /\
          fs st' !! ACTIVE_VERSION_LINK E
            = Some (Link (Path.join (INSTALL_BASE_DIR E) d)) /\
          events st' = events st ++
            [Call (c_unlink (ACTIVE_VERSION_LINK E))
                  (failure (Fs.unlink (ACTIVE_VERSION_LINK E) (fs st)).1);
             Log Info ("Activating " +:+ d +:+ "...");
             Call (c_symlink (Path.join (INSTALL_BASE_DIR E) d) (ACTIVE_VERSION_LINK E)
                     (if String.eqb (platform E) "win32" then "junction" else "dir"))
                  None;
             Log Success ("Now using " +:+ d +:+ ".")] ++ hint E) /\
     (forall tok d,
        Js.truthy tok = true ->
        (resolveVersion E tok st).1 = Val (Some d) ->
        Js.truthy d = true ->
        exists st',
          handleUse E (Some tok) st = (Val tt, st') /\
          fs st' !! ACTIVE_VERSION_LINK E
            = Some (Link (Path.join (INSTALL_BASE_DIR E) d)))) /\
  (exists st',
     handleDeactivate E st = (Val tt, st') /\
     fs st' !! ACTIVE_VERSION_LINK E = None /\
     (fs st !! ACTIVE_VERSION_LINK E = None ->
      fs st' = fs st /\
      events st' = events st ++
        [Call (c_unlink (ACTIVE_VERSION_LINK E)) (Some (SystemError "ENOENT"));
         Log Info "No version is currently active."])).
Proof.
  intros Hlink. split.
  - intros i Hshims. split.
    + intros d. destruct (activate_run E st d i Hshims Hlink) as (st' & Hrun & Hfs & Hev).
      exists st'. split; [done|]. split; [|done]. by rewrite Hfs, lookup_insert_eq.
    + intros tok d Htok Hres Hd. rewrite (handleUse_resolved E st tok d Htok Hres Hd).
      pose proof (resolveVersion_fs E st tok) as Hsame.
      destruct (activate_run E (resolveVersion E tok st).2 d i) as (st' & Hrun & Hfs & _).
      * by rewrite Hsame.
      * by rewrite Hsame.
      * exists st'. split; [done|]. by rewrite Hfs, lookup_insert_eq.
  - destruct (handleDeactivate_run E st Hlink) as (st' & Hrun & Hfs & Hev).
    exists st'. split; [done|]. split; [by rewrite Hfs, lookup_delete_eq|].
    intros Hnone. rewrite Hnone in Hev. split; [|done]. by rewrite Hfs, delete_id.
Qed.

Lemma activation_state_machine_witness :
  exists st',
    handleUse offline (Some "0.14.1") (start initialised) = (Val tt, st') /\
    fs st' !! ACTIVE_VERSION_LINK offline
      = Some (Link (Path.join (INSTALL_BASE_DIR offline) "zig-linux-x86_64-0.14.1")).
Proof.
  destruct (activation_state_machine offline (start initialised)) as [H _].
  - left. vm_compute. reflexivity.
  - destruct (H ∅) as [_ Huse]; [vm_compute; reflexivity|].
    apply Huse; vm_compute; reflexivity.
Defined.

(** ** Removal *)


Lemma getAliases_state E st :
  (getAliases E st).2 = record (aliasRead E (fs st)) (fs st) st.
Proof.
  unfold getAliases, aliasRead, try_catch, bind, sys, lift, Fs.readFile.
  destruct (fs st !! ALIASES_FILE E) as [[c| |]|]; simpl; try done.
  destruct (JSON_parse c) as [m|e] eqn:Hp; simpl; [done|].
  apply JSON_parse_raises in Hp. by subst e.
Qed.

Lemma getAliases_ext E st st2 :
  fs st !! ALIASES_FILE E = fs st2 !! ALIASES_FILE E ->
  (getAliases E st).1 = (getAliases E st2).1.
Proof.
  intros Heq. unfold getAliases, try_catch, bind, sys, lift, Fs.readFile.
  rewrite <- Heq. destruct (fs st !! ALIASES_FILE E) as [[c| |]|]; simpl; try done.
  destruct (JSON_parse c) as [m|e] eqn:Hp; simpl; [done|].
  apply JSON_parse_raises in Hp. by subst e.
Qed.




Lemma resolveVersion_found E st tok d :
  (resolveVersion E tok st).1 = Val (Some d) ->
  exists st1,
    resolveVersion E tok st = (Val (Some d), st1) /\
    fs st1 = fs st /\
    events st1 = events st ++
      [aliasRead E (fs st); Call (c_readdir (INSTALL_BASE_DIR E)) None].
Proof.
  intros Hres. destruct (resolveVersion E tok st) as [r st2] eqn:Hrun.
  simpl in Hres. subst r. unfold resolveVersion in Hrun.
  destruct (Js.truthy tok); simpl in Hrun; [|done].
  unfold bind at 1 in Hrun. pose proof (getAliases_state E st) as Hst.
  destruct (getAliases E st) as [[aliases|e] st1]; simpl in Hst; [|done]. subst st1.
  unfold bind at 1, lift in Hrun.
  destruct (lookupAlias E aliases tok) as [found|e]; [|done].
  unfold try_catch, bind, sys, ret in Hrun. cbn [fs record] in Hrun.
  pose proof (readdir_fs (INSTALL_BASE_DIR E) (fs st)) as Hrd.
  destruct (Fs.readdir (INSTALL_BASE_DIR E) (fs st)) as [[dirs|e] f'];
    simpl in Hrd; subst f'; cbn [failure] in Hrun.
  - injection Hrun as Hpick <-. eexists. split; [done|].
    split; [done|]. by rewrite !events_record, <- !app_assoc.
  - destruct (has_code "ENOENT" e); discriminate.
Qed.




Lemma getAliases_json E st m :
  fs st !! ALIASES_FILE E = Some (File (AliasJson m)) -> (getAliases E st).1 = Val (Obj m).
Proof.
  intros H. unfold getAliases, try_catch, bind, sys, lift, Fs.readFile. by rewrite H.
Qed.




(** ** The version pattern *)

Lemma append_cons c s t : String c s +:+ t = String c (s +:+ t).
Proof. reflexivity. Qed.

Lemma append_nil_l t : EmptyString +:+ t = t.
Proof. reflexivity. Qed.

Lemma append_assoc (s t u : string) : (s +:+ t) +:+ u = s +:+ (t +:+ u).
Proof. induction s as [|c s IH]; [done|]. by rewrite !append_cons, IH. Qed.

Lemma digit_run_app s : (digit_run s).1 +:+ (digit_run s).2 = s.
Proof.
  induction s as [|c s IH]; [done|]. simpl.
  destruct (Regex.is_digit c); [|done].
  destruct (digit_run s) as [a r]. simpl in *. by rewrite append_cons, IH.
Qed.

(** Greedy [\d+]: when the continuation accepts what follows the longest
    run, or rejects every string that begins with a digit, the outcome is
    that of the continuation after the longest run. *)
Lemma plus_digit_run k s :
  (is_Some (k (digit_run s).2) \/
   forall c s', Regex.is_digit c = true -> k (String c s') = None) ->
  Regex.plus Regex.Digit s k =
    match (digit_run s).1 with
    | EmptyString => None
    | _ => k (digit_run s).2
    end.
Proof.
  intros Hk. induction s as [|c s IH]; [done|]. simpl in *.
  destruct (Regex.is_digit c) eqn:Hc; [|done].
  destruct (digit_run s) as [a r] eqn:Hrun. simpl in *.
  rewrite (IH Hk). destruct a as [|x a].
  - assert (r = s) as ->.
    { pose proof (digit_run_app s) as H. rewrite Hrun in H. done. }
    done.
  - destruct (k r) as [y|] eqn:Hr; [done|].
    destruct Hk as [[y Hy]|Hk]; [done|].
    destruct s as [|z s]; [done|]. simpl in Hrun.
    destruct (Regex.is_digit z) eqn:Hz; [by rewrite Hk|].
    by inversion Hrun.
Qed.

Lemma digit_not_dot c : Regex.is_digit c = true -> Ascii.eqb c "." = false.
Proof.
  intros Hc. destruct (Ascii.eqb_spec c "."%char) as [->|]; [|done].
  by vm_compute in Hc.
Qed.

Lemma run_version s K :
  (forall x, is_Some (K x)) ->
  Regex.run versionPattern s K =
    match release_at s with
    | Some (_, r5) => Regex.run (Regex.Opt devSuffix) r5 K
    | None => None
    end.
Proof.
  intros HK. unfold versionPattern, release_at. fold devSuffix.
  cbn [Regex.run Regex.test]. rewrite plus_digit_run.
  2:{ right. intros c s' Hc. by rewrite digit_not_dot. }
  destruct (digit_run s) as [a r1]. cbn [fst snd].
  destruct r1 as [|dot1 r2]; [by destruct a|].
  rewrite (plus_digit_run _ r2).
  2:{ right. intros c s' Hc. by rewrite digit_not_dot. }
  destruct (digit_run r2) as [b r3]. cbn [fst snd].
  destruct r3 as [|dot2 r4]; [by destruct a, b, (Ascii.eqb dot1 ".")|].
  rewrite (plus_digit_run _ r4).
  2:{ left. destruct (Regex.run devSuffix _ K); [by eexists|apply HK]. }
  destruct (digit_run r4) as [c r5]. cbn [fst snd].
  by destruct a, b, c, (Ascii.eqb dot1 "."), (Ascii.eqb dot2 ".").
Qed.

Lemma ascii_eqb_sym a b : Ascii.eqb a b = Ascii.eqb b a.
Proof.
  destruct (Ascii.eqb_spec a b) as [->|Hne]; [by rewrite Ascii.eqb_refl|].
  destruct (Ascii.eqb_spec b a); [congruence|done].
Qed.

Lemma run_word_mismatch w r s k :
  Js.startsWith s w = false -> Regex.run (Regex.word w r) s k = None.
Proof.
  revert s. induction w as [|a w IH]; intros s H; [done|].
  simpl in *. destruct s as [|b s]; [done|]. rewrite ascii_eqb_sym.
  destruct (Ascii.eqb a b); [by apply IH|done].
Qed.

Lemma startsWith_app s p q :
  Js.startsWith s (p +:+ q) = true -> Js.startsWith s p = true.
Proof.
  revert s. induction p as [|a p IH]; intros s; [done|].
  rewrite append_cons. simpl. destruct s as [|b s]; [done|].
  destruct (Ascii.eqb a b); [apply IH|done].
Qed.

Lemma includes_prefix s t : Js.startsWith s t = true -> Js.includes s t = true.
Proof. intros H. destruct s; simpl in *; by rewrite H. Qed.

Lemma includes_append p s t : Js.includes s t = true -> Js.includes (p +:+ s) t = true.
Proof.
  intros H. induction p as [|a p IH]; [done|].
  rewrite append_cons. simpl. rewrite IH. apply orb_true_r.
Qed.

Lemma startsWith_self_app t x : Js.startsWith (t +:+ x) t = true.
Proof.
  induction t as [|a t IH]; [done|]. rewrite append_cons. simpl.
  by rewrite Ascii.eqb_refl.
Qed.

(** Without the marker in the string, the suffix of the pattern cannot match
    anywhere inside it. *)
Lemma no_dev_suffix p s K :
  Js.includes (p +:+ s) "-dev" = false ->
  Regex.run (Regex.Opt devSuffix) s K = K s.
Proof.
  intros H. cbn [Regex.run]. unfold devSuffix. rewrite run_word_mismatch; [done|].
  destruct (Js.startsWith s "-dev.") eqn:Hs; [|done].
  rewrite includes_append in H; [done|].
  apply includes_prefix. by apply (startsWith_app s "-dev" ".").
Qed.

Lemma release_at_app s m r : release_at s = Some (m, r) -> s = m +:+ r.
Proof.
  unfold release_at. pose proof (digit_run_app s) as Ha.
  destruct (digit_run s) as [a r1]. destruct r1 as [|dot1 r2]; [done|].
  pose proof (digit_run_app r2) as Hb.
  destruct (digit_run r2) as [b r3]. destruct r3 as [|dot2 r4]; [done|].
  pose proof (digit_run_app r4) as Hc.
  destruct (digit_run r4) as [c r5]. simpl in *.
  destruct (Ascii.eqb_spec dot1 "."%char) as [->|]; [|by rewrite !andb_false_r].
  destruct (Ascii.eqb_spec dot2 "."%char) as [->|];
    [|by rewrite ?andb_false_r; simpl; rewrite ?andb_false_r].
  destruct (Js.truthy a && true && Js.truthy b && true && Js.truthy c); [|done].
  intros H. inversion H; subst. by rewrite !append_assoc.
Qed.

Lemma first_chars_app m r :
  Regex.first_chars (String.length (m +:+ r) - String.length r) (m +:+ r) = m.
Proof.
  rewrite length_append. replace (_ + _ - _) with (String.length m) by lia.
  induction m as [|c m IH]; [by destruct r|]. rewrite append_cons. simpl. by rewrite IH.
Qed.

(** On a string without the marker, the search by the pattern is the scan
    for the first release number. *)
Lemma exec_locate p s :
  Js.includes (p +:+ s) "-dev" = false -> Regex.exec versionPattern s = locate s.
Proof.
  revert p. induction s as [|c s IH]; intros p Hnodev.
  - done.
  - cbn [Regex.exec locate]. unfold Regex.at_head.
    rewrite run_version by (intros; by eexists).
    destruct (release_at (String c s)) as [[m r5]|] eqn:Hrel.
    + pose proof (release_at_app _ _ _ Hrel) as Hs.
      rewrite (no_dev_suffix (p +:+ m)).
      2:{ by rewrite append_assoc, <- Hs. }
      by rewrite Hs, first_chars_app.
    + apply (IH (p +:+ String c EmptyString)).
      by rewrite append_assoc.
Qed.

Lemma digit_run_digits s : only_digits (digit_run s).1 = true.
Proof.
  induction s as [|c s IH]; [done|]. simpl.
  destruct (Regex.is_digit c) eqn:Hc; [|done].
  destruct (digit_run s). simpl in *. by rewrite Hc.
Qed.

Lemma digit_run_only a rest :
  only_digits a = true ->
  digit_run (a +:+ rest) = (a +:+ (digit_run rest).1, (digit_run rest).2).
Proof.
  induction a as [|c a IH]; intros H.
  - rewrite !append_nil_l. by destruct (digit_run rest).
  - simpl in H. apply andb_true_iff in H as [Hc Ha].
    rewrite append_cons. simpl. rewrite Hc, (IH Ha). done.
Qed.

Lemma digit_run_dot rest : digit_run (String "." rest) = (EmptyString, String "." rest).
Proof. reflexivity. Qed.

Lemma release_at_sound s m r : release_at s = Some (m, r) -> is_release m.
Proof.
  unfold release_at.
  pose proof (digit_run_digits s) as Ha.
  destruct (digit_run s) as [a r1]. destruct r1 as [|dot1 r2]; [done|].
  pose proof (digit_run_digits r2) as Hb.
  destruct (digit_run r2) as [b r3]. destruct r3 as [|dot2 r4]; [done|].
  pose proof (digit_run_digits r4) as Hc.
  destruct (digit_run r4) as [c r5]. simpl in *.
  destruct (Js.truthy a) eqn:Hta; [|done].
  destruct (Ascii.eqb dot1 "."); [|done].
  destruct (Js.truthy b) eqn:Htb; [|done].
  destruct (Ascii.eqb dot2 "."); [|done].
  destruct (Js.truthy c) eqn:Htc; [|done]. simpl.
  intros H. inversion H; subst. exists a, b, c. unfold all_digits.
  by rewrite Hta, Htb, Htc, Ha, Hb, Hc.
Qed.

Lemma release_at_complete m post :
  is_release m ->
  release_at (m +:+ post) = Some (m +:+ (digit_run post).1, (digit_run post).2).
Proof.
  intros (a & b & c & Ha & Hb & Hc & ->).
  unfold all_digits in *.
  apply andb_true_iff in Ha as [Hta Ha], Hb as [Htb Hb], Hc as [Htc Hc].
  unfold release_at. rewrite !append_assoc.
  rewrite (digit_run_only a) by done. rewrite append_cons, digit_run_dot. cbn [fst snd].
  rewrite ?append_nil_l, append_empty.
  rewrite (digit_run_only b) by done. rewrite append_cons, digit_run_dot. cbn [fst snd].
  rewrite ?append_nil_l, append_empty.
  rewrite (digit_run_only c) by done.
  assert (Htc' : Js.truthy (c +:+ (digit_run post).1) = true) by (by destruct c).
  rewrite Hta, Htb, Htc'. simpl. by rewrite ?append_assoc.
Qed.

(** [locate] finds a release number, the leftmost one there is, taken as
    long as its start allows. *)
Lemma locate_found s m :
  locate s = Some m ->
  exists pre post,
    s = pre +:+ m +:+ post /\ is_release m /\
    forall pre' m' post',
      s = pre' +:+ m' +:+ post' -> is_release m' ->
      String.length pre <= String.length pre' /\
      (String.length pre' = String.length pre -> String.length m' <= String.length m).
Proof.
  induction s as [|c s IH]; simpl.
  - unfold release_at. simpl. done.
  - destruct (release_at (String c s)) as [[m0 r]|] eqn:Hrel.
    + intros H. inversion H; subst m0. exists EmptyString, r.
      split; [rewrite append_nil_l; by apply release_at_app|].
      split; [by eapply release_at_sound|].
      intros pre' m' post' Hs Hm'. split; [simpl; lia|].
      intros Hlen. destruct pre' as [|x pre']; [|done].
      rewrite append_nil_l in Hs.
      rewrite Hs, (release_at_complete m' post' Hm') in Hrel.
      inversion Hrel; subst. rewrite length_append. lia.
    + intros Hloc. destruct (IH Hloc) as (pre & post & Hs & Hm & Hleft).
      exists (String c pre), post. split; [by rewrite append_cons, <- Hs|].
      split; [done|]. intros pre' m' post' Hs' Hm'.
      destruct pre' as [|x pre'].
      * rewrite append_nil_l in Hs'.
        rewrite Hs', (release_at_complete m' post' Hm') in Hrel. done.
      * rewrite append_cons in Hs'. inversion Hs'; subst x.
        destruct (Hleft pre' m' post') as [Hle Hlong]; [done|done|].
        simpl. split; [lia|]. intros Hlen. apply Hlong. lia.
Qed.

Lemma locate_unfold s :
  locate s =
    match release_at s with
    | Some (m, _) => Some m
    | None => match s with String _ s' => locate s' | EmptyString => None end
    end.
Proof. by destruct s. Qed.

Lemma locate_complete s pre m post :
  s = pre +:+ m +:+ post -> is_release m -> exists m0, locate s = Some m0.
Proof.
  revert s. induction pre as [|c pre IH]; intros s Hs Hm.
  - rewrite append_nil_l in Hs. subst s.
    rewrite locate_unfold, (release_at_complete m post Hm). by eexists.
  - rewrite append_cons in Hs. subst s. simpl.
    destruct (release_at _) as [[m0 r]|]; [by eexists|]. by apply IH.
Qed.

Lemma version_without_marker v pre m post :
  Js.includes v "-dev" = false ->
  v = pre +:+ m +:+ post ->
  is_version m ->
  is_release m.
Proof.
  intros Hnodev Hv [Hm|(r & n & h & _ & _ & _ & ->)]; [done|].
  rewrite !append_assoc, <- (append_assoc pre r) in Hv.
  change ("-dev." +:+ ?x) with ("-dev" +:+ ("." +:+ x)) in Hv.
  rewrite Hv, includes_append in Hnodev; [done|].
  apply includes_prefix, startsWith_self_app.
Qed.

(** C8, as stated, fails: the match taken is the leftmost one, not the
    longest one in the string; and a string with no match at all makes the
    normalisation raise. *)
Lemma normalized_is_not_longest :
  Js.includes "0.9.1 (2021.12.20)" "-dev" = false /\
  normalizeVersion "0.9.1 (2021.12.20)" = Val "0.9.1" /\
  "0.9.1 (2021.12.20)" = "0.9.1 (" +:+ "2021.12.20" +:+ ")" /\
  is_version "2021.12.20" /\
  String.length "0.9.1" < String.length "2021.12.20" /\
  Js.includes "master" "-dev" = false /\
  normalizeVersion "master"
    = Throw (Error "TypeError: Cannot read properties of null (reading '0')").
Proof.
  repeat split; try (vm_compute; reflexivity); try (vm_compute; lia).
  left. exists "2021", "12", "20". repeat split; reflexivity.
Qed.

(** C8 (amended): for a requested version without the [-dev] marker that
    contains a MAJOR.MINOR.PATCH number, the normalised version is the
    leftmost such number in the string, with each of its digit runs taken
    to its full length, and the two candidate file names are built from it. *)
Theorem normalized_release E v :
  Js.includes v "-dev" = false ->
  (exists pre m post, v = pre +:+ m +:+ post /\ is_version m) ->
  exists pre m post,
    normalizeVersion v = Val m /\
    v = pre +:+ m +:+ post /\
    is_release m /\
    (forall pre' m' post',
       v = pre' +:+ m' +:+ post' -> is_version m' ->
       String.length pre <= String.length pre' /\
       (String.length pre' = String.length pre ->
        String.length m' <= String.length m)) /\
    (forall os_target arch_target,
       getPlatformInfo E = Val (os_target, arch_target) ->
       exists pkg,
         getZigPackageInfo E v = Val pkg /\
         potentialFilenames pkg =
           let extension := if String.eqb os_target "windows" then "zip" else "tar.xz" in
           [ "zig-" +:+ os_target +:+ "-" +:+ arch_target +:+ "-" +:+ m
               +:+ "." +:+ extension;
             "zig-" +:+ arch_target +:+ "-" +:+ os_target +:+ "-" +:+ m
               +:+ "." +:+ extension ]).
Proof.
  intros Hnodev (pre0 & m0 & post0 & Hv0 & Hm0).
  pose proof (version_without_marker v pre0 m0 post0 Hnodev Hv0 Hm0) as Hr0.
  destruct (locate_complete v pre0 m0 post0 Hv0 Hr0) as [m Hloc].
  destruct (locate_found v m Hloc) as (pre & post & Hv & Hm & Hleft).
  assert (Hnorm : normalizeVersion v = Val m).
  { unfold normalizeVersion. rewrite Hnodev. simpl.
    rewrite (exec_locate EmptyString v) by done. by rewrite Hloc. }
  exists pre, m, post. split; [done|]. split; [done|]. split; [done|]. split.
  - intros pre' m' post' Hv' Hm'. apply (Hleft pre' m' post' Hv').
    by apply (version_without_marker v pre' m' post').
  - intros os_target arch_target Hplat. unfold getZigPackageInfo.
    rewrite Hplat, Hnorm. eexists. split; [reflexivity|]. done.
Qed.

Lemma normalized_release_witness :
  exists pre m post,
    normalizeVersion " v0.14.1 " = Val m /\
    " v0.14.1 " = pre +:+ m +:+ post /\
    is_release m.
Proof.
  destruct (normalized_release offline " v0.14.1 ") as (pre & m & post & H1 & H2 & H3 & _).
  - vm_compute. reflexivity.
  - exists " v", "0.14.1", " ". split; [reflexivity|]. left.
    exists "0", "14", "1". repeat split; reflexivity.
  - exists pre, m, post. repeat split; assumption.
Defined.

(** * Further properties of the script *)

(** ** Resolution of names *)

Lemma pickDir_listed E dirs t d :
  pickDir E dirs t = Some d -> d ∈ dirs /\ Js.includes d (textOf E t) = true.
Proof.
  unfold pickDir. set (matching := List.filter _ dirs).
  assert (Hin : forall x, x ∈ matching -> x ∈ dirs /\ Js.includes x (textOf E t) = true).
  { intros x Hx. apply list_elem_of_In, filter_In in Hx as [Hx Hi].
    split; [by apply list_elem_of_In|done]. }
  destruct (Nat.eqb (length matching) 1).
  - destruct matching as [|x l]; [done|]. simpl. intros H. inversion H; subst.
    apply Hin. by left.
  - destruct (listed matching t) eqn:Harr.
    + intros H. inversion H; subst. destruct t as [s| |]; try done.
      by apply Hin, arr_includes_spec.
    + destruct matching as [|x l]; [done|]. simpl.
      destruct (Js.truthy x); [|done]. intros H. inversion H; subst. apply Hin. by left.
Qed.

Lemma pickDir_first E dirs t x rest :
  List.filter (fun dir => Js.includes dir (textOf E t)) dirs = x :: rest ->
  rest = [] \/ listed (x :: rest) t = false ->
  x <> EmptyString ->
  pickDir E dirs t = Some x.
Proof.
  intros Hm Hcase Hx. unfold pickDir. rewrite Hm.
  destruct Hcase as [->|Hnot]; [done|].
  destruct rest as [|y l]; [done|]. cbn [length Nat.eqb].
  rewrite Hnot. simpl. by destruct x.
Qed.

(** X1: a name bound by an alias to an installed directory resolves to that
    directory. *)
Theorem resolve_alias_target E st tok d dirs m :
  (getAliases E st).1 = Val (Obj m) ->
  m !! tok = Some d ->
  tok <> EmptyString ->
  d <> EmptyString ->
  (Fs.readdir (INSTALL_BASE_DIR E) (fs st)).1 = Val dirs ->
  d ∈ dirs ->
  (resolveVersion E tok st).1 = Val (Some d).
Proof.
  intros Hal Hm Htok Hd Hrd Hin.
  rewrite (resolveVersion_value E st tok m Hal), Hrd.
  unfold alias_of, property. rewrite Hm. destruct tok; [done|]. destruct d; [done|]. simpl.
  by rewrite pickDir_exact.
Qed.

Lemma resolve_alias_target_witness :
  (resolveVersion offline "stable" (start active_and_aliased)).1
    = Val (Some "zig-linux-x86_64-0.14.1").
Proof.
  apply (resolve_alias_target offline (start active_and_aliased) "stable"
           "zig-linux-x86_64-0.14.1"
           ["zig-linux-x86_64-0.14.1"; "zig-linux-x86_64-0.13.0"]
           {[ "stable" := "zig-linux-x86_64-0.14.1"; "old" := "zig-linux-x86_64-0.13.0" ]}).
  - vm_compute. reflexivity.
  - vm_compute. reflexivity.
  - discriminate.
  - discriminate.
  - vm_compute. reflexivity.
  - apply list_elem_of_In. simpl. auto.
Defined.

(** What resolves was read from the alias store and the installation
    root. *)
Lemma resolved_from E st tok d :
  (resolveVersion E tok st).1 = Val (Some d) ->
  exists aliases found dirs,
    (getAliases E st).1 = Val aliases /\
    lookupAlias E aliases tok = Val found /\
    (Fs.readdir (INSTALL_BASE_DIR E) (fs st)).1 = Val dirs /\
    pickDir E dirs (default (Js.Str tok) found) = Some d.
Proof.
  unfold resolveVersion. destruct (Js.truthy tok); simpl; [|done].
  unfold bind at 1. pose proof (getAliases_fs E st) as Hfs.
  destruct (getAliases E st) as [[aliases|e] st1]; simpl in *; [|done].
  unfold bind at 1, lift.
  destruct (lookupAlias E aliases tok) as [found|e] eqn:Hget; [|done].
  unfold bind, try_catch, sys, ret. rewrite Hfs.
  destruct (Fs.readdir (INSTALL_BASE_DIR E) (fs st)) as [[dirs|e] f']; simpl.
  - intros H. exists aliases, found, dirs. repeat split; congruence.
  - by destruct (has_code "ENOENT" e).
Qed.

(** X2: whatever resolves is a name listed in the installation root that
    contains the target, the token or what its alias stands for, as a
    substring. *)
Theorem resolved_name_is_listed E st tok d :
  (resolveVersion E tok st).1 = Val (Some d) ->
  exists aliases found dirs,
    (getAliases E st).1 = Val aliases /\
    lookupAlias E aliases tok = Val found /\
    (Fs.readdir (INSTALL_BASE_DIR E) (fs st)).1 = Val dirs /\
    d ∈ dirs /\
    Js.includes d (textOf E (default (Js.Str tok) found)) = true.
Proof.
  intros Hres.
  destruct (resolved_from E st tok d Hres) as (aliases & found & dirs & Hal & Hget & Hrd & Hpick).
  exists aliases, found, dirs. apply pickDir_listed in Hpick. tauto.
Qed.

Lemma resolved_name_is_listed_witness :
  exists aliases found dirs,
    (getAliases offline (start nested_names)).1 = Val aliases /\
    lookupAlias offline aliases "14.1" = Val found /\
    (Fs.readdir (INSTALL_BASE_DIR offline) (fs (start nested_names))).1 = Val dirs /\
    "zig-0.14.1" ∈ dirs /\
    Js.includes "zig-0.14.1" (textOf offline (default (Js.Str "14.1") found)) = true.
Proof.
  apply (resolved_name_is_listed offline (start nested_names) "14.1" "zig-0.14.1").
  vm_compute. reflexivity.
Defined.

(** X3: with an alias store of strings, a partial name resolves to the only
    listed name that contains the text of its target, and, when several
    contain it and the target is not one of them, to the first of them in
    the order of the directory listing.  The target is what the lookup of
    the token in the alias store gives, an entry or what the object
    inherits under that name, and the token itself when that is nothing. *)
Theorem resolve_partial_name E st tok m dirs x rest :
  tok <> EmptyString ->
  (getAliases E st).1 = Val (Obj m) ->
  (Fs.readdir (INSTALL_BASE_DIR E) (fs st)).1 = Val dirs ->
  List.filter
    (fun dir => Js.includes dir (textOf E (default (Js.Str tok) (alias_of m tok))))
    dirs = x :: rest ->
  rest = [] \/ listed (x :: rest) (default (Js.Str tok) (alias_of m tok)) = false ->
  x <> EmptyString ->
  (resolveVersion E tok st).1 = Val (Some x).
Proof.
  intros Htok Hal Hrd Hm Hcase Hx.
  rewrite (resolveVersion_value E st tok m Hal), Hrd.
  destruct tok; [done|]. simpl (Js.truthy _). cbv iota.
  by rewrite (pickDir_first E dirs _ x rest Hm Hcase Hx).
Qed.

Lemma resolve_partial_name_witness :
  (resolveVersion offline "0.1" (start nested_names)).1 = Val (Some "zig-0.14").
Proof.
  apply (resolve_partial_name offline (start nested_names) "0.1" ∅
           ["zig-0.14"; "zig-0.14.1"] "zig-0.14" ["zig-0.14.1"]).
  - discriminate.
  - vm_compute. reflexivity.
  - vm_compute. reflexivity.
  - vm_compute. reflexivity.
  - right. vm_compute. reflexivity.
  - discriminate.
Defined.

(** ** The alias store *)

Lemma entries_elem dir f d :
  d ∈ Fs.entries dir f <-> exists k n, f !! k = Some n /\ Fs.entry_of dir k = Some d.
Proof.
  unfold Fs.entries. rewrite list_elem_of_omap. split.
  - intros (k & Hk & Hd). apply list_elem_of_In, in_map_iff in Hk as ([k' n] & <- & Hin).
    exists k', n. split; [|done]. apply elem_of_map_to_list. by apply list_elem_of_In.
  - intros (k & n & Hk & Hd). exists k. split; [|done].
    apply list_elem_of_In, in_map_iff. exists (k, n). split; [done|].
    apply list_elem_of_In. by apply elem_of_map_to_list.
Qed.

Lemma ALIASES_dirname E : Path.dirname (ALIASES_FILE E) = ZVM_DIR E.
Proof. unfold ALIASES_FILE, Path.join, Path.dirname. simpl. apply removelast_last. Qed.

Lemma ALIASES_not_entry E : Fs.entry_of (INSTALL_BASE_DIR E) (ALIASES_FILE E) = None.
Proof.
  unfold Fs.entry_of. rewrite ALIASES_dirname.
  destruct (ALIASES_FILE E); [done|].
  destruct (decide _) as [Heq|]; [|done].
  apply (f_equal (@length string)) in Heq. unfold INSTALL_BASE_DIR, Path.join in Heq.
  simpl in Heq. rewrite length_app in Heq. simpl in Heq. lia.
Qed.

Lemma BASE_not_ALIASES E : INSTALL_BASE_DIR E <> ALIASES_FILE E.
Proof.
  unfold ALIASES_FILE, INSTALL_BASE_DIR, ZVM_DIR, Path.join. simpl.
  intros H. by apply app_inv_head in H.
Qed.

(** Writing the alias file keeps the listing of the installation root, up
    to the order of its names. *)
Lemma readdir_after_alias_write E f c dirs d :
  (Fs.readdir (INSTALL_BASE_DIR E) f).1 = Val dirs ->
  d ∈ dirs ->
  exists dirs',
    (Fs.readdir (INSTALL_BASE_DIR E) (<[ALIASES_FILE E := File c]> f)).1 = Val dirs' /\
    d ∈ dirs'.
Proof.
  unfold Fs.readdir. rewrite lookup_insert_ne by (intros H; by apply (BASE_not_ALIASES E)).
  destruct (f !! INSTALL_BASE_DIR E) as [[| |]|]; try done. simpl.
  intros H Hd. inversion H; subst. eexists. split; [done|].
  apply entries_elem in Hd as (k & n & Hk & He). apply entries_elem.
  exists k, n. split; [|done]. rewrite lookup_insert_ne; [done|].
  intros <-. by rewrite ALIASES_not_entry in He.
Qed.

Lemma writeFile_aliases E f c i :
  (forall j, f !! ALIASES_FILE E <> Some (Dir j)) ->
  f !! ZVM_DIR E = Some (Dir i) ->
  Fs.writeFile (ALIASES_FILE E) (Val c) f = (Val tt, <[ALIASES_FILE E := File c]> f).
Proof.
  intros Hnodir Hzvm. unfold Fs.writeFile.
  destruct (f !! ALIASES_FILE E) as [[| j |]|] eqn:Hl; try done.
  - by destruct (Hnodir j).
  - by rewrite (parent_ok_intro f _ i) by (by rewrite ALIASES_dirname).
Qed.

Lemma getAliases_not_dir E st (m : store) j :
  (getAliases E st).1 = Val m -> fs st !! ALIASES_FILE E <> Some (Dir j).
Proof.
  unfold getAliases, try_catch, bind, sys, lift, Fs.readFile.
  destruct (fs st !! ALIASES_FILE E) as [[c| |]|]; simpl; done.
Qed.

Lemma resolveVersion_same_fs E st1 st2 tok :
  fs st1 = fs st2 -> (resolveVersion E tok st1).1 = (resolveVersion E tok st2).1.
Proof.
  intros Hfs. unfold resolveVersion. destruct (Js.truthy tok); simpl; [|done].
  unfold bind.
  pose proof (getAliases_ext E st1 st2 ltac:(by rewrite Hfs)) as Hv.
  pose proof (getAliases_fs E st1) as H1. pose proof (getAliases_fs E st2) as H2.
  destruct (getAliases E st1) as [r1 s1], (getAliases E st2) as [r2 s2].
  simpl in *. subst r2. destruct r1 as [m|e]; [|done].
  unfold lift. destruct (lookupAlias E m tok) as [found|e]; [|done].
  unfold try_catch, sys, ret. rewrite H1, H2, Hfs.
  destruct (Fs.readdir (INSTALL_BASE_DIR E) (fs st2)) as [[dirs|e] f']; simpl; [done|].
  by destruct (has_code "ENOENT" e).
Qed.

Lemma resolved_listed E st tok d :
  (resolveVersion E tok st).1 = Val (Some d) ->
  exists dirs,
    (Fs.readdir (INSTALL_BASE_DIR E) (fs st)).1 = Val dirs /\
    d ∈ dirs.
Proof.
  intros Hres.
  destruct (resolved_from E st tok d Hres) as (aliases & found & dirs & _ & _ & Hrd & Hpick).
  exists dirs. apply pickDir_listed in Hpick. tauto.
Qed.

Lemma assign_insert own key value :
  key <> "__proto__" -> assign own key value = <[key := value]> own.
Proof.
  intros Hkey. unfold assign.
  destruct (String.eqb_spec key "__proto__") as [->|_]; [done|]. done.
Qed.

(** X4: with an alias store of strings, after [zvm alias name version] has
    succeeded for a name other than [__proto__], [name] is bound in the
    alias store to the directory that [version] resolved to, every other
    alias is as before, nothing but the alias file has changed, and [name]
    resolves to that directory. *)
Theorem alias_then_resolve E st alias version d i m :
  alias <> EmptyString ->
  alias <> "__proto__" ->
  version <> "--unset" ->
  (getAliases E st).1 = Val (Obj m) ->
  (resolveVersion E version st).1 = Val (Some d) ->
  d <> EmptyString ->
  fs st !! ZVM_DIR E = Some (Dir i) ->
  exists st',
    handleAlias E (Some alias) (Some version) st = (Val tt, st') /\
    (getAliases E st').1 = Val (Obj (<[alias := d]> m)) /\
    (forall q, q <> ALIASES_FILE E -> fs st' !! q = fs st !! q) /\
    (resolveVersion E alias st').1 = Val (Some d).
Proof.
  intros Halias Hproto Hunset Hal Hres Hd Hzvm.
  assert (Hver : Js.truthy version = true).
  { unfold resolveVersion in Hres. by destruct (Js.truthy version). }
  destruct (resolved_listed E st version d Hres) as (dirs & Hrd & Hin).
  unfold handleAlias. simpl (Js.truthy_opt _).
  assert (Js.truthy alias = true) as -> by (by destruct alias).
  rewrite Hver. cbn [negb default]. cbv iota.
  unfold bind at 1. pose proof (getAliases_state E st) as Hst.
  pose proof (fun j => getAliases_not_dir E st (Obj m) j Hal) as Hnodir.
  assert (Hal0 := Hal).
  destruct (getAliases E st) as [r st1]. simpl in Hal, Hst. subst r st1.
  rewrite bool_decide_eq_false_2 by congruence.
  unfold bind at 1.
  set (st1 := record _ _ st).
  assert (Hres1 : (resolveVersion E version st1).1 = Val (Some d)).
  { rewrite <- Hres. by apply resolveVersion_same_fs. }
  destruct (resolveVersion_found E st1 version d Hres1) as (st2 & Hrun & Hfs2 & _).
  unfold id. rewrite Hrun. simpl (Js.truthy_opt _).
  assert (Js.truthy d = true) as -> by (by destruct d).
  cbn [negb default]. cbv iota.
  unfold bind at 1, lift. cbn [assignAlias]. rewrite assign_insert by done.
  unfold bind, sys, logSuccess, log. rewrite Hfs2. unfold st1. cbn [fs record].
  rewrite (writeFile_aliases E (fs st) _ i Hnodir Hzvm). cbn [failure fs record].
  eexists. split; [reflexivity|]. cbn [fs record].
  split; [apply getAliases_json; cbn [fs record]; by rewrite lookup_insert_eq|].
  split; [intros q Hq; by rewrite lookup_insert_ne|].
  destruct (readdir_after_alias_write E (fs st) (AliasJson (<[alias:=d]> m)) dirs d Hrd Hin)
    as (dirs' & Hrd' & Hin').
  erewrite resolveVersion_value.
  2:{ apply getAliases_json. cbn [fs record]. by rewrite lookup_insert_eq. }
  cbn [fs record]. rewrite Hrd'. unfold alias_of, property. rewrite lookup_insert_eq.
  destruct alias; [done|]. destruct d; [done|]. simpl. by rewrite pickDir_exact.
Qed.

Lemma alias_then_resolve_witness :
  exists st',
    handleAlias offline (Some "stable") (Some "0.14.1") (start initialised) = (Val tt, st') /\
    (getAliases offline st').1 = Val (Obj (<["stable" := "zig-linux-x86_64-0.14.1"]> ∅)) /\
    (forall q, q <> ALIASES_FILE offline -> fs st' !! q = fs (start initialised) !! q) /\
    (resolveVersion offline "stable" st').1 = Val (Some "zig-linux-x86_64-0.14.1").
Proof.
  apply (alias_then_resolve offline (start initialised) "stable" "0.14.1"
           "zig-linux-x86_64-0.14.1" ∅ ∅).
  - discriminate.
  - discriminate.
  - discriminate.
  - vm_compute. reflexivity.
  - vm_compute. reflexivity.
  - discriminate.
  - vm_compute. reflexivity.
Defined.

(** X5: with an alias store of strings, [zvm alias --unset name] for a name
    that the lookup in the store finds, an entry of the file or a name that
    every object inherits, writes the alias file without an entry of that
    name and reports the name as unset: every other alias and every other
    file is as before.  For any other name (also one bound to the empty
    string) it reports the name as not found and writes nothing. *)
Theorem unset_alias E st alias m i :
  alias <> EmptyString ->
  (getAliases E st).1 = Val (Obj m) ->
  fs st !! ZVM_DIR E = Some (Dir i) ->
  exists st',
    handleAlias E (Some alias) (Some "--unset") st = (Val tt, st') /\
    match alias_of m alias with
    | Some _ =>
        (getAliases E st').1 = Val (Obj (delete alias m)) /\
        (forall q, q <> ALIASES_FILE E -> fs st' !! q = fs st !! q) /\
        events st' = events st ++
          [aliasRead E (fs st);
           Call (c_writeFile (ALIASES_FILE E)) None;
           Log Success ("Unset alias " +:+ dq +:+ alias +:+ dq +:+ ".")]
    | None =>
        fs st' = fs st /\
        events st' = events st ++
          [aliasRead E (fs st);
           Log Failure ("Alias " +:+ dq +:+ alias +:+ dq +:+ " not found.")]
    end.
Proof.
  intros Halias Hal Hzvm. unfold handleAlias. simpl (Js.truthy_opt (Some alias)).
  assert (Js.truthy alias = true) as -> by (by destruct alias).
  cbn [negb default]. cbv iota. unfold id, bind at 1.
  pose proof (getAliases_state E st) as Hst.
  pose proof (fun j => getAliases_not_dir E st (Obj m) j Hal) as Hnodir.
  destruct (getAliases E st) as [r st1]. simpl in Hal, Hst. subst r st1.
  rewrite bool_decide_eq_true_2 by done.
  unfold bind at 1, lift. cbn [lookupAlias].
  destruct (alias_of m alias) as [v|] eqn:Hv.
  - unfold bind at 1, lift. cbn [deleteAlias].
    unfold bind, sys, logSuccess, log. cbn [fs record].
    rewrite (writeFile_aliases E (fs st) _ i Hnodir Hzvm).
    cbn [failure fs record]. eexists. split; [reflexivity|]. cbn [fs record].
    split; [apply getAliases_json; cbn [fs record]; by rewrite lookup_insert_eq|].
    split; [intros q Hq; by rewrite lookup_insert_ne|].
    rewrite !events_record. by rewrite <- !app_assoc.
  - unfold logError, log. eexists. split; [reflexivity|]. cbn [fs record].
    split; [done|]. rewrite !events_record. by rewrite <- !app_assoc.
Qed.

Lemma unset_alias_witness :
  exists st',
    handleAlias offline (Some "old") (Some "--unset") (start active_and_aliased)
      = (Val tt, st') /\
    (getAliases offline st').1 = Val (Obj {[ "stable" := "zig-linux-x86_64-0.14.1" ]}).
Proof.
  destruct (unset_alias offline (start active_and_aliased) "old"
              {[ "stable" := "zig-linux-x86_64-0.14.1"; "old" := "zig-linux-x86_64-0.13.0" ]}
              ∅)
    as (st' & Hrun & Hafter).
  - discriminate.
  - vm_compute. reflexivity.
  - vm_compute. reflexivity.
  - exists st'. split; [exact Hrun|].
    change (alias_of _ "old") with (Some (Js.Str "zig-linux-x86_64-0.13.0")) in Hafter.
    destruct Hafter as (Hal & _). rewrite Hal. vm_compute. reflexivity.
Defined.

(** X6: a name that resolves to nothing makes [use], [remove] and [alias]
    report it and return: the file system is as before. *)
Theorem unknown_version_changes_nothing E st tok :
  tok <> EmptyString ->
  (resolveVersion E tok st).1 = Val None ->
  (exists st',
     handleUse E (Some tok) st = (Val tt, st') /\ fs st' = fs st /\
     events st' = events (resolveVersion E tok st).2 ++
       [Log Failure ("Version " +:+ dq +:+ tok +:+ dq +:+ " is not installed.");
        Log Info ("To install it, run: zvm install " +:+ tok)]) /\
  (exists st',
     handleRemove E (Some tok) st = (Val tt, st') /\ fs st' = fs st /\
     events st' = events (resolveVersion E tok st).2 ++
       [Log Failure ("Version " +:+ dq +:+ tok +:+ dq +:+ " not found.")]) /\
  (forall alias,
     alias <> EmptyString -> tok <> "--unset" ->
     exists st',
       handleAlias E (Some alias) (Some tok) st = (Val tt, st') /\ fs st' = fs st /\
       events st' = events (resolveVersion E tok (getAliases E st).2).2 ++
         [Log Failure ("Version " +:+ dq +:+ tok +:+ dq +:+ " not found.")]).
Proof.
  intros Htok Hres.
  assert (Ht : Js.truthy tok = true) by (by destruct tok).
  pose proof (resolveVersion_fs E st tok) as Hfs.
  split; [|split].
  - unfold handleUse. simpl (Js.truthy_opt (Some tok)). rewrite Ht. cbn [negb].
    unfold bind, ret. destruct (resolveVersion E tok st) as [r st1].
    simpl in Hres, Hfs. subst r. simpl. unfold logError, logInfo, log.
    eexists. split; [reflexivity|]. cbn [fs record]. split; [done|].
    rewrite !events_record. by rewrite <- !app_assoc.
  - unfold handleRemove. simpl (Js.truthy_opt (Some tok)). rewrite Ht. cbn [negb default].
    unfold id, try_catch, bind. destruct (resolveVersion E tok st) as [r st1].
    simpl in Hres, Hfs. subst r. simpl. unfold logError, log.
    eexists. split; [reflexivity|]. cbn [fs record]. split; [done|].
    by rewrite !events_record.
  - intros alias Halias Hunset. unfold handleAlias. simpl (Js.truthy_opt _).
    assert (Js.truthy alias = true) as -> by (by destruct alias).
    rewrite Ht. cbn [negb default]. cbv iota. unfold id, bind.
    pose proof (getAliases_fs E st) as Hfs1.
    assert (Hal : exists m, (getAliases E st).1 = Val m).
    { unfold resolveVersion in Hres. rewrite Ht in Hres. simpl in Hres.
      unfold bind in Hres. destruct (getAliases E st) as [[m|e] s]; [by exists m|done]. }
    destruct Hal as [m Hal].
    assert (Hres1 : (resolveVersion E tok (getAliases E st).2).1 = Val None).
    { rewrite <- Hres. by apply resolveVersion_same_fs. }
    pose proof (resolveVersion_fs E (getAliases E st).2 tok) as Hfs2.
    destruct (getAliases E st) as [r st1]. simpl in Hal, Hfs1, Hres1, Hfs2 |- *. subst r.
    rewrite bool_decide_eq_false_2 by congruence.
    destruct (resolveVersion E tok st1) as [r st2]. simpl in Hres1, Hfs2 |- *. subst r.
    simpl. unfold logError, log. eexists. split; [reflexivity|]. cbn [fs record].
    split; [congruence|]. by rewrite !events_record.
Qed.

Lemma unknown_version_changes_nothing_witness :
  exists st',
    handleUse offline (Some "0.12.0") (start initialised) = (Val tt, st') /\
    fs st' = fs (start initialised).
Proof.
  destruct (unknown_version_changes_nothing offline (start initialised) "0.12.0")
    as ((st' & Hrun & Hfs & _) & _).
  - discriminate.
  - vm_compute. reflexivity.
  - exists st'. split; [exact Hrun|exact Hfs].
Defined.

(** ** The version file of a project *)

Lemma readFile_fs p f : (Fs.readFile p f).2 = f.
Proof. unfold Fs.readFile. by destruct (f !! p) as [[| |]|]. Qed.

Lemma dirname_take (dir : path) n :
  S n <= length dir -> Path.dirname (take (S n) dir) = take n dir.
Proof.
  intros Hn. unfold Path.dirname. rewrite removelast_firstn_len.
  rewrite length_take, take_take. f_equal. lia.
Qed.

Lemma findFrom_step fuel dir st :
  findFrom (S fuel) dir st =
    let filePath := Path.join dir ".zig-version" in
    let r := (Fs.readFile filePath (fs st)).1 in
    let st1 := record (Call (c_readFile filePath) (failure r)) (fs st) st in
    if missing r then
      if decide (Path.dirname dir = dir) then (Val None, st1)
      else findFrom fuel (Path.dirname dir) st1
    else (foundBy r, st1).
Proof.
  cbn [findFrom]. unfold bind at 1, try_catch, bind, sys, ret, throw.
  pose proof (readFile_fs (Path.join dir ".zig-version") (fs st)) as Hfs.
  destruct (Fs.readFile (Path.join dir ".zig-version") (fs st)) as [[c|e] f].
  - simpl in Hfs. subst f. reflexivity.
  - simpl in Hfs. subst f. cbn [failure missing foundBy fst].
    destruct (has_code "ENOENT" e); simpl; [|reflexivity].
    by destruct (decide (Path.dirname dir = dir)).
Qed.

(** The search walks up from a directory [n] levels, past ancestors whose
    read fails with [ENOENT], and stops at the first read that does not. *)
Lemma findFrom_run n : forall (dir : path) fuel st,
  n < fuel -> n <= length dir ->
  missing (Fs.readFile (Path.join (take (length dir - n) dir) ".zig-version") (fs st)).1
    = false ->
  (forall j, length dir - n < j <= length dir ->
     missing (Fs.readFile (Path.join (take j dir) ".zig-version") (fs st)).1 = true) ->
  exists st',
    findFrom fuel dir st =
      (foundBy (Fs.readFile (Path.join (take (length dir - n) dir) ".zig-version") (fs st)).1,
       st') /\
    fs st' = fs st.
Proof.
  induction n as [|n IH]; intros dir fuel st Hfuel Hlen Hhit Hmiss.
  - destruct fuel as [|fuel]; [lia|]. rewrite findFrom_step. cbv zeta.
    rewrite Nat.sub_0_r, firstn_all in Hhit |- *. rewrite Hhit.
    eexists. split; [reflexivity|done].
  - destruct fuel as [|fuel]; [lia|]. rewrite findFrom_step. cbv zeta.
    pose proof (Hmiss (length dir) ltac:(lia)) as Hm. rewrite firstn_all in Hm.
    rewrite Hm.
    assert (Hdn : Path.dirname dir = take (length dir - 1) dir).
    { unfold Path.dirname. rewrite removelast_firstn_len. f_equal. lia. }
    destruct (decide (Path.dirname dir = dir)) as [Heq|_].
    { apply (f_equal (@length string)) in Heq. rewrite Hdn, length_take in Heq. lia. }
    set (st1 := record _ _ st).
    assert (Hl : length (Path.dirname dir) = length dir - 1)
      by (rewrite Hdn, length_take; lia).
    assert (Htk : forall j, j <= length dir - 1 -> take j (Path.dirname dir) = take j dir).
    { intros j Hj. rewrite Hdn, take_take. f_equal. lia. }
    destruct (IH (Path.dirname dir) fuel st1) as (st' & Hrun & Hfs).
    + lia.
    + lia.
    + rewrite Hl, Htk by lia. replace (length dir - 1 - n) with (length dir - S n) by lia.
      exact Hhit.
    + intros j Hj. rewrite Hl in Hj. rewrite Htk by lia. apply Hmiss. lia.
    + rewrite Hl, Htk in Hrun by lia.
      replace (length dir - 1 - n) with (length dir - S n) in Hrun by lia.
      exists st'. split; [exact Hrun|]. by rewrite Hfs.
Qed.

Lemma findFrom_none n : forall (dir : path) fuel st,
  n < fuel -> n = length dir ->
  (forall j, j <= length dir ->
     missing (Fs.readFile (Path.join (take j dir) ".zig-version") (fs st)).1 = true) ->
  exists st', findFrom fuel dir st = (Val None, st') /\ fs st' = fs st.
Proof.
  induction n as [|n IH]; intros dir fuel st Hfuel Hlen Hmiss.
  - destruct fuel as [|fuel]; [lia|]. rewrite findFrom_step. cbv zeta.
    destruct dir; [|done]. pose proof (Hmiss 0 ltac:(simpl; lia)) as Hm.
    change (take 0 []) with (@nil string) in Hm. rewrite Hm.
    simpl. eexists. split; [reflexivity|done].
  - destruct fuel as [|fuel]; [lia|]. rewrite findFrom_step. cbv zeta.
    pose proof (Hmiss (length dir) ltac:(lia)) as Hm. rewrite firstn_all in Hm.
    rewrite Hm.
    assert (Hdn : Path.dirname dir = take (length dir - 1) dir).
    { unfold Path.dirname. rewrite removelast_firstn_len. f_equal. lia. }
    destruct (decide (Path.dirname dir = dir)) as [Heq|_].
    { apply (f_equal (@length string)) in Heq. rewrite Hdn, length_take in Heq. lia. }
    set (st1 := record _ _ st).
    assert (Hl : length (Path.dirname dir) = length dir - 1)
      by (rewrite Hdn, length_take; lia).
    destruct (IH (Path.dirname dir) fuel st1) as (st' & Hrun & Hfs).
    + lia.
    + lia.
    + intros j Hj. rewrite Hl in Hj. rewrite Hdn, take_take.
      replace (j `min` (length dir - 1)) with j by lia. apply Hmiss. lia.
    + exists st'. split; [exact Hrun|]. by rewrite Hfs.
Qed.

Lemma versionFile_read E st j c :
  fs st !! versionFileAt E j = Some (File c) ->
  (Fs.readFile (versionFileAt E j) (fs st)).1 = Val c.
Proof. unfold Fs.readFile. by intros ->. Qed.

Lemma versionFile_missing E st j :
  fs st !! versionFileAt E j = None ->
  missing (Fs.readFile (versionFileAt E j) (fs st)).1 = true.
Proof. unfold Fs.readFile. by intros ->. Qed.

(** X7: the search for a [.zig-version] file returns the text of the file of
    the nearest directory that has one, from the working directory
    upwards, without the white space and the line ends (of Unicode, as
    [trim] takes them) at its two ends, whatever the directories above it
    hold; it changes no file. *)
Theorem nearest_version_file E st k s :
  k <= length (cwd E) ->
  fs st !! versionFileAt E k = Some (File (Text s)) ->
  (forall j, k < j <= length (cwd E) -> fs st !! versionFileAt E j = None) ->
  exists st',
    findLocalVersionFile E st = (Val (Some (Js.trim s)), st') /\
    fs st' = fs st.
Proof.
  intros Hk Hfile Hnone. unfold findLocalVersionFile.
  destruct (findFrom_run (length (cwd E) - k) (cwd E) (S (length (cwd E))) st)
    as (st' & Hrun & Hfs).
  - lia.
  - lia.
  - replace (length (cwd E) - (length (cwd E) - k)) with k by lia.
    fold (versionFileAt E k). by rewrite (versionFile_read E st k (Text s)).
  - intros j Hj. apply versionFile_missing, Hnone. lia.
  - replace (length (cwd E) - (length (cwd E) - k)) with k in Hrun by lia.
    fold (versionFileAt E k) in Hrun. rewrite (versionFile_read E st k (Text s) Hfile) in Hrun.
    cbn [foundBy text_of] in Hrun.
    by exists st'.
Qed.

Lemma nearest_version_file_witness :
  exists st',
    findLocalVersionFile offline (start pinned) = (Val (Some "0.14.1"), st') /\
    fs st' = fs (start pinned).
Proof.
  apply (nearest_version_file offline (start pinned) 2 ("0.14.1" +:+ nl)).
  - simpl. lia.
  - vm_compute. reflexivity.
  - intros j Hj. simpl in Hj. assert (j = 3) as -> by lia. vm_compute. reflexivity.
Defined.

(** X8: [zvm use] without an argument takes the name from the nearest
    [.zig-version] file, its text without the white space and the line
    ends at its two ends, and goes on as [zvm use] with that name; a
    nearest file that holds nothing else than white space stops the search
    and is reported as no file found. *)
Theorem use_reads_version_file E st k s :
  k <= length (cwd E) ->
  fs st !! versionFileAt E k = Some (File (Text s)) ->
  (forall j, k < j <= length (cwd E) -> fs st !! versionFileAt E j = None) ->
  exists st1,
    fs st1 = fs st /\
    let target := Js.trim s in
    handleUse E None st =
      if Js.truthy target then
        handleUse E (Some target)
          (record (Log Info ("Found .zig-version file, attempting to use: " +:+ target))
                  (fs st1) st1)
      else
        (Val tt,
         record (Log Failure "No version specified and no .zig-version file found in the current directory or parents.")
                (fs st1) st1).
Proof.
  intros Hk Hfile Hnone.
  destruct (findFrom_run (length (cwd E) - k) (cwd E) (S (length (cwd E))) st)
    as (st1 & Hrun & Hfs).
  - lia.
  - lia.
  - replace (length (cwd E) - (length (cwd E) - k)) with k by lia.
    fold (versionFileAt E k). by rewrite (versionFile_read E st k (Text s)).
  - intros j Hj. apply versionFile_missing, Hnone. lia.
  - replace (length (cwd E) - (length (cwd E) - k)) with k in Hrun by lia.
    fold (versionFileAt E k) in Hrun. rewrite (versionFile_read E st k (Text s) Hfile) in Hrun.
    cbn [foundBy text_of] in Hrun.
    exists st1. split; [done|]. cbv zeta. unfold handleUse at 1.
    simpl (Js.truthy_opt None). cbn [negb]. unfold bind at 1. unfold bind at 1.
    unfold findLocalVersionFile. rewrite Hrun.
    simpl (Js.truthy_opt (Some _)).
    destruct (Js.truthy (Js.trim s)) eqn:Ht; cbn [negb].
    + unfold handleUse. simpl (Js.truthy_opt (Some _)). rewrite Ht. cbn [negb].
      unfold bind, logInfo, log, ret. reflexivity.
    + unfold bind, logError, log, ret. reflexivity.
Qed.

Lemma use_reads_version_file_witness :
  exists st1,
    fs st1 = fs (start pinned) /\
    handleUse offline None (start pinned) =
      handleUse offline (Some "0.14.1")
        (record (Log Info "Found .zig-version file, attempting to use: 0.14.1")
                (fs st1) st1).
Proof.
  apply (use_reads_version_file offline (start pinned) 2 ("0.14.1" +:+ nl)).
  - simpl. lia.
  - vm_compute. reflexivity.
  - intros j Hj. simpl in Hj. assert (j = 3) as -> by lia. vm_compute. reflexivity.
Defined.

(** X9: without an argument and without a [.zig-version] file in the working
    directory or above it, [zvm use] reports that and changes nothing. *)
Theorem use_without_version_file E st :
  (forall j, j <= length (cwd E) -> fs st !! versionFileAt E j = None) ->
  exists st1 st',
    findLocalVersionFile E st = (Val None, st1) /\
    handleUse E None st = (Val tt, st') /\
    fs st' = fs st /\
    events st' = events st1 ++
      [Log Failure "No version specified and no .zig-version file found in the current directory or parents."].
Proof.
  intros Hnone.
  destruct (findFrom_none (length (cwd E)) (cwd E) (S (length (cwd E))) st)
    as (st1 & Hrun & Hfs); [lia|done| |].
  { intros j Hj. by apply versionFile_missing, Hnone. }
  exists st1. unfold handleUse. simpl (Js.truthy_opt None). cbn [negb].
  unfold bind at 1. unfold bind at 1. unfold findLocalVersionFile. rewrite Hrun.
  simpl (Js.truthy_opt None). cbn [negb]. unfold bind, logError, log, ret.
  eexists. split; [reflexivity|]. split; [reflexivity|]. cbn [fs record].
  split; [done|]. by rewrite events_record.
Qed.

Lemma use_without_version_file_witness :
  exists st1 st',
    findLocalVersionFile offline (start initialised) = (Val None, st1) /\
    handleUse offline None (start initialised) = (Val tt, st') /\
    fs st' = fs (start initialised).
Proof.
  destruct (use_without_version_file offline (start initialised))
    as (st1 & st' & Hfind & Hrun & Hfs & _).
  - intros j Hj. simpl in Hj.
    destruct j as [|[|[|[|j]]]]; [vm_compute; reflexivity ..|lia].
  - by exists st1, st'.
Defined.

(** X10: a [.zig-version] that cannot be read for another reason than being
    absent, here because it is a directory, ends the search with that
    error, and [zvm use] fails with it before touching anything. *)
Theorem version_file_unreadable E st k inside :
  k <= length (cwd E) ->
  fs st !! versionFileAt E k = Some (Dir inside) ->
  (forall j, k < j <= length (cwd E) -> fs st !! versionFileAt E j = None) ->
  exists st',
    findLocalVersionFile E st = (Throw (SystemError "EISDIR"), st') /\
    handleUse E None st = (Throw (SystemError "EISDIR"), st') /\
    fs st' = fs st.
Proof.
  intros Hk Hdir Hnone.
  assert (Hread : (Fs.readFile (versionFileAt E k) (fs st)).1 = Throw (SystemError "EISDIR")).
  { unfold Fs.readFile. by rewrite Hdir. }
  destruct (findFrom_run (length (cwd E) - k) (cwd E) (S (length (cwd E))) st)
    as (st1 & Hrun & Hfs).
  - lia.
  - lia.
  - replace (length (cwd E) - (length (cwd E) - k)) with k by lia.
    fold (versionFileAt E k). by rewrite Hread.
  - intros j Hj. apply versionFile_missing, Hnone. lia.
  - replace (length (cwd E) - (length (cwd E) - k)) with k in Hrun by lia.
    fold (versionFileAt E k) in Hrun. rewrite Hread in Hrun. cbn [foundBy] in Hrun.
    exists st1. split; [exact Hrun|]. split; [|done].
    unfold handleUse. simpl (Js.truthy_opt None). cbn [negb].
    unfold bind at 1. unfold bind at 1. unfold findLocalVersionFile. by rewrite Hrun.
Qed.

Lemma version_file_unreadable_witness :
  exists st',
    findLocalVersionFile offline (start blocked_pin) = (Throw (SystemError "EISDIR"), st') /\
    handleUse offline None (start blocked_pin) = (Throw (SystemError "EISDIR"), st') /\
    fs st' = fs (start blocked_pin).
Proof.
  apply (version_file_unreadable offline (start blocked_pin) 3 ∅).
  - simpl. lia.
  - vm_compute. reflexivity.
  - intros j Hj. simpl in Hj. lia.
Defined.

(** ** Removal of a version that is not active *)






(** ** Installation *)

(** X12: [zvm install v --alias a] with a name that is already bound (the
    lookup in an alias store of strings finds it) refuses before anything
    is fetched or written: it reads the alias file, logs the refusal and
    returns, whatever the version asked for. *)
Theorem install_refused_for_taken_alias E st v alias m dir :
  v <> EmptyString ->
  alias <> EmptyString ->
  (getAliases E st).1 = Val (Obj m) ->
  alias_of m alias = Some dir ->
  exists st',
    handleInstall E (Some v) (Some alias) st = (Val tt, st') /\
    fs st' = fs st /\
    events st' = events st ++
      [aliasRead E (fs st);
       Log Failure ("Alias " +:+ dq +:+ alias +:+ dq +:+ " is already in use for "
                    +:+ textOf E dir
                    +:+ ". Please choose another name or unset it first.")].
Proof.
  intros Hv Halias Hal Hdir. unfold handleInstall. simpl (Js.truthy_opt (Some v)).
  assert (Js.truthy v = true) as -> by (by destruct v). cbn [negb].
  unfold bind at 1, aliasTaken. simpl (Js.truthy_opt (Some alias)).
  assert (Js.truthy alias = true) as -> by (by destruct alias).
  unfold bind at 1. pose proof (getAliases_state E st) as Hst.
  destruct (getAliases E st) as [r st1]. simpl in Hal, Hst. subst r st1.
  cbn [default]. unfold id. unfold bind at 1, lift. cbn [lookupAlias].
  rewrite Hdir. unfold bind, logError, log, ret.
  eexists. split; [reflexivity|]. cbn [fs record]. split; [done|].
  rewrite !events_record. by rewrite <- !app_assoc.
Qed.

Lemma install_refused_for_taken_alias_witness :
  exists st',
    handleInstall offline (Some "0.15.0") (Some "stable") (start active_and_aliased)
      = (Val tt, st') /\
    fs st' = fs (start active_and_aliased).
Proof.
  destruct (install_refused_for_taken_alias offline (start active_and_aliased) "0.15.0"
              "stable"
              {[ "stable" := "zig-linux-x86_64-0.14.1"; "old" := "zig-linux-x86_64-0.13.0" ]}
              (Js.Str "zig-linux-x86_64-0.14.1")) as (st' & Hrun & Hfs & _).
  - discriminate.
  - discriminate.
  - vm_compute. reflexivity.
  - vm_compute. reflexivity.
  - by exists st'.
Defined.

(** X13: on a platform or an architecture outside the supported ones, an install
    fails with [Unsupported platform/architecture] right after announcing
    the target version: nothing is fetched and no file changes. *)
Theorem install_unsupported_platform E st v alias :
  v <> EmptyString ->
  platformMap (platform E) = None \/ archMap (arch E) = None ->
  (aliasTaken E alias st).1 = Val false ->
  exists st',
    handleInstall E (Some v) alias st =
      (Throw (Error ("Unsupported platform/architecture: "
                     +:+ platform E +:+ "/" +:+ arch E)), st') /\
    fs st' = fs st /\
    events st' = events (aliasTaken E alias st).2 ++
      [Log Info ("[1/4] Target Zig version: " +:+ v)].
Proof.
  intros Hv Hplat Htaken. unfold handleInstall. simpl (Js.truthy_opt (Some v)).
  assert (Js.truthy v = true) as -> by (by destruct v). cbn [negb default]. unfold id.
  assert (Hfs : fs (aliasTaken E alias st).2 = fs st).
  { unfold aliasTaken. destruct (Js.truthy_opt alias); [|done].
    unfold bind at 1. pose proof (getAliases_fs E st) as Hg.
    destruct (getAliases E st) as [[m|e] st1]; [|done].
    unfold bind, lift.
    destruct (lookupAlias E m (default "" alias)) as [[dir|]|e]; simpl; done. }
  unfold bind at 1. destruct (aliasTaken E alias st) as [r st1].
  simpl in Htaken, Hfs |- *. subst r.
  assert (Hinfo : getZigPackageInfo E v =
    Throw (Error ("Unsupported platform/architecture: " +:+ platform E +:+ "/" +:+ arch E))).
  { unfold getZigPackageInfo, getPlatformInfo.
    destruct Hplat as [-> | ->]; [done|]. by destruct (platformMap (platform E)). }
  unfold bind, logInfo, log, lift. rewrite Hinfo.
  eexists. split; [reflexivity|]. cbn [fs record]. split; [done|].
  by rewrite events_record.
Qed.

Lemma install_unsupported_platform_witness :
  exists st',
    handleInstall unsupported (Some "0.14.1") None (start fresh) =
      (Throw (Error "Unsupported platform/architecture: freebsd/x64"), st') /\
    fs st' = fs (start fresh).
Proof.
  destruct (install_unsupported_platform unsupported (start fresh) "0.14.1" None)
    as (st' & Hrun & Hfs & _).
  - discriminate.
  - left. reflexivity.
  - reflexivity.
  - by exists st'.
Defined.

(** X14: fetching the mirror list never fails and changes no file.  It yields
    the lines of a successfully read list that start with [https://], in
    their order, and no mirror at all when the list cannot be reached, is
    answered with an error status, or breaks off. *)
Theorem mirror_list_is_best_effort E st :
  exists st',
    fetchMirrors E st =
      (Val (match fetch_reply E "GET" (MIRRORS_URL) with
            | Response true (Val c) => mirrorLines (text_of c)
            | _ => []
            end), st') /\
    fs st' = fs st /\
    Forall (fun url => Js.startsWith url "https://" = true)
           (match fetch_reply E "GET" (MIRRORS_URL) with
            | Response true (Val c) => mirrorLines (text_of c)
            | _ => []
            end).
Proof.
  unfold fetchMirrors, try_catch, bind at 1, fetch, sys.
  destruct (fetch_reply E "GET" MIRRORS_URL) as [e|[] [c|e]];
    cbn [fst snd failure fs record];
    unfold bind, lift, logInfo, logWarn, log, ret; cbn [fs record];
    (eexists; split; [reflexivity|]; split; [done|]); try constructor.
  unfold mirrorLines. apply Forall_forall. intros url Hin.
  apply list_elem_of_In, filter_In in Hin. tauto.
Qed.

Lemma tryUrl_frame E url st q :
  q <> tempFile E -> fs (tryUrl E url st).2 !! q = fs st !! q.
Proof.
  intros Hq. unfold tryUrl, try_catch, bind at 1, fetch at 1, sys at 1.
  destruct (fetch_reply E "HEAD" url) as [e|[] hb]; cbn [fst snd negb failure fs record];
    try done.
  unfold bind at 1, logInfo, log at 1, bind at 1, fetch, sys at 1.
  cbn [fst snd negb failure fs record].
  destruct (fetch_reply E "GET" url) as [e|[] body]; cbn [fst snd negb failure fs record];
    try done.
  unfold bind at 1, sys at 1, Fs.writeFile. cbn [fs record].
  destruct body as [c|e];
    destruct (fs st !! tempFile E) as [[| |]|] eqn:Ht;
    try destruct (Fs.parent_ok (fs st) (tempFile E)) eqn:Hp;
    cbn [fst snd failure fs record];
    unfold bind, logWarn, logSuccess, log, ret; cbn [fst snd fs record];
    rewrite ?lookup_insert_ne by done; done.
Qed.

Lemma forFilenames_frame E baseUrl filenames q : forall st,
  q <> tempFile E -> fs (forFilenames E baseUrl filenames st).2 !! q = fs st !! q.
Proof.
  induction filenames as [|filename rest IH]; intros st Hq; simpl; [done|].
  unfold bind at 1. pose proof (tryUrl_frame E (baseUrl +:+ "/" +:+ filename) st q Hq) as Ht.
  destruct (tryUrl E (baseUrl +:+ "/" +:+ filename) st) as [[[file|]|e] st1]; simpl in *;
    try done.
  by rewrite IH.
Qed.

Lemma forBaseUrls_frame E filenames baseUrls q : forall st,
  q <> tempFile E -> fs (forBaseUrls E baseUrls filenames st).2 !! q = fs st !! q.
Proof.
  induction baseUrls as [|baseUrl rest IH]; intros st Hq; simpl; [done|].
  unfold bind at 1. pose proof (forFilenames_frame E baseUrl filenames q st Hq) as Ht.
  destruct (forFilenames E baseUrl filenames st) as [[[file|]|e] st1]; simpl in *;
    try done.
  by rewrite IH.
Qed.

(** X15: the download writes to no path but its temporary file, and it ends in
    one of two ways only: it returns the path of that file, or it fails
    with the error that every source has been tried. *)
Theorem download_touches_only_temp_file E baseUrls filenames st :
  (forall q, q <> tempFile E ->
     fs (attemptDownload E baseUrls filenames st).2 !! q = fs st !! q) /\
  ((attemptDownload E baseUrls filenames st).1 = Val (tempFile E) \/
   (attemptDownload E baseUrls filenames st).1 = Throw exhausted).
Proof.
  unfold attemptDownload, bind.
  pose proof (forBaseUrls_frame E filenames baseUrls) as Hframe.
  destruct (forBaseUrls_run E filenames baseUrls st) as (st' & returned & Hrun & Hret & _).
  rewrite Hrun in *. split.
  - intros q Hq. specialize (Hframe q st Hq). rewrite Hrun in Hframe.
    by destruct returned.
  - destruct (scan _ _).2; subst returned; simpl; auto.
Qed.

Lemma download_touches_only_temp_file_witness :
  fs (attemptDownload mirrored ["https://m1.example"] ["zig-x86_64-linux-0.14.1.tar.xz"]
        (start with_tmp)).2 !! ["tmp"] = fs (start with_tmp) !! ["tmp"].
Proof.
  apply (download_touches_only_temp_file mirrored ["https://m1.example"]
           ["zig-x86_64-linux-0.14.1.tar.xz"] (start with_tmp)).
  discriminate.
Defined.

(** The stages of [installArchive] on an archive that names one plain
    directory which is not installed yet, with the file system each one
    ends in. *)
Lemma installArchive_stages E file t st :
  Js.plain_name (unpackedDirName (tar_listing t)) = true ->
  fs st !! file = Some (File (Tarball t)) ->
  fs st !! finalInstallPath E (tar_listing t) = None ->
  let final := finalInstallPath E (tar_listing t) in
  let staging := tempInstallPath E (tar_listing t) in
  let f1 := (Fs.mkdir_p staging (fs st)).2 in
  exists r st',
    installArchive E file st = (r, st') /\
    ((shell_word E (Path.show file) = false /\ (exists e, r = Throw e) /\ fs st' = fs st) \/
     (shell_word E (Path.show file) = true /\
      ((exists e, (Fs.mkdir_p staging (fs st)).1 = Throw e /\ r = Throw e /\ fs st' = f1) \/
       ((Fs.mkdir_p staging (fs st)).1 = Val tt /\
        exists i,
          f1 !! staging = Some (Dir i) /\
          f1 !! file = Some (File (Tarball t)) /\
          f1 !! final = None /\
          ((shell_word E (Path.show staging) = false /\
            (exists e, r = Throw e) /\ fs st' = f1) \/
           (shell_word E (Path.show staging) = true /\
            ((exists part,
                tar_damage t = Some part /\ (exists e, r = Throw e) /\
                fs st' = <[staging := Dir (part ∪ i)]> f1) \/
             (tar_damage t = None /\
              let f2 := <[staging := Dir (tar_payload t ∪ i)]> f1 in
              exists n,
                n < retries /\
                (forall j, j < n ->
                   permissionFailure (Fs.rename (rename_busy E j) staging final f2).1
                   = true) /\
                ((exists e,
                    (Fs.rename (rename_busy E n) staging final f2).1 = Throw e /\
                    r = Throw e /\ fs st' = f2) \/
                 ((Fs.rename (rename_busy E n) staging final f2).1 = Val tt /\
                  match archive_held E with
                  | None =>
                      r = Val (Some (unpackedDirName (tar_listing t))) /\
                      fs st' = delete file (<[final := Dir (tar_payload t ∪ i)]>
                                              (delete staging f2))
                  | Some code =>
                      r = Throw (SystemError code) /\
                      fs st' = <[final := Dir (tar_payload t ∪ i)]> (delete staging f2)
                  end)))))))))).
Proof.
  intros Hplain Hfile Hfinal. cbv zeta.
  destruct (plain_paths E (tar_listing t) Hplain) as (Epath & Eslash & Etemp & _).
  assert (Hne : finalInstallPath E (tar_listing t) <> []).
  { rewrite Epath. by destruct (INSTALL_BASE_DIR E). }
  assert (Hmkdir : forall f r f',
            Fs.mkdir_p (tempInstallPath E (tar_listing t)) f = (r, f') ->
            f' !! finalInstallPath E (tar_listing t)
            = f !! finalInstallPath E (tar_listing t)).
  { intros f r f'. by apply mkdir_p_final. }
  unfold installArchive.
  remember (finalInstallPath E (tar_listing t)) as final eqn:Efinal.
  remember (tempInstallPath E (tar_listing t)) as staging eqn:Estaging.
  assert (Hds : file <> final) by congruence.
  assert (Hsf : staging <> final) by (rewrite Etemp; apply suffixed_ne; done).
  assert (Hlen : 0 < length staging <= length staging).
  { split; [|lia]. rewrite Etemp, suffixed_length by done.
    destruct final; simpl; [done|lia]. }
  unfold logInfo, logError, bind, try_catch, log, sys, ret, Tar.list.
  cbn [fs record].
  destruct (shell_word E (Path.show file)) eqn:Hword; cbn [negb failure].
  2:{ eexists _, _. split; [reflexivity|]. left. split; [done|]. split; [by eexists|done]. }
  rewrite Hfile. cbn [fs record failure].
  rewrite Eslash, <- Efinal, <- Estaging. rewrite access_missing by done.
  cbn [fs record failure].
  destruct (Fs.mkdir_p staging (fs st)) as [rm f1] eqn:Hmk. cbn [fst snd].
  assert (Hf1 : f1 !! final = None).
  { rewrite <- Hfinal. by eapply Hmkdir. }
  destruct (mkdir_from_spec _ _ _ _ _ Hmk) as (_ & Hkeep & Hdirs).
  destruct rm as [[]|e]; cbn [failure].
  2:{ eexists _, _. split; [reflexivity|]. right. split; [done|]. left. by exists e. }
  destruct (Hdirs eq_refl (length staging) Hlen) as [i Hst].
  simpl in Hst. rewrite firstn_all in Hst.
  pose proof (Hkeep _ _ Hfile) as Hfile1.
  unfold Tar.extract. cbn [fs record]. rewrite Hword. cbn [andb].
  destruct (shell_word E (Path.show staging)) eqn:Hword'; cbn [negb failure Tar.failed].
  2:{ eexists _, _. split; [reflexivity|]. right. split; [done|]. right. split; [done|].
      exists i. split; [done|]. split; [done|]. split; [done|]. left.
      split; [done|]. split; [by eexists|done]. }
  rewrite Hfile1, Hst.
  destruct (tar_damage t) as [part|] eqn:Hdamage; cbn [failure Tar.failed].
  { eexists _, _. split; [reflexivity|]. right. split; [done|]. right. split; [done|].
    exists i. split; [done|]. split; [done|]. split; [done|]. right. split; [done|].
    left. exists part. split; [done|]. split; [by eexists|done]. }
  set (f2 := <[staging := Dir (tar_payload t ∪ i)]> f1).
  match goal with |- context [renameWithRetry E staging final ?s] => set (st5 := s) end.
  unfold renameWithRetry.
  destruct (decisive_attempt
              (fun k => permissionFailure (Fs.rename (rename_busy E k) staging final f2).1))
    as (n & Hn & Hblocked & Hlast).
  destruct (renameFrom_run E staging final st5 n 0 retries) as (st6 & Hrun & Hfs6 & _);
    [simpl; lia | lia | exact Hblocked | exact Hlast |].
  change (0 + n) with n in Hrun, Hfs6.
  change (fs st5) with f2 in Hrun, Hfs6.
  rewrite Hrun. cbn [fst snd]. clearbody st5.
  pose proof (rename_failed_fs (rename_busy E n) staging final f2) as Hfail.
  pose proof (rename_done (rename_busy E n) staging final f2) as Hdone.
  destruct (Fs.rename (rename_busy E n) staging final f2) as [[[]|e] f3] eqn:Hren;
    cbn [fst snd failure] in *.
  2:{ rewrite (Hfail e eq_refl) in *.
      eexists _, _. split; [reflexivity|]. right. split; [done|]. right. split; [done|].
      exists i. split; [done|]. split; [done|]. split; [done|]. right. split; [done|].
      right. split; [done|].
      exists n. split; [done|]. split; [done|]. left. exists e. fold f2. rewrite Hren. done. }
  destruct (Hdone eq_refl) as (x & Hx & Hf3).
  unfold f2 in Hx. rewrite lookup_insert_eq in Hx. injection Hx as <-.
  assert (Hf3d : f3 !! file = Some (File (Tarball t))).
  { rewrite Hf3. rewrite lookup_insert_ne by congruence.
    assert (staging <> file) by congruence.
    rewrite lookup_delete_ne by done. unfold f2. by rewrite lookup_insert_ne. }
  unfold Fs.unlinkHeld, Fs.unlink. rewrite Hfs6.
  destruct (archive_held E) as [code|]; [|rewrite Hf3d]; cbn [failure].
  all: eexists _, _; split; [reflexivity|]; right; split; [done|]; right; split; [done|];
    exists i; split; [done|]; split; [done|]; split; [done|]; right; split; [done|];
    right; split; [done|];
    exists n; split; [done|]; split; [done|]; right; fold f2; rewrite Hren;
    cbn [fst fs record]; split; [done|]; split; [done|]; by rewrite Hf3.
Qed.

(** X16: for an archive that names one plain directory which is not
    installed yet, and without interference with the deletion of the
    download, an install that fails after the download cleans nothing up:
    the archive stays in the temporary directory and the final path stays
    absent; when the archive is damaged, the staging directory could be
    made and the shell hands the two paths on to [tar] as they are, that
    directory stays too, with what was unpacked before the failure. *)
Theorem failed_install_cleans_nothing E file t st e st' :
  Js.plain_name (unpackedDirName (tar_listing t)) = true ->
  archive_held E = None ->
  fs st !! file = Some (File (Tarball t)) ->
  fs st !! finalInstallPath E (tar_listing t) = None ->
  installArchive E file st = (Throw e, st') ->
  fs st' !! file = Some (File (Tarball t)) /\
  fs st' !! finalInstallPath E (tar_listing t) = None /\
  (forall part,
     tar_damage t = Some part ->
     shell_word E (Path.show file) = true ->
     shell_word E (Path.show (tempInstallPath E (tar_listing t))) = true ->
     (Fs.mkdir_p (tempInstallPath E (tar_listing t)) (fs st)).1 = Val tt ->
     exists inside,
       fs st' !! tempInstallPath E (tar_listing t) = Some (Dir inside) /\
       part ⊆ inside).
Proof.
  intros Hplain Hheld Hfile Hfinal Hrun.
  destruct (installArchive_stages E file t st Hplain Hfile Hfinal)
    as (r & st2 & Hrun2 & Hcase).
  rewrite Hrun in Hrun2. injection Hrun2 as <- <-.
  destruct (plain_paths E (tar_listing t) Hplain) as (Epath & _ & Etemp & _).
  assert (Hsf : tempInstallPath E (tar_listing t) <> finalInstallPath E (tar_listing t)).
  { rewrite Etemp. apply suffixed_ne; done. }
  destruct (Fs.mkdir_p (tempInstallPath E (tar_listing t)) (fs st)) as [rm f1] eqn:Hmk.
  destruct (mkdir_from_spec _ _ _ _ _ Hmk) as (_ & Hkeep & _).
  pose proof (mkdir_p_final E (tar_listing t) (fs st) rm f1 Hplain Hmk) as Hf1.
  cbn [fst snd] in Hcase.
  destruct Hcase as [(Hw & _ & Hfs)|(Hw & Hcase)].
  { rewrite Hfs. split; [done|]. split; [done|]. intros part _ Hw'. congruence. }
  destruct Hcase as [(e' & Hrm & _ & Hfs)|(Hrm & i & Hst & Hfile1 & Hfin1 & Hcase)].
  { rewrite Hfs. split; [by apply Hkeep|]. split; [by rewrite Hf1|].
    intros part _ _ _ Hok. simpl in Hrm, Hok. congruence. }
  assert (Hne : tempInstallPath E (tar_listing t) <> file) by congruence.
  destruct Hcase as [(Hw' & _ & Hfs)|(Hw' & Hcase)].
  { rewrite Hfs. split; [done|]. split; [done|]. intros part _ _ Hw2. congruence. }
  destruct Hcase as [(part & Hd & _ & Hfs)|(Hd & n & _ & _ & Hcase)].
  - rewrite Hfs. rewrite !lookup_insert_ne by done. split; [done|]. split; [done|].
    intros part' Hd' _ _ _. rewrite Hd in Hd'. injection Hd' as <-.
    exists (part ∪ i). rewrite lookup_insert_eq. split; [done|].
    apply map_union_subseteq_l.
  - destruct Hcase as [(e' & _ & _ & Hfs)|(_ & Hr)].
    + rewrite Hfs. rewrite !lookup_insert_ne by done. split; [done|]. split; [done|].
      intros part Hd'. congruence.
    + rewrite Hheld in Hr. by destruct Hr.
Qed.

Lemma failed_install_cleans_nothing_witness :
  exists e st',
    installArchive scanned (tempFile scanned) (start downloaded_damaged) = (Throw e, st') /\
    fs st' !! tempFile scanned = Some (File (Tarball damaged)) /\
    fs st' !! finalInstallPath scanned (tar_listing damaged) = None.
Proof.
  assert (Hfails : exists e,
            (installArchive scanned (tempFile scanned) (start downloaded_damaged)).1
            = Throw e) by (eexists; vm_compute; reflexivity).
  destruct Hfails as [e Hfails].
  assert (Hrun : installArchive scanned (tempFile scanned) (start downloaded_damaged)
                 = (Throw e,
                    (installArchive scanned (tempFile scanned) (start downloaded_damaged)).2)).
  { rewrite <- Hfails. apply surjective_pairing. }
  exists e, (installArchive scanned (tempFile scanned) (start downloaded_damaged)).2.
  split; [exact Hrun|].
  destruct (failed_install_cleans_nothing scanned (tempFile scanned) damaged
              (start downloaded_damaged) e _ eq_refl eq_refl eq_refl eq_refl Hrun)
    as (H1 & H2 & _).
  split; [exact H1|exact H2].
Defined.

Lemma staging_path E t :
  Js.plain_name (unpackedDirName t) = true ->
  finalInstallPath E t = INSTALL_BASE_DIR E ++ [unpackedDirName t] /\
  tempInstallPath E t = INSTALL_BASE_DIR E ++ [unpackedDirName t +:+ ".tmp"].
Proof.
  intros Hn. destruct (plain_paths E t Hn) as (Efinal & _ & Etemp & _).
  split; [done|]. rewrite Etemp, Efinal. unfold Path.suffixed.
  rewrite removelast_last, last_last.
  by destruct (INSTALL_BASE_DIR E).
Qed.

Lemma plain_nonempty name : Js.plain_name name = true -> name <> EmptyString.
Proof. by destruct name. Qed.

(** X17: for an archive that names one plain directory, a successful
    install leaves the unpacked directory under its final name with
    everything the archive holds, and neither the staging directory nor
    the downloaded archive; the new directory then resolves by its own
    name, unless the lookup of that name in the alias store, an object of
    strings, finds something: an entry of the file, or what every object
    inherits under that name. *)
Theorem installed_version_resolves E file t st name st' :
  Js.plain_name (unpackedDirName (tar_listing t)) = true ->
  fs st !! file = Some (File (Tarball t)) ->
  fs st !! finalInstallPath E (tar_listing t) = None ->
  installArchive E file st = (Val (Some name), st') ->
  name = unpackedDirName (tar_listing t) /\
  (exists inside,
     fs st' !! finalInstallPath E (tar_listing t) = Some (Dir inside) /\
     tar_payload t ⊆ inside) /\
  fs st' !! tempInstallPath E (tar_listing t) = None /\
  fs st' !! file = None /\
  (forall m,
     (getAliases E st').1 = Val (Obj m) ->
     alias_of m name = None ->
     (resolveVersion E name st').1 = Val (Some name)).
Proof.
  intros Hplain Hfile Hfinal Hrun.
  destruct (installArchive_stages E file t st Hplain Hfile Hfinal)
    as (r & st2 & Hrun2 & Hcase).
  rewrite Hrun in Hrun2. injection Hrun2 as <- <-.
  destruct (plain_paths E (tar_listing t) Hplain) as (Epath & _ & Etemp & _).
  assert (Hsf : tempInstallPath E (tar_listing t) <> finalInstallPath E (tar_listing t)).
  { rewrite Etemp. apply suffixed_ne; done. }
  destruct (Fs.mkdir_p (tempInstallPath E (tar_listing t)) (fs st)) as [rm f1] eqn:Hmk.
  destruct (mkdir_from_spec _ _ _ _ _ Hmk) as (_ & _ & Hdirs).
  cbn [fst snd] in Hcase.
  destruct Hcase as [(_ & [e' Hr] & _)|(_ & Hcase)]; [done|].
  destruct Hcase as [(e' & _ & Hr & _)|(Hrm & i & Hst & Hfile1 & Hfin1 & Hcase)]; [done|].
  destruct Hcase as [(_ & [e' Hr] & _)|(_ & Hcase)]; [done|].
  destruct Hcase as [(part & _ & [e' Hr] & _)|(Hd & n & _ & _ & Hcase)]; [done|].
  destruct Hcase as [(e' & _ & Hr & _)|(_ & Hr)]; [done|].
  destruct (archive_held E) as [code|]; [by destruct Hr|]. destruct Hr as [Hr Hfs].
  injection Hr as ->.
  assert (Hne : tempInstallPath E (tar_listing t) <> file) by congruence.
  assert (Hnf : finalInstallPath E (tar_listing t) <> file) by congruence.
  split; [done|]. rewrite Hfs. split; [|split; [|split]].
  - exists (tar_payload t ∪ i). rewrite lookup_delete_ne by done.
    rewrite lookup_insert_eq. split; [done|]. apply map_union_subseteq_l.
  - rewrite lookup_delete_ne by done. rewrite lookup_insert_ne by done.
    apply lookup_delete_eq.
  - apply lookup_delete_eq.
  - intros m Hal Hno.
    pose proof (plain_nonempty _ Hplain) as Hname.
    destruct (staging_path E (tar_listing t) Hplain) as [Efinal Estaging].
    assert (Hbase : exists j, f1 !! INSTALL_BASE_DIR E = Some (Dir j)).
    { specialize (Hdirs Hrm (length (INSTALL_BASE_DIR E))).
      rewrite Estaging in Hdirs. rewrite length_app in Hdirs. simpl in Hdirs.
      rewrite take_app_length in Hdirs. apply Hdirs.
      pose proof (INSTALL_BASE_DIR_nonempty E). destruct (INSTALL_BASE_DIR E); simpl;
        [done|lia]. }
    destruct Hbase as [j Hbase].
    assert (Hb1 : INSTALL_BASE_DIR E <> file) by congruence.
    assert (Hb2 : INSTALL_BASE_DIR E <> tempInstallPath E (tar_listing t)).
    { rewrite Estaging. intros H. apply (f_equal (@length string)) in H.
      rewrite length_app in H. simpl in H. lia. }
    assert (Hb3 : INSTALL_BASE_DIR E <> finalInstallPath E (tar_listing t)).
    { rewrite Efinal. intros H. apply (f_equal (@length string)) in H.
      rewrite length_app in H. simpl in H. lia. }
    rewrite (resolveVersion_value E _ _ m Hal). rewrite Hfs.
    assert (Js.truthy (unpackedDirName (tar_listing t)) = true) as ->
      by (by destruct (unpackedDirName (tar_listing t))).
    unfold Fs.readdir. rewrite lookup_delete_ne by done.
    rewrite lookup_insert_ne by done. rewrite lookup_delete_ne by done.
    rewrite lookup_insert_ne by done. rewrite Hbase. cbn [fst].
    rewrite Hno. cbn [default]. rewrite pickDir_exact; [done|].
    apply entries_elem. exists (finalInstallPath E (tar_listing t)), (Dir (tar_payload t ∪ i)).
    split.
    + rewrite lookup_delete_ne by done. by rewrite lookup_insert_eq.
    + rewrite Efinal. unfold Fs.entry_of, Path.dirname, Path.basename.
      rewrite removelast_last, last_last.
      destruct (INSTALL_BASE_DIR E ++ [unpackedDirName (tar_listing t)]) eqn:Heq.
      { by destruct (INSTALL_BASE_DIR E). }
      by rewrite decide_True.
Qed.

Lemma installed_version_resolves_witness :
  exists st',
    installArchive scanned (tempFile scanned) (start downloaded)
      = (Val (Some "zig-windows-x86_64-0.14.1"), st') /\
    fs st' !! tempFile scanned = None /\
    (resolveVersion scanned "zig-windows-x86_64-0.14.1" st').1
      = Val (Some "zig-windows-x86_64-0.14.1").
Proof.
  exists (installArchive scanned (tempFile scanned) (start downloaded)).2.
  assert (Hval : (installArchive scanned (tempFile scanned) (start downloaded)).1
                 = Val (Some "zig-windows-x86_64-0.14.1")) by (vm_compute; reflexivity).
  assert (Hrun : installArchive scanned (tempFile scanned) (start downloaded)
                 = (Val (Some "zig-windows-x86_64-0.14.1"),
                    (installArchive scanned (tempFile scanned) (start downloaded)).2)).
  { rewrite <- Hval. apply surjective_pairing. }
  split; [exact Hrun|].
  destruct (installed_version_resolves scanned (tempFile scanned) zig_0_14_1
              (start downloaded) "zig-windows-x86_64-0.14.1" _ eq_refl eq_refl eq_refl Hrun)
    as (_ & _ & _ & Hgone & Hres).
  split; [exact Hgone|]. apply (Hres ∅).
  - vm_compute. reflexivity.
  - reflexivity.
Defined.

(** ** The command line, [current] and [init] *)

Lemma mkdir_p_frame p f q :
  ~ q `prefix_of` p -> (Fs.mkdir_p p f).2 !! q = f !! q.
Proof.
  intros Hq. unfold Fs.mkdir_p. destruct (Fs.mkdir_from [] p f) as [r f'] eqn:Hmk.
  destruct (mkdir_from_spec _ _ _ _ _ Hmk) as (Hframe & _). simpl. apply Hframe.
  intros k Hk -> . apply Hq. simpl. apply prefix_take.
Qed.

Lemma ALIASES_not_above_BASE E : ~ ALIASES_FILE E `prefix_of` INSTALL_BASE_DIR E.
Proof.
  intros [k Hk]. unfold ALIASES_FILE, INSTALL_BASE_DIR, Path.join in Hk. simpl in Hk.
  rewrite <- app_assoc in Hk. apply app_inv_head in Hk. simpl in Hk. discriminate.
Qed.

(** X18: the [--alias] flag of [install] may stand before or after the version:
    both command lines run the same install.  A command line in which the
    version is the word after the flag has no version at all: the flag
    takes it for its value. *)
Theorem alias_flag_position E zig_version handleListRemote v a :
  Js.startsWith v "--" = false ->
  main E zig_version handleListRemote ["install"; v; "--alias"; a]
    = (sys (c_mkdir (INSTALL_BASE_DIR E)) (Fs.mkdir_p (INSTALL_BASE_DIR E));;
       handleInstall E (Some v) (Some a)) /\
  main E zig_version handleListRemote ["install"; "--alias"; a; v]
    = (sys (c_mkdir (INSTALL_BASE_DIR E)) (Fs.mkdir_p (INSTALL_BASE_DIR E));;
       handleInstall E (Some v) (Some a)) /\
  main E zig_version handleListRemote ["install"; "--alias"; v]
    = (sys (c_mkdir (INSTALL_BASE_DIR E)) (Fs.mkdir_p (INSTALL_BASE_DIR E));;
       handleInstall E None (Some v)).
Proof.
  intros Hv. unfold main. cbn [head tail parseArgs]. rewrite Hv.
  change (Js.startsWith "--alias" "--") with true. cbv iota.
  change (substringFrom 2 "--alias") with "alias".
  cbn [app lookup list_lookup]. unfold flag. rewrite !lookup_insert_eq. done.
Qed.

Lemma alias_flag_position_witness :
  main offline (fun _ => Val "0.14.1") (ret tt) ["install"; "0.14.1"; "--alias"; "stable"]
  = main offline (fun _ => Val "0.14.1") (ret tt) ["install"; "--alias"; "stable"; "0.14.1"].
Proof.
  destruct (alias_flag_position offline (fun _ => Val "0.14.1") (ret tt) "0.14.1" "stable")
    as (H1 & H2 & _).
  - reflexivity.
  - rewrite H1, H2. reflexivity.
Defined.

Lemma handleAlias_no_version E name st :
  name <> EmptyString ->
  fs (handleAlias E (Some name) None st).2 = fs st.
Proof.
  intros Hname. unfold handleAlias. simpl (Js.truthy_opt (Some name)).
  assert (Js.truthy name = true) as -> by (by destruct name). cbn [negb].
  unfold bind. pose proof (getAliases_fs E st) as Hfs.
  destruct (getAliases E st) as [[m|e] st1]; [|done].
  rewrite bool_decide_eq_false_2 by done. done.
Qed.

(** X19: [zvm alias --unset name] unsets; with the flag after the name, the
    flag has no value, the command is taken for an alias definition that
    lacks its version, and the alias file is not written. *)
Theorem unset_flag_comes_first E zig_version handleListRemote name st :
  name <> EmptyString ->
  Js.startsWith name "--" = false ->
  main E zig_version handleListRemote ["alias"; "--unset"; name]
    = (sys (c_mkdir (INSTALL_BASE_DIR E)) (Fs.mkdir_p (INSTALL_BASE_DIR E));;
       handleAlias E (Some name) (Some "--unset")) /\
  main E zig_version handleListRemote ["alias"; name; "--unset"]
    = (sys (c_mkdir (INSTALL_BASE_DIR E)) (Fs.mkdir_p (INSTALL_BASE_DIR E));;
       handleAlias E (Some name) None) /\
  fs (main E zig_version handleListRemote ["alias"; name; "--unset"] st).2
    = (Fs.mkdir_p (INSTALL_BASE_DIR E) (fs st)).2 /\
  fs (main E zig_version handleListRemote ["alias"; name; "--unset"] st).2
    !! ALIASES_FILE E = fs st !! ALIASES_FILE E.
Proof.
  intros Hname Hdash.
  assert (Ht : Js.truthy name = true) by (by destruct name).
  assert (H1 : main E zig_version handleListRemote ["alias"; "--unset"; name]
    = (sys (c_mkdir (INSTALL_BASE_DIR E)) (Fs.mkdir_p (INSTALL_BASE_DIR E));;
       handleAlias E (Some name) (Some "--unset"))).
  { unfold main. cbn [head tail parseArgs].
    change (Js.startsWith "--unset" "--") with true. cbv iota.
    change (substringFrom 2 "--unset") with "unset".
    cbn [app lookup list_lookup]. unfold flag. rewrite !lookup_insert_eq.
    unfold orElse. simpl (Js.truthy_opt (Some name)). rewrite Ht.
    simpl (Js.truthy_opt None). done. }
  assert (H2 : main E zig_version handleListRemote ["alias"; name; "--unset"]
    = (sys (c_mkdir (INSTALL_BASE_DIR E)) (Fs.mkdir_p (INSTALL_BASE_DIR E));;
       handleAlias E (Some name) None)).
  { unfold main. cbn [head tail parseArgs]. rewrite Hdash.
    change (Js.startsWith "--unset" "--") with true. cbv iota.
    change (substringFrom 2 "--unset") with "unset".
    cbn [app lookup list_lookup]. unfold flag. rewrite !lookup_insert_eq.
    unfold orElse. simpl (Js.truthy_opt None). done. }
  split; [exact H1|]. split; [exact H2|].
  assert (H3 : fs (main E zig_version handleListRemote ["alias"; name; "--unset"] st).2
               = (Fs.mkdir_p (INSTALL_BASE_DIR E) (fs st)).2).
  { rewrite H2. unfold bind at 1, sys.
    destruct (Fs.mkdir_p (INSTALL_BASE_DIR E) (fs st)) as [[[]|e] f1]; [|done].
    by rewrite handleAlias_no_version. }
  split; [exact H3|]. rewrite H3. apply mkdir_p_frame, ALIASES_not_above_BASE.
Qed.

Lemma unset_flag_comes_first_witness :
  fs (main offline (fun _ => Val "0.14.1") (ret tt) ["alias"; "old"; "--unset"]
        (start active_and_aliased)).2 !! ALIASES_FILE offline
  = fs (start active_and_aliased) !! ALIASES_FILE offline.
Proof.
  apply (unset_flag_comes_first offline (fun _ => Val "0.14.1") (ret tt) "old"
           (start active_and_aliased)).
  - discriminate.
  - reflexivity.
Defined.

(** X20: when the installation root cannot be created, every command line ends
    with exit code 1 and the error message, before any handler has run. *)
Theorem root_failure_stops_every_command E zig_version handleListRemote argv st e :
  (Fs.mkdir_p (INSTALL_BASE_DIR E) (fs st)).1 = Throw e ->
  exists st',
    script E zig_version handleListRemote argv st = (Val 1, st') /\
    fs st' = (Fs.mkdir_p (INSTALL_BASE_DIR E) (fs st)).2 /\
    events st' = events st ++
      [Call (c_mkdir (INSTALL_BASE_DIR E)) (Some e);
       Log Failure ("An error occurred: " +:+ message e)].
Proof.
  intros Hmk. unfold script, try_catch, bind at 1, main.
  destruct (parseArgs (tail argv) ∅ []) as [flags positionalArgs].
  unfold bind at 1, sys.
  destruct (Fs.mkdir_p (INSTALL_BASE_DIR E) (fs st)) as [r f1]. simpl in Hmk. subst r.
  cbn [failure]. unfold bind, logError, log, ret. eexists. split; [reflexivity|].
  cbn [fs record]. split; [done|]. rewrite !events_record. by rewrite <- app_assoc.
Qed.

Lemma root_failure_stops_every_command_witness :
  exists st',
    script offline (fun _ => Val "0.14.1") (ret tt) ["list"] (start homeless) = (Val 1, st') /\
    fs st' = fs (start homeless).
Proof.
  destruct (root_failure_stops_every_command offline (fun _ => Val "0.14.1") (ret tt)
              ["list"] (start homeless) (SystemError "ENOTDIR")) as (st' & Hrun & Hfs & _).
  - vm_compute. reflexivity.
  - exists st'. split; [exact Hrun|]. rewrite Hfs. vm_compute. reflexivity.
Defined.

Lemma BASE_is_dir E f :
  (Fs.mkdir_p (INSTALL_BASE_DIR E) f).1 = Val tt ->
  exists j, (Fs.mkdir_p (INSTALL_BASE_DIR E) f).2 !! INSTALL_BASE_DIR E = Some (Dir j).
Proof.
  intros Hok. unfold Fs.mkdir_p in *.
  destruct (Fs.mkdir_from [] (INSTALL_BASE_DIR E) f) as [r f1] eqn:Hmk.
  destruct (mkdir_from_spec _ _ _ _ _ Hmk) as (_ & _ & Hdirs). simpl in Hok.
  destruct (Hdirs Hok (length (INSTALL_BASE_DIR E))) as [j Hj].
  { pose proof (INSTALL_BASE_DIR_nonempty E). destruct (INSTALL_BASE_DIR E); simpl;
      [done|lia]. }
  simpl in Hj. rewrite firstn_all in Hj. by exists j.
Qed.

(** X21: without a command, or with a word that is no command, the script
    prints the usage text and exits with code 0; even then it has created
    the installation root. *)
Theorem unknown_command_prints_usage E zig_version handleListRemote argv st :
  (forall command, head argv = Some command -> command ∉ commands) ->
  (Fs.mkdir_p (INSTALL_BASE_DIR E) (fs st)).1 = Val tt ->
  exists st' j,
    script E zig_version handleListRemote argv st = (Val 0, st') /\
    fs st' = (Fs.mkdir_p (INSTALL_BASE_DIR E) (fs st)).2 /\
    fs st' !! INSTALL_BASE_DIR E = Some (Dir j) /\
    events st' = events st ++
      [Call (c_mkdir (INSTALL_BASE_DIR E)) None; Log Plain usageText].
Proof.
  intros Hunknown Hmk. destruct (BASE_is_dir E (fs st) Hmk) as [j Hj].
  unfold script, try_catch, bind at 1, main.
  destruct (parseArgs (tail argv) ∅ []) as [flags positionalArgs].
  unfold bind at 1, sys.
  destruct (Fs.mkdir_p (INSTALL_BASE_DIR E) (fs st)) as [r f1]. simpl in Hmk, Hj. subst r.
  cbn [failure].
  assert (Hrun : forall st1,
    match head argv with
    | None => usage
    | Some command =>
        if String.eqb command "install" || String.eqb command "i" then
          handleInstall E (positionalArgs !! 0%nat) (flag flags "alias")
        else if String.eqb command "uninstall" || String.eqb command "remove"
                || String.eqb command "rm" then
          handleRemove E (positionalArgs !! 0%nat)
        else if String.eqb command "use" || String.eqb command "activate" then
          handleUse E (positionalArgs !! 0%nat)
        else if String.eqb command "deactivate" || String.eqb command "unuse" then
          handleDeactivate E
        else if String.eqb command "current" then
          handleCurrent E zig_version
        else if String.eqb command "alias" then
          handleAlias E (orElse (flag flags "unset") (positionalArgs !! 0%nat))
                        (orElse (positionalArgs !! 1%nat)
                                (if Js.truthy_opt (flag flags "unset") then Some "--unset"
                                 else None))
        else if String.eqb command "init" then
          handleInit E
        else if String.eqb command "list" || String.eqb command "ls" then
          handleList E
        else if String.eqb command "list-remote" || String.eqb command "ls-remote" then
          handleListRemote
        else usage
    end st1 = usage st1).
  { intros st1. destruct (head argv) as [command|]; [|done].
    assert (Hne : forall x, x ∈ commands -> String.eqb command x = false).
    { intros x Hx. apply String.eqb_neq. intros ->. by apply (Hunknown x). }
    rewrite !Hne by (apply list_elem_of_In; simpl; tauto). done. }
  rewrite Hrun. unfold usage, log, ret. exists (record (Log Plain usageText) f1
    (record (Call (c_mkdir (INSTALL_BASE_DIR E)) None) f1 st)), j.
  split; [reflexivity|]. cbn [fs record]. split; [done|]. split; [done|].
  rewrite !events_record. by rewrite <- app_assoc.
Qed.

Lemma unknown_command_prints_usage_witness :
  exists st',
    script offline (fun _ => Val "0.14.1") (ret tt) ["help"] (start ∅) = (Val 0, st') /\
    fs st' !! INSTALL_BASE_DIR offline = Some (Dir ∅).
Proof.
  destruct (unknown_command_prints_usage offline (fun _ => Val "0.14.1") (ret tt)
              ["help"] (start ∅)) as (st' & j & Hrun & Hfs & _ & _).
  - intros command Hc. injection Hc as <-. intros Hin.
    apply list_elem_of_In in Hin. simpl in Hin.
    repeat (destruct Hin as [Hin|Hin]; [discriminate|]). exact Hin.
  - vm_compute. reflexivity.
  - exists st'. split; [exact Hrun|]. rewrite Hfs. vm_compute. reflexivity.
Defined.

(** X22: [zvm current] changes no file and never fails: it prints the trimmed
    output of the active executable with the name of its directory; when
    the link is absent it says that no version is active, and any other
    failure is reported and swallowed. *)
Theorem current_never_fails E zig_version st :
  exists st',
    handleCurrent E zig_version st = (Val tt, st') /\
    fs st' = fs st /\
    events st' = events st ++
      match fs st !! ACTIVE_VERSION_LINK E with
      | None =>
          [Call (c_readlink (ACTIVE_VERSION_LINK E)) (Some (SystemError "ENOENT"));
           Log Info "No version is currently active."]
      | Some (Link linkTarget) =>
          Call (c_readlink (ACTIVE_VERSION_LINK E)) None ::
          match zig_version (Path.join linkTarget "zig") with
          | Val stdout =>
              [Log Plain (green +:+ "Active version:" +:+ reset +:+ " " +:+ Js.trim stdout
                          +:+ " (" +:+ Path.basename linkTarget +:+ ")");
               Log Plain (gray +:+ "Path: " +:+ Path.show linkTarget +:+ reset)]
          | Throw e =>
              [if has_code "ENOENT" e then Log Info "No version is currently active."
               else Log Failure ("Could not determine current version: " +:+ message e)]
          end
      | Some _ =>
          [Call (c_readlink (ACTIVE_VERSION_LINK E)) (Some (SystemError "EINVAL"));
           Log Failure "Could not determine current version: EINVAL"]
      end.
Proof.
  unfold handleCurrent, try_catch, bind at 1, sys, Fs.readlink.
  destruct (fs st !! ACTIVE_VERSION_LINK E) as [[c|i|t]|]; cbn [failure Fs.enoent].
  - simpl. unfold logError, log. eexists. split; [reflexivity|]. cbn [fs record].
    split; [done|]. rewrite !events_record. by rewrite <- app_assoc.
  - simpl. unfold logError, log. eexists. split; [reflexivity|]. cbn [fs record].
    split; [done|]. rewrite !events_record. by rewrite <- app_assoc.
  - unfold bind at 1, lift. destruct (zig_version (Path.join t "zig")) as [out|e].
    + unfold bind, log. eexists. split; [reflexivity|]. cbn [fs record].
      split; [done|]. rewrite !events_record. by rewrite <- !app_assoc.
    + destruct (has_code "ENOENT" e); unfold logInfo, logError, log;
        (eexists; split; [reflexivity|]; cbn [fs record]; split; [done|]);
        rewrite !events_record; by rewrite <- app_assoc.
  - simpl. unfold logInfo, log. eexists. split; [reflexivity|]. cbn [fs record].
    split; [done|]. rewrite !events_record. by rewrite <- app_assoc.
Qed.

Lemma mkdir_from_existing rest : forall cur f,
  (forall k, 0 < k <= length rest -> exists i, f !! (cur ++ take k rest) = Some (Dir i)) ->
  Fs.mkdir_from cur rest f = (Val tt, f).
Proof.
  induction rest as [|s rest IH]; intros cur f Hdirs; [done|]. simpl.
  destruct (Hdirs 1 ltac:(simpl; lia)) as [i Hi]. simpl in Hi. rewrite take_0 in Hi.
  rewrite Hi. apply IH. intros k Hk.
  destruct (Hdirs (S k) ltac:(simpl; lia)) as [j Hj]. exists j.
  rewrite <- app_assoc. exact Hj.
Qed.

Lemma SHIMS_path E : SHIMS_DIR E = ZVM_DIR E ++ ["shims"].
Proof. reflexivity. Qed.

Lemma setupScript_path E :
  exists name, setupScript E = ZVM_DIR E ++ [name] /\ name <> "shims".
Proof.
  unfold setupScript. destruct (String.eqb (platform E) "win32"); eexists; split;
    try reflexivity; discriminate.
Qed.

Lemma ZVM_DIR_nonempty E : ZVM_DIR E <> [].
Proof. unfold ZVM_DIR, Path.join. simpl. by destruct (homedir E). Qed.

Lemma handleInit_run E st :
  (Fs.mkdir_p (SHIMS_DIR E) (fs st)).1 = Val tt ->
  (forall j, fs st !! setupScript E <> Some (Dir j)) ->
  exists st' i,
    handleInit E st = (Val tt, st') /\
    fs st' = <[setupScript E := File (Text (setupContent E))]>
               (Fs.mkdir_p (SHIMS_DIR E) (fs st)).2 /\
    fs st' !! SHIMS_DIR E = Some (Dir i) /\
    (forall k, 0 < k <= length (SHIMS_DIR E) ->
       exists j, fs st' !! take k (SHIMS_DIR E) = Some (Dir j)).
Proof.
  intros Hmk Hscript.
  destruct (setupScript_path E) as (name & Hpath & Hname).
  assert (Hnp : ~ setupScript E `prefix_of` SHIMS_DIR E).
  { rewrite Hpath, SHIMS_path. intros [k Hk]. rewrite <- app_assoc in Hk.
    apply app_inv_head in Hk. simpl in Hk. congruence. }
  pose proof (mkdir_p_frame (SHIMS_DIR E) (fs st) (setupScript E) Hnp) as Hsame.
  unfold Fs.mkdir_p in Hmk, Hsame |- *.
  destruct (Fs.mkdir_from [] (SHIMS_DIR E) (fs st)) as [r f1] eqn:Hrun.
  destruct (mkdir_from_spec _ _ _ _ _ Hrun) as (_ & _ & Hdirs).
  simpl in Hmk, Hsame. subst r. specialize (Hdirs eq_refl).
  destruct (Hdirs (length (SHIMS_DIR E))) as [i Hi].
  { rewrite SHIMS_path, length_app. simpl. lia. }
  destruct (Hdirs (length (ZVM_DIR E))) as [z Hz].
  { rewrite SHIMS_path, length_app. simpl. pose proof (ZVM_DIR_nonempty E).
    destruct (ZVM_DIR E); simpl; [done|lia]. }
  simpl in Hi, Hz. rewrite firstn_all in Hi. rewrite SHIMS_path, take_app_length in Hz.
  assert (Hw : forall c, Fs.writeFile (setupScript E) (Val c) f1
                         = (Val tt, <[setupScript E := File c]> f1)).
  { intros c. unfold Fs.writeFile. rewrite Hsame.
    destruct (fs st !! setupScript E) as [[| j |]|] eqn:Hl; try done.
    - by destruct (Hscript j).
    - rewrite (parent_ok_intro f1 _ z); [done|].
      rewrite Hpath. unfold Path.dirname. by rewrite removelast_last. }
  assert (Hne : SHIMS_DIR E <> setupScript E).
  { rewrite Hpath, SHIMS_path. intros H. apply app_inv_head in H. congruence. }
  unfold handleInit, bind at 1, logInfo, log at 1, bind at 1, sys at 1.
  cbn [fs record]. unfold Fs.mkdir_p. rewrite Hrun. cbn [failure fst snd].
  unfold setupScript, setupContent in *.
  destruct (String.eqb (platform E) "win32");
    unfold bind, sys, log; cbn [fs record]; rewrite Hw; cbn [failure fs record];
    (eexists _, i; split; [reflexivity|]; cbn [fs record]; split; [done|]);
    (split; [by rewrite lookup_insert_ne|]);
    intros k Hk; destruct (Hdirs k Hk) as [j Hj]; exists j;
    (rewrite lookup_insert_ne; [exact Hj|]);
    intros Heq; apply Hnp; rewrite Heq; apply prefix_take.
Qed.

(** X23: [zvm init] creates the shims directory and writes the setup script of
    the platform, touching nothing else; after it, [zvm use] with a name
    that resolves sets the Active Link to the directory resolved.  Running
    [zvm init] again changes nothing. *)
Theorem init_enables_use E st :
  (Fs.mkdir_p (SHIMS_DIR E) (fs st)).1 = Val tt ->
  (forall j, fs st !! setupScript E <> Some (Dir j)) ->
  fs st !! ACTIVE_VERSION_LINK E = None \/
  (exists t, fs st !! ACTIVE_VERSION_LINK E = Some (Link t)) ->
  exists st1,
    handleInit E st = (Val tt, st1) /\
    fs st1 !! setupScript E = Some (File (Text (setupContent E))) /\
    (forall q, ~ q `prefix_of` SHIMS_DIR E -> q <> setupScript E ->
               fs st1 !! q = fs st !! q) /\
    (forall tok d,
       tok <> EmptyString -> d <> EmptyString ->
       (resolveVersion E tok st1).1 = Val (Some d) ->
       exists st2,
         handleUse E (Some tok) st1 = (Val tt, st2) /\
         fs st2 !! ACTIVE_VERSION_LINK E
           = Some (Link (Path.join (INSTALL_BASE_DIR E) d))) /\
    (exists st2, handleInit E st1 = (Val tt, st2) /\ fs st2 = fs st1).
Proof.
  intros Hmk Hscript Hlink.
  destruct (handleInit_run E st Hmk Hscript) as (st1 & i & Hrun & Hfs & Hshims & Hdirs).
  exists st1. split; [exact Hrun|].
  assert (Hframe : forall q, ~ q `prefix_of` SHIMS_DIR E -> q <> setupScript E ->
                             fs st1 !! q = fs st !! q).
  { intros q Hq Hne. rewrite Hfs, lookup_insert_ne by done. by apply mkdir_p_frame. }
  split; [by rewrite Hfs, lookup_insert_eq|]. split; [exact Hframe|]. split.
  - intros tok d Htok Hd Hres.
    assert (Hact : fs st1 !! ACTIVE_VERSION_LINK E = fs st !! ACTIVE_VERSION_LINK E).
    { apply Hframe.
      - intros [k Hk]. apply (f_equal (@length string)) in Hk.
        unfold ACTIVE_VERSION_LINK, Path.join in Hk. simpl in Hk.
        rewrite !length_app in Hk. simpl in Hk. lia.
      - destruct (setupScript_path E) as (name & -> & _).
        unfold ACTIVE_VERSION_LINK, SHIMS_DIR, Path.join. simpl.
        intros H. apply (f_equal (@length string)) in H.
        rewrite !length_app in H. simpl in H. lia. }
    assert (Ht : Js.truthy tok = true) by (by destruct tok).
    assert (Hdt : Js.truthy d = true) by (by destruct d).
    rewrite (handleUse_resolved E st1 tok d Ht Hres Hdt).
    pose proof (resolveVersion_fs E st1 tok) as Hfs2.
    destruct (activate_run E (resolveVersion E tok st1).2 d i) as (st2 & Hrun2 & Hfs3 & _).
    + by rewrite Hfs2.
    + rewrite Hfs2, Hact. exact Hlink.
    + exists st2. split; [exact Hrun2|]. rewrite Hfs3. apply lookup_insert_eq.
  - assert (Hagain : Fs.mkdir_p (SHIMS_DIR E) (fs st1) = (Val tt, fs st1)).
    { unfold Fs.mkdir_p. apply mkdir_from_existing. exact Hdirs. }
    destruct (handleInit_run E st1) as (st2 & i2 & Hrun2 & Hfs2 & _).
    + by rewrite Hagain.
    + intros j. rewrite Hfs, lookup_insert_eq. done.
    + exists st2. split; [exact Hrun2|]. rewrite Hfs2, Hagain. cbn [snd].
      rewrite Hfs. apply insert_insert_eq.
Qed.

Lemma init_enables_use_witness :
  exists st1,
    handleInit offline (start never_initialised) = (Val tt, st1) /\
    fs st1 !! setupScript offline = Some (File (Text (setupContent offline))).
Proof.
  destruct (init_enables_use offline (start never_initialised))
    as (st1 & Hrun & Hscript & _).
  - vm_compute. reflexivity.
  - intros j. vm_compute. discriminate.
  - left. vm_compute. reflexivity.
  - exists st1. split; [exact Hrun|exact Hscript].
Defined.

(** ** A whole install *)

Lemma fetchMirrors_run E st :
  exists st', fetchMirrors E st = (Val (mirrorsOf E), st') /\ fs st' = fs st.
Proof.
  unfold fetchMirrors, mirrorsOf, try_catch, bind at 1, fetch, sys.
  destruct (fetch_reply E "GET" MIRRORS_URL) as [e|[] [c|e]];
    cbn [fst snd failure fs record];
    unfold bind, lift, logInfo, logWarn, log, ret; cbn [fs record];
    eexists; split; reflexivity || done.
Qed.

(** Whether [mkdir -p] succeeds depends on the path and on what lies on
    it only. *)
Lemma mkdir_from_ext rest : forall cur f g,
  (forall k, 0 < k <= length rest -> f !! (cur ++ take k rest) = g !! (cur ++ take k rest)) ->
  (Fs.mkdir_from cur rest f).1 = (Fs.mkdir_from cur rest g).1.
Proof.
  induction rest as [|s rest IH]; intros cur f g Hsame; [done|]. simpl.
  pose proof (Hsame 1 ltac:(simpl; lia)) as H1. simpl in H1. rewrite take_0 in H1.
  rewrite <- H1.
  assert (Hlonger : forall k, 0 < k <= length rest ->
            (cur ++ [s]) ++ take k rest <> cur ++ [s]).
  { intros k Hk H. apply (f_equal (@length string)) in H.
    rewrite !length_app, length_take in H. simpl in H. lia. }
  destruct (f !! (cur ++ [s])) as [[| |]|]; try done.
  - apply IH. intros k Hk. specialize (Hsame (S k) ltac:(simpl; lia)).
    simpl in Hsame. by rewrite <- !app_assoc.
  - apply IH. intros k Hk. rewrite !lookup_insert_ne by (intros H; by apply (Hlonger k Hk)).
    specialize (Hsame (S k) ltac:(simpl; lia)).
    simpl in Hsame. by rewrite <- !app_assoc.
Qed.

Lemma rename_fresh o n f x j :
  f !! o = Some x -> n <> [] -> f !! n = None -> f !! Path.dirname n = Some (Dir j) ->
  Fs.rename None o n f = (Val tt, <[n := x]> (delete o f)).
Proof.
  intros Ho Hn Hnone Hparent. unfold Fs.rename. rewrite Ho.
  destruct n as [|s n]; [done|]. rewrite Hnone.
  by rewrite (parent_ok_intro _ _ j).
Qed.

(** X24: [zvm install v] from start to end: when the platform is supported, the
    first source that serves one of the two file names serves a sound
    archive that names one plain directory, that version is not installed
    yet, the shell hands the paths of the download and of the staging
    directory on to [tar] as they are, the staging directory can be made,
    and neither the first rename nor the deletion of the download is
    interfered with, the install succeeds.  It leaves the unpacked
    directory at its final path, removes the staging directory and the
    downloaded archive, and touches nothing else but the directories above
    the staging directory. *)
Theorem install_end_to_end E st v info t :
  v <> EmptyString ->
  getZigPackageInfo E v = Val info ->
  (scan (served E (writable E (fs st)))
        (candidates (mirrorsOf E ++ [canonicalUrl info]) (potentialFilenames info))).2
    = Some (Tarball t) ->
  tar_damage t = None ->
  Js.plain_name (unpackedDirName (tar_listing t)) = true ->
  shell_word E (Path.show (tempFile E)) = true ->
  shell_word E (Path.show (tempInstallPath E (tar_listing t))) = true ->
  archive_held E = None ->
  fs st !! finalInstallPath E (tar_listing t) = None ->
  tempFile E <> finalInstallPath E (tar_listing t) ->
  ~ tempFile E `prefix_of` tempInstallPath E (tar_listing t) ->
  (Fs.mkdir_p (tempInstallPath E (tar_listing t)) (fs st)).1 = Val tt ->
  rename_busy E 0 = None ->
  exists st',
    handleInstall E (Some v) None st = (Val tt, st') /\
    (exists inside,
       fs st' !! finalInstallPath E (tar_listing t) = Some (Dir inside) /\
       tar_payload t ⊆ inside) /\
    fs st' !! tempInstallPath E (tar_listing t) = None /\
    fs st' !! tempFile E = None /\
    (forall q,
       q <> tempFile E -> q <> finalInstallPath E (tar_listing t) ->
       ~ q `prefix_of` tempInstallPath E (tar_listing t) ->
       fs st' !! q = fs st !! q).
Proof.
  intros Hv Hinfo Hscan Hsound Hname Hword Hword' Hheld Hfinal Htf Htp Hmk Hbusy.
  destruct (staging_path E (tar_listing t) Hname) as [Efinal Estaging].
  destruct (plain_paths E (tar_listing t) Hname) as (_ & _ & Etemp & _).
  set (final := finalInstallPath E (tar_listing t)) in *.
  set (staging := tempInstallPath E (tar_listing t)) in *.
  unfold handleInstall. simpl (Js.truthy_opt (Some v)).
  assert (Js.truthy v = true) as -> by (by destruct v). cbn [negb default]. unfold id.
  unfold aliasTaken. simpl (Js.truthy_opt None). cbv iota.
  unfold bind at 1, ret at 1. unfold bind at 1, logInfo at 1, log at 1.
  unfold bind at 1, lift. rewrite Hinfo.
  unfold bind at 1, logInfo at 1, log at 1. unfold bind at 1, logInfo at 1, log at 1.
  cbn [fs record]. unfold bind at 1.
  match goal with |- context [fetchMirrors E ?s] => set (st3 := s) end.
  assert (Hfs3 : fs st3 = fs st) by done.
  destruct (fetchMirrors_run E st3) as (st4 & Hmirrors & Hfs4).
  rewrite Hmirrors.
  unfold bind at 1, attemptDownload, bind at 1.
  pose proof (forBaseUrls_frame E (potentialFilenames info)
                (mirrorsOf E ++ [canonicalUrl info])) as Hframe.
  destruct (forBaseUrls_run E (potentialFilenames info)
              (mirrorsOf E ++ [canonicalUrl info]) st4)
    as (st5 & returned & Hdl & Hret & _ & Hfile).
  rewrite Hfs4, Hfs3, Hscan in Hret, Hfile. subst returned. rewrite Hdl.
  assert (Hframe5 : forall q, q <> tempFile E -> fs st5 !! q = fs st !! q).
  { intros q Hq. specialize (Hframe q st4 Hq). rewrite Hdl in Hframe. simpl in Hframe.
    by rewrite Hframe, Hfs4, Hfs3. }
  unfold ret at 1.
  assert (Hfinal5 : fs st5 !! final = None).
  { rewrite Hframe5 by done. exact Hfinal. }
  destruct (installArchive_stages E (tempFile E) t st5 Hname Hfile Hfinal5)
    as (r & st6 & Hinst & Hcase).
  fold final staging in Hcase.
  assert (Hmk5 : (Fs.mkdir_p staging (fs st5)).1 = Val tt).
  { rewrite <- Hmk. unfold Fs.mkdir_p. apply mkdir_from_ext. intros k Hk. simpl.
    apply Hframe5. intros Heq. apply Htp. rewrite <- Heq. apply prefix_take. }
  pose proof (mkdir_p_frame staging (fs st5)) as Hmkframe.
  destruct (Fs.mkdir_p staging (fs st5)) as [rm f1] eqn:Hrun.
  destruct (mkdir_from_spec _ _ _ _ _ Hrun) as (_ & _ & Hdirs).
  cbn [fst snd] in Hcase, Hmk5, Hmkframe. subst rm.
  destruct Hcase as [(Hw & _)|(_ & Hcase)]; [congruence|].
  destruct Hcase as [(e & He & _)|(_ & i & Hst & Hfile1 & Hfin1 & Hcase)]; [done|].
  destruct Hcase as [(Hw & _)|(_ & Hcase)]; [congruence|].
  destruct Hcase as [(part & Hd & _)|(_ & n & _ & Hbefore & Hcase)]; [congruence|].
  cbv zeta in Hbefore, Hcase.
  set (f2 := <[staging := Dir (tar_payload t ∪ i)]> f1) in *.
  assert (Hsf : staging <> final) by (rewrite Etemp; apply suffixed_ne; done).
  assert (Hfirst : (Fs.rename (rename_busy E 0) staging final f2).1 = Val tt).
  { rewrite Hbusy.
    destruct (Hdirs eq_refl (length (INSTALL_BASE_DIR E))) as [j Hj].
    { rewrite Estaging, length_app. simpl.
      pose proof (INSTALL_BASE_DIR_nonempty E). destruct (INSTALL_BASE_DIR E); simpl;
        [done|lia]. }
    simpl in Hj. rewrite Estaging, take_app_length in Hj.
    rewrite (rename_fresh staging final f2 (Dir (tar_payload t ∪ i)) j); [done| | | |].
    - unfold f2. by rewrite lookup_insert_eq.
    - rewrite Efinal. by destruct (INSTALL_BASE_DIR E).
    - unfold f2. by rewrite lookup_insert_ne.
    - rewrite Efinal. unfold Path.dirname. rewrite removelast_last.
      unfold f2. rewrite lookup_insert_ne; [exact Hj|].
      rewrite Estaging. intros Heq.
      apply (f_equal (@length string)) in Heq.
      rewrite length_app in Heq. simpl in Heq. lia. }
  assert (n = 0) as ->.
  { destruct n as [|n]; [done|]. specialize (Hbefore 0 ltac:(lia)).
    rewrite Hfirst in Hbefore. done. }
  destruct Hcase as [(e & He & _)|(_ & Hcase)]; [congruence|].
  rewrite Hheld in Hcase. destruct Hcase as [-> Hfs6].
  unfold bind at 1. rewrite Hinst. simpl (Js.truthy_opt None). cbv iota.
  unfold bind, ret, logSuccess, log. eexists. split; [reflexivity|]. cbn [fs record].
  assert (Hne : staging <> tempFile E) by congruence.
  assert (Hnf : final <> tempFile E) by congruence.
  rewrite Hfs6. split; [|split; [|split]].
  - exists (tar_payload t ∪ i). rewrite lookup_delete_ne by done.
    rewrite lookup_insert_eq. split; [done|]. apply map_union_subseteq_l.
  - rewrite lookup_delete_ne by done. rewrite lookup_insert_ne by done.
    apply lookup_delete_eq.
  - apply lookup_delete_eq.
  - intros q Hq Hqf Hqs.
    assert (q <> staging) by (intros ->; by apply Hqs).
    rewrite lookup_delete_ne by done. rewrite lookup_insert_ne by done.
    rewrite lookup_delete_ne by done. unfold f2. rewrite lookup_insert_ne by done.
    rewrite Hmkframe by done. by apply Hframe5.
Qed.

Lemma install_end_to_end_witness :
  exists st',
    handleInstall official_only (Some "0.14.1") None (start ready) = (Val tt, st') /\
    (exists inside,
       fs st' !! finalInstallPath official_only (tar_listing zig_linux) = Some (Dir inside) /\
       tar_payload zig_linux ⊆ inside) /\
    fs st' !! tempInstallPath official_only (tar_listing zig_linux) = None /\
    fs st' !! tempFile official_only = None /\
    (forall q,
       q <> tempFile official_only ->
       q <> finalInstallPath official_only (tar_listing zig_linux) ->
       ~ q `prefix_of` tempInstallPath official_only (tar_listing zig_linux) ->
       fs st' !! q = fs (start ready) !! q).
Proof.
  apply (install_end_to_end official_only (start ready) "0.14.1"
           {| canonicalUrl := "https://ziglang.org/download/0.14.1";
              potentialFilenames := ["zig-linux-x86_64-0.14.1.tar.xz";
                                     "zig-x86_64-linux-0.14.1.tar.xz"] |}
           zig_linux).
  - discriminate.
  - vm_compute. reflexivity.
  - vm_compute. reflexivity.
  - reflexivity.
  - vm_compute. reflexivity.
  - vm_compute. reflexivity.
  - vm_compute. reflexivity.
  - reflexivity.
  - vm_compute. reflexivity.
  - vm_compute. discriminate.
  - intros [k Hk]. vm_compute in Hk. discriminate.
  - vm_compute. reflexivity.
  - reflexivity.
Defined.

(** ** Arguments and packages *)

Lemma parseArgs_inv args : forall flags positionalArgs,
  exists extra,
    (parseArgs args flags positionalArgs).2 = positionalArgs ++ extra /\
    extra `sublist_of` args /\
    Forall (fun arg => is_flag arg = false) extra /\
    (forall name value,
       (parseArgs args flags positionalArgs).1 !! name = Some value ->
       flags !! name = Some value \/
       exists arg, arg ∈ args /\ is_flag arg = true /\ name = substringFrom 2 arg) /\
    (Forall (fun arg => is_flag arg = false) args ->
     extra = args /\ (parseArgs args flags positionalArgs).1 = flags).
Proof.
  induction args as [args IH] using (induction_ltof1 _ (@length string)).
  unfold ltof in IH.
  intros flags positionalArgs. destruct args as [|arg rest].
  { exists []. simpl. rewrite app_nil_r. split; [done|]. split; [done|].
    split; [constructor|]. split; [intros; by left|intros; split; reflexivity]. }
  cbn [parseArgs]. fold (is_flag arg). destruct (is_flag arg) eqn:Harg.
  - destruct rest as [|value rest'].
    + exists []. cbn [fst snd]. rewrite app_nil_r. split; [done|]. split; [apply sublist_nil_l|].
      split; [constructor|]. split.
      * intros name v Hl. destruct (decide (name = substringFrom 2 arg)) as [->|Hne].
        -- right. exists arg. split; [by left|done].
        -- left. by rewrite lookup_insert_ne in Hl.
      * intros Hall. inversion Hall; subst. congruence.
    + destruct (IH rest' ltac:(simpl; lia) (<[substringFrom 2 arg := Some value]> flags)
                  positionalArgs) as (extra & Hpos & Hsub & Hno & Hflags & _).
      exists extra. split; [done|]. split; [by do 2 apply sublist_cons|].
      split; [done|]. split.
      * intros name v Hl. destruct (Hflags name v Hl) as [Hin|(a & Ha & Hf & Hn)].
        -- destruct (decide (name = substringFrom 2 arg)) as [->|Hne].
           ++ right. exists arg. split; [by left|done].
           ++ left. by rewrite lookup_insert_ne in Hin.
        -- right. exists a. split; [by do 2 right|done].
      * intros Hall. inversion Hall; subst. congruence.
  - destruct (IH rest ltac:(simpl; lia) flags (positionalArgs ++ [arg]))
      as (extra & Hpos & Hsub & Hno & Hflags & Hplain).
    exists (arg :: extra). split; [by rewrite Hpos, <- app_assoc|].
    split; [by apply sublist_skip|]. split; [by constructor|]. split.
    + intros name v Hl. destruct (Hflags name v Hl) as [Hin|(a & Ha & Hf & Hn)];
        [by left|]. right. exists a. split; [by right|done].
    + intros Hall. inversion Hall; subst. destruct (Hplain ltac:(done)) as [-> ->]. done.
Qed.

(** X25: the positional arguments of a command line are arguments of it, in
    their order, and none of them starts with two dashes; every flag comes
    from an argument that does; a command line without such an argument
    has all its arguments positional and no flag. *)
Theorem positional_arguments args :
  (parseArgs args ∅ []).2 `sublist_of` args /\
  Forall (fun arg => Js.startsWith arg "--" = false) (parseArgs args ∅ []).2 /\
  (forall name,
     is_Some ((parseArgs args ∅ []).1 !! name) ->
     exists arg, arg ∈ args /\ Js.startsWith arg "--" = true /\ name = substringFrom 2 arg) /\
  (Forall (fun arg => Js.startsWith arg "--" = false) args ->
   parseArgs args ∅ [] = (∅, args)).
Proof.
  destruct (parseArgs_inv args ∅ []) as (extra & Hpos & Hsub & Hno & Hflags & Hplain).
  simpl in Hpos. rewrite Hpos. split; [done|]. split; [done|]. split.
  - intros name [value Hl]. destruct (Hflags name value Hl) as [Hin|Hin]; [|done].
    by rewrite lookup_empty in Hin.
  - intros Hall. destruct (Hplain Hall) as [-> Hf].
    destruct (parseArgs args ∅ []) as [flags pos]. simpl in *. by subst.
Qed.

Lemma positional_arguments_witness :
  parseArgs ["0.14.1"; "extra"] ∅ [] = (∅, ["0.14.1"; "extra"]).
Proof.
  apply (positional_arguments ["0.14.1"; "extra"]).
  repeat constructor.
Defined.

(** X26: for a development build the version is used as typed in both file
    names and the archive is looked for under [/builds]; for a release the
    download directory is named by the version as typed, also where the
    file names carry the number extracted from it. *)
Theorem package_locations E v os_target arch_target :
  getPlatformInfo E = Val (os_target, arch_target) ->
  let extension := if String.eqb os_target "windows" then "zip" else "tar.xz" in
  (Js.includes v "-dev" = true ->
   getZigPackageInfo E v =
     Val {| canonicalUrl := "https://ziglang.org/builds";
            potentialFilenames :=
              [ "zig-" +:+ os_target +:+ "-" +:+ arch_target +:+ "-" +:+ v
                  +:+ "." +:+ extension;
                "zig-" +:+ arch_target +:+ "-" +:+ os_target +:+ "-" +:+ v
                  +:+ "." +:+ extension ] |}) /\
  (Js.includes v "-dev" = false ->
   forall pkg,
     getZigPackageInfo E v = Val pkg ->
     canonicalUrl pkg = "https://ziglang.org/download/" +:+ v).
Proof.
  intros Hplat. cbv zeta. unfold getZigPackageInfo, normalizeVersion. rewrite Hplat.
  split; intros Hdev; rewrite Hdev; cbn [negb].
  - reflexivity.
  - intros pkg. destruct (Regex.exec versionPattern v); [|done].
    intros H. injection H as <-. reflexivity.
Qed.

Lemma package_locations_witness :
  getZigPackageInfo offline "0.15.0-dev.1+abcdef0" =
    Val {| canonicalUrl := "https://ziglang.org/builds";
           potentialFilenames :=
             [ "zig-linux-x86_64-0.15.0-dev.1+abcdef0.tar.xz";
               "zig-x86_64-linux-0.15.0-dev.1+abcdef0.tar.xz" ] |}.
Proof.
  apply (package_locations offline "0.15.0-dev.1+abcdef0" "linux" "x86_64").
  - reflexivity.
  - reflexivity.
Defined.

(** ** Listing *)

Lemma removedAliases_elem m d a : a ∈ removedAliases m d <-> m !! a = Some d.
Proof.
  unfold removedAliases. rewrite list_elem_of_In, in_map_iff. split.
  - intros ([k v] & <- & Hin). apply filter_In in Hin as [Hin Heq]. simpl in *.
    apply String.eqb_eq in Heq. subst v.
    by apply elem_of_map_to_list, list_elem_of_In.
  - intros Hl. exists (a, d). split; [done|]. apply filter_In. split.
    + by apply list_elem_of_In, elem_of_map_to_list.
    + apply String.eqb_refl.
Qed.

Lemma removedAliases_NoDup m d : NoDup (removedAliases m d).
Proof.
  unfold removedAliases.
  assert (H : forall l : list (string * string),
            NoDup (map fst l) ->
            NoDup (map fst (List.filter (fun kv => String.eqb kv.2 d) l))).
  { induction l as [|[k v] l IH]; simpl; [done|]. intros Hnd.
    apply NoDup_cons in Hnd as [Hk Hnd]. destruct (String.eqb v d); simpl; [|by apply IH].
    apply NoDup_cons. split; [|by apply IH].
    intros Hin. apply Hk. apply list_elem_of_In, in_map_iff in Hin as ([k' v'] & Heq & Hin).
    simpl in Heq. subst k'. apply filter_In in Hin as [Hin _].
    apply list_elem_of_In, in_map_iff. by exists (k, v'). }
  apply H, NoDup_fst_map_to_list.
Qed.

Lemma reverseAliases_plain m :
  (forall name dir, m !! name = Some dir -> Js.arr_includes Js.inherited dir = false) ->
  reverseAliases m = Val (removedAliases m).
Proof.
  intros Hplain. unfold reverseAliases.
  destruct (existsb _ (map_to_list m)) eqn:Hex; [|done].
  apply existsb_exists in Hex as ([k v] & Hin & Hv). cbn [snd] in Hv.
  apply list_elem_of_In, elem_of_map_to_list in Hin. by rewrite (Hplain k v Hin) in Hv.
Qed.

Lemma handleList_run E st m dirs :
  (getAliases E st).1 = Val (Obj m) ->
  reverseAliases m = Val (removedAliases m) ->
  (Fs.readdir (INSTALL_BASE_DIR E) (fs st)).1 = Val dirs ->
  exists st',
    handleList E st = (Val tt, st') /\
    fs st' = fs st /\
    events st' =
      events st ++
      [Log Info (listHeader E);
       Call (c_readlink (ACTIVE_VERSION_LINK E))
            (failure (Fs.readlink (ACTIVE_VERSION_LINK E) (fs st)).1);
       aliasRead E (fs st);
       Call (c_readdir (INSTALL_BASE_DIR E)) None] ++
      (let zigDirs := List.filter (fun dir => Js.startsWith dir "zig-") dirs in
       if Nat.eqb (length zigDirs) 0 then [Log Plain "  (No versions installed yet)"]
       else map (fun dir => Log Plain (listLine (activeDir E (fs st)) m dir)) zigDirs).
Proof.
  intros Hal Hplain Hrd. unfold handleList, listHeader, logInfo, bind at 1, log at 1.
  unfold try_catch at 1, bind at 1, try_catch at 1, bind at 1, sys at 1.
  cbn [fs record]. unfold activeDir.
  pose proof (readdir_fs (INSTALL_BASE_DIR E) (fs st)) as Hrf.
  pose proof (readlink_fs (ACTIVE_VERSION_LINK E) (fs st)) as Hlf.
  destruct (Fs.readlink (ACTIVE_VERSION_LINK E) (fs st)) as [[t|e] f'];
    simpl in Hlf; subst f'.
  all: cbn [ret fst snd failure]; unfold bind at 1.
  all: match goal with |- context [getAliases ?E' ?s] =>
         pose proof (getAliases_state E' s) as Hst;
         match goal with H : (getAliases E' ?s0).1 = Val _ |- _ =>
           pose proof (getAliases_ext E' s s0 eq_refl) as Hext end;
         destruct (getAliases E' s) as [r s1] end.
  all: simpl in Hst, Hext; rewrite Hal in Hext; subst r s1; cbn [fs record].
  all: unfold bind at 1, lift at 1; cbn [entriesGrouped]; rewrite Hplain.
  all: unfold bind at 1, sys at 1; cbn [fs record].
  all: destruct (Fs.readdir (INSTALL_BASE_DIR E) (fs st)) as [r f2]; simpl in Hrd, Hrf;
    subst r f2; cbn [failure].
  all: cbv zeta; destruct (Nat.eqb _ 0).
  all: try (unfold log; eexists; split; [done|]; cbn [fs record]; split; [done|];
            rewrite !events_record, <- !app_assoc; done).
  all: match goal with |- context [forEach ?l (fun dir => log Plain (@?g dir)) ?s] =>
         destruct (forEach_log l Plain g s) as (Hv & Hf & He) end.
  all: match goal with |- context [forEach ?l ?b ?s] =>
         destruct (forEach l b s) as [r s'] end; simpl in Hv, Hf, He; subst r.
  all: eexists; split; [done|]; split; [by rewrite Hf|].
  all: by rewrite He, !events_record, <- !app_assoc.
Qed.

(** X27: with an alias store of strings none of which is a name that every
    object inherits ([constructor], [toString], ...), [zvm list] prints one
    line for each name in the installation root that starts with [zig-],
    in the order of the listing, or one line saying that nothing is
    installed; the line of the active directory carries the arrow, and
    the aliases named on a line are the names bound to its directory, each
    of them once.  It changes no file. *)
Theorem list_shows_versions_and_aliases E st m dirs :
  (getAliases E st).1 = Val (Obj m) ->
  (forall name dir, m !! name = Some dir -> Js.arr_includes Js.inherited dir = false) ->
  (Fs.readdir (INSTALL_BASE_DIR E) (fs st)).1 = Val dirs ->
  let zigDirs := List.filter (fun dir => Js.startsWith dir "zig-") dirs in
  exists st' lines,
    handleList E st = (Val tt, st') /\
    fs st' = fs st /\
    events st' =
      events st ++
      [Log Info (listHeader E);
       Call (c_readlink (ACTIVE_VERSION_LINK E))
            (failure (Fs.readlink (ACTIVE_VERSION_LINK E) (fs st)).1);
       aliasRead E (fs st);
       Call (c_readdir (INSTALL_BASE_DIR E)) None] ++
      (if Nat.eqb (length zigDirs) 0 then [Log Plain "  (No versions installed yet)"]
       else map (Log Plain) lines) /\
    Forall2
      (fun dir line =>
         exists names,
           NoDup names /\
           (forall name, name ∈ names <-> m !! name = Some dir) /\
           line =
             (if bool_decide (Some dir = activeDir E (fs st)) then green +:+ "-> "
              else "   ")
             +:+ cyan +:+ dir +:+ reset
             +:+ match names with
                 | [] => EmptyString
                 | _ => gray +:+ " (alias: " +:+ Js.join ", " names +:+ ")"
                 end)
      zigDirs lines.
Proof.
  intros Hal Hplain Hrd zigDirs.
  destruct (handleList_run E st m dirs Hal (reverseAliases_plain m Hplain) Hrd)
    as (st' & Hrun & Hfs & Hev).
  exists st', (map (listLine (activeDir E (fs st)) m) zigDirs).
  split; [exact Hrun|]. split; [exact Hfs|]. split.
  - rewrite Hev. cbv zeta. fold zigDirs. by rewrite map_map.
  - apply Forall2_fmap_r, Forall_Forall2_diag, Forall_forall. intros dir _.
    exists (removedAliases m dir). split; [apply removedAliases_NoDup|].
    split; [intros name; apply removedAliases_elem|]. done.
Qed.

Lemma list_shows_versions_and_aliases_witness :
  exists st',
    handleList offline (start active_and_aliased) = (Val tt, st') /\
    fs st' = fs (start active_and_aliased).
Proof.
  destruct (list_shows_versions_and_aliases offline (start active_and_aliased)
              {[ "stable" := "zig-linux-x86_64-0.14.1"; "old" := "zig-linux-x86_64-0.13.0" ]}
              ["zig-linux-x86_64-0.14.1"; "zig-linux-x86_64-0.13.0"])
    as (st' & lines & Hrun & Hfs & _).
  - vm_compute. reflexivity.
  - intros name dir Hm.
    apply lookup_insert_Some in Hm as [[_ <-]|[_ Hm]]; [reflexivity|].
    apply lookup_singleton_Some in Hm as [_ <-]. reflexivity.
  - vm_compute. reflexivity.
  - exists st'. split; [exact Hrun|exact Hfs].
Defined.

(** ** What a failed extraction leaves behind *)

Lemma NoDup_omap_inj {A B} (f : A -> option B) l :
  (forall x y z, f x = Some z -> f y = Some z -> x = y) ->
  NoDup l -> NoDup (omap f l).
Proof.
  intros Hinj. induction 1 as [|x l Hx Hl IH]; simpl; [constructor|].
  destruct (f x) as [z|] eqn:Hz; [|done]. constructor; [|done].
  intros Hin. apply list_elem_of_omap in Hin as (y & Hy & Hfy).
  by rewrite (Hinj x y z Hz Hfy) in Hx.
Qed.

Lemma entry_of_key dir k d : Fs.entry_of dir k = Some d -> k = dir ++ [d].
Proof.
  unfold Fs.entry_of, Path.dirname, Path.basename.
  destruct k as [|a k]; [done|]. destruct (decide _) as [Heq|]; [|done].
  intros H. injection H as Hl. rewrite <- Heq, <- Hl.
  by apply (app_removelast_last (l := a :: k) EmptyString).
Qed.

Lemma entry_of_inj dir k1 k2 d :
  Fs.entry_of dir k1 = Some d -> Fs.entry_of dir k2 = Some d -> k1 = k2.
Proof. intros H1 H2. by rewrite (entry_of_key _ _ _ H1), (entry_of_key _ _ _ H2). Qed.

(** No name is listed twice. *)
Lemma entries_NoDup dir f : NoDup (Fs.entries dir f).
Proof.
  unfold Fs.entries. apply NoDup_omap_inj.
  - intros k1 k2 d. apply entry_of_inj.
  - apply NoDup_fst_map_to_list.
Qed.

Lemma filter_none {A} (P : A -> bool) l :
  (forall y, y ∈ l -> P y = false) -> List.filter P l = [].
Proof.
  induction l as [|a l IH]; intros Hno; [done|]. simpl.
  rewrite (Hno a) by (by left). apply IH. intros y Hy. apply Hno. by right.
Qed.

Lemma filter_only {A} (P : A -> bool) l x :
  NoDup l -> x ∈ l -> P x = true -> (forall y, y ∈ l -> P y = true -> y = x) ->
  List.filter P l = [x].
Proof.
  induction 1 as [|a l Ha Hl IH]; intros Hx HP Honly.
  - by apply elem_of_nil in Hx.
  - simpl. destruct (P a) eqn:Hpa.
    + assert (a = x) as -> by (apply Honly; [by left|done]).
      f_equal. apply filter_none. intros y Hy. destruct (P y) eqn:Hpy; [|done].
      exfalso. apply Ha. rewrite <- (Honly y); [done|by right|done].
    + apply elem_of_cons in Hx as [->|Hx]; [congruence|].
      apply IH; [done|done|]. intros y Hy. apply Honly. by right.
Qed.

(** X28: when the extraction of an archive that names one plain directory
    fails (the shell hands the paths of the download and of the staging
    directory on to [tar] as they are, and the archive is damaged), the
    staging directory left behind is, for name resolution, a version like
    any other: with an alias store of strings in which the lookup of the
    token finds nothing, a token contained in its name, and in no other
    listed name, resolves to it, so that [zvm use] with that token goes
    on to activate the partly unpacked directory. *)
Theorem failed_extraction_resolves E file t part st tok m :
  Js.plain_name (unpackedDirName (tar_listing t)) = true ->
  shell_word E (Path.show file) = true ->
  shell_word E (Path.show (tempInstallPath E (tar_listing t))) = true ->
  fs st !! file = Some (File (Tarball t)) ->
  fs st !! finalInstallPath E (tar_listing t) = None ->
  tar_damage t = Some part ->
  (Fs.mkdir_p (tempInstallPath E (tar_listing t)) (fs st)).1 = Val tt ->
  tok <> EmptyString ->
  (getAliases E st).1 = Val (Obj m) ->
  alias_of m tok = None ->
  Js.includes (unpackedDirName (tar_listing t) +:+ ".tmp") tok = true ->
  (forall k n d,
     fs st !! k = Some n -> Fs.entry_of (INSTALL_BASE_DIR E) k = Some d ->
     d <> unpackedDirName (tar_listing t) +:+ ".tmp" ->
     Js.includes d tok = false) ->
  exists e st',
    installArchive E file st = (Throw e, st') /\
    (resolveVersion E tok st').1 = Val (Some (unpackedDirName (tar_listing t) +:+ ".tmp")) /\
    handleUse E (Some tok) st' =
      activate E (unpackedDirName (tar_listing t) +:+ ".tmp") (resolveVersion E tok st').2.
Proof.
  intros Hplain Hword Hword' Hfile Hfinal Hdamage Hmk Htok Hal Hno Hinc Hothers.
  pose proof (plain_nonempty _ Hplain) as Hname.
  destruct (staging_path E (tar_listing t) Hplain) as [Efinal Estaging].
  destruct (installArchive_stages E file t st Hplain Hfile Hfinal)
    as (r & st' & Hrun & Hcase).
  set (final := finalInstallPath E (tar_listing t)) in *.
  set (staging := tempInstallPath E (tar_listing t)) in *.
  set (name := unpackedDirName (tar_listing t)) in *.
  pose proof (mkdir_p_frame staging (fs st)) as Hframe.
  destruct (Fs.mkdir_p staging (fs st)) as [rm f1] eqn:Hmkrun.
  destruct (mkdir_from_spec _ _ _ _ _ Hmkrun) as (_ & _ & Hdirs).
  cbn [fst snd] in Hcase, Hmk, Hframe. subst rm.
  destruct Hcase as [(Hw & _)|(_ & Hcase)]; [congruence|].
  destruct Hcase as [(e & He & _)|(_ & i & Hst & Hfile1 & Hfin1 & Hcase)]; [done|].
  destruct Hcase as [(Hw & _)|(_ & Hcase)]; [congruence|].
  destruct Hcase as [(part' & _ & [e ->] & Hfs)|(Hd & _)]; [|congruence].
  exists e, st'. split; [exact Hrun|].
  assert (Hbase : exists j, f1 !! INSTALL_BASE_DIR E = Some (Dir j)).
  { specialize (Hdirs eq_refl (length (INSTALL_BASE_DIR E))).
    rewrite Estaging, length_app in Hdirs. simpl in Hdirs.
    rewrite take_app_length in Hdirs. apply Hdirs.
    pose proof (INSTALL_BASE_DIR_nonempty E). destruct (INSTALL_BASE_DIR E); simpl;
      [done|lia]. }
  destruct Hbase as [j Hbase].
  assert (Hbs : INSTALL_BASE_DIR E <> staging).
  { rewrite Estaging. intros H. apply (f_equal (@length string)) in H.
    rewrite length_app in H. simpl in H. lia. }
  assert (Has : ALIASES_FILE E <> staging).
  { rewrite Estaging. unfold ALIASES_FILE, INSTALL_BASE_DIR, Path.join. simpl.
    intros H. apply (f_equal (@length string)) in H.
    rewrite !length_app in H. simpl in H. lia. }
  assert (Hap : ~ ALIASES_FILE E `prefix_of` staging).
  { rewrite Estaging. unfold ALIASES_FILE, INSTALL_BASE_DIR, Path.join. simpl.
    intros [k Hk]. rewrite <- !app_assoc in Hk. apply app_inv_head in Hk.
    simpl in Hk. discriminate. }
  assert (Hal' : (getAliases E st').1 = Val (Obj m)).
  { rewrite <- Hal. apply getAliases_ext. rewrite Hfs.
    rewrite lookup_insert_ne by done. by apply Hframe. }
  assert (Hrd : (Fs.readdir (INSTALL_BASE_DIR E) (fs st')).1
                = Val (Fs.entries (INSTALL_BASE_DIR E) (fs st'))).
  { unfold Fs.readdir. rewrite Hfs at 1. rewrite lookup_insert_ne by done.
    by rewrite Hbase. }
  assert (Hentry : Fs.entry_of (INSTALL_BASE_DIR E) staging = Some (name +:+ ".tmp")).
  { rewrite Estaging. unfold Fs.entry_of, Path.dirname, Path.basename.
    rewrite removelast_last, last_last.
    destruct (INSTALL_BASE_DIR E ++ [name +:+ ".tmp"]) eqn:Heq.
    { by destruct (INSTALL_BASE_DIR E). }
    by rewrite decide_True. }
  assert (Hpick : pickDir E (Fs.entries (INSTALL_BASE_DIR E) (fs st')) (Js.Str tok)
                  = Some (name +:+ ".tmp")).
  { apply (pickDir_first _ _ _ _ []); [|by left|by destruct name]. cbn [textOf].
    apply filter_only; [apply entries_NoDup| |done|].
    - apply entries_elem. exists staging, (Dir (part' ∪ i)).
      split; [by rewrite Hfs, lookup_insert_eq|done].
    - intros d Hd Hdi. apply entries_elem in Hd as (k & n & Hk & Hke).
      destruct (decide (d = name +:+ ".tmp")) as [|Hne]; [done|].
      assert (Hks : k <> staging).
      { intros ->. rewrite Hentry in Hke. congruence. }
      rewrite Hfs, lookup_insert_ne in Hk by done.
      rewrite Hframe in Hk.
      + rewrite (Hothers k n d Hk Hke Hne) in Hdi. done.
      + intros Hpre. apply Hks. apply entry_of_key in Hke.
        apply prefix_length_eq; [done|].
        rewrite Hke, Estaging, !length_app. simpl. lia. }
  assert (Hres : (resolveVersion E tok st').1 = Val (Some (name +:+ ".tmp"))).
  { rewrite (resolveVersion_value E st' tok m Hal'), Hrd, Hno.
    assert (Js.truthy tok = true) as -> by (by destruct tok). cbn [default].
    by rewrite Hpick. }
  split; [exact Hres|]. apply handleUse_resolved; [by destruct tok|done|by destruct name].
Qed.

Lemma failed_extraction_resolves_witness :
  exists e st',
    installArchive scanned (tempFile scanned) (start downloaded_damaged) = (Throw e, st') /\
    (resolveVersion scanned "0.14.1" st').1 = Val (Some "zig-windows-x86_64-0.14.1.tmp").
Proof.
  destruct (failed_extraction_resolves scanned (tempFile scanned) damaged
              {[ "zig.exe" := "MZ" ]} (start downloaded_damaged) "0.14.1" ∅)
    as (e & st' & Hrun & Hres & _).
  - vm_compute. reflexivity.
  - vm_compute. reflexivity.
  - vm_compute. reflexivity.
  - vm_compute. reflexivity.
  - vm_compute. reflexivity.
  - reflexivity.
  - vm_compute. reflexivity.
  - discriminate.
  - vm_compute. reflexivity.
  - reflexivity.
  - vm_compute. reflexivity.
  - intros k n d Hk He _. apply entry_of_key in He. subst k.
    assert (Hin : (INSTALL_BASE_DIR scanned ++ [d], n)
                  ∈ map_to_list (fs (start downloaded_damaged)))
      by (by apply elem_of_map_to_list).
    vm_compute in Hin. apply list_elem_of_In in Hin. simpl in Hin.
    repeat (destruct Hin as [Hin|Hin]; [discriminate|]). destruct Hin.
  - exists e, st'. split; [exact Hrun|exact Hres].
Defined.
